(** * python-ironicclient: the HTTP transport layer (ironicclient/common/http.py)

    A shallow embedding of the transport layer of the client: endpoint
    trimming, error-payload extraction, the version negotiation mixin, the
    retry decorator, the two request executors ([HTTPClient] on a raw
    connection, [SessionClient] on a keystone session) and the response body
    iterator; then their JSON and raw entry points, the TLS connection
    ([VerifiedHTTPSConnection]), the constructor [_construct_http_client],
    and the port group manager (ironicclient/v1/portgroup.py).

    Conventions of the embedding.
    - Python [str] values are [string]; a value that may be [None] is an
      [option].  Python integers are [Z].
    - A Python dict used as a map (request headers, the negotiated-version
      cache) is a [gmap]; a dict decoded from JSON keeps its items in an
      association list inside [json].
    - Raising is explicit: a computation returns a [result], and stateful code
      runs in the monad [M], which threads the instance attributes ([Attrs])
      and the outside world ([World]: requests sent, sleeps, log records, the
      version cache and the heap of shared header dicts).
    - Libraries that are not part of the repository ([json], [urlparse], the
      HTTP server behind the connection) are operations of the class
      [Externals]; likewise [json.dumps] ([Encoder]), [os.path.exists]
      ([FileSystem]), the socket calls ([Sockets]), the keystone adapter
      ([Keystone]) and the base manager of the API resources ([Manager]).
    - The semantics followed is the one of CPython 2.7, which the module
      targets through [six]: [str] is a byte string compared bytewise, [None]
      orders below every string, and a [StopIteration] raised inside a
      generator ends it. *)

From Stdlib Require Import ZArith List String Ascii Bool Lia DecimalString.
From stdpp Require Import base option list gmap strings.

Set Default Proof Using "Type".
Set Warnings "-register-all".

(** ** JSON values, as [json.loads] builds them *)

Inductive json :=
  | JNone
  | JBool (b : bool)
  | JInt (z : Z)
  | JFloat (repr : string)
  | JStr (s : string)
  | JList (l : list json)
  | JDict (items : list (string * json)).

(** ** Exceptions and results *)

(** What an [exc.from_response] error carries. *)
Record ErrorInfo := mkErrorInfo {
  http_status : Z;
  message : option json;
  details : option json;
  err_method : option string;
  err_url : option string
}.

Inductive exn :=
  | RuntimeError
  | TypeError
  | ValueError
  | AttributeError
  | KeyError
  | IOError
  | HTTPException                      (* httplib / requests failures *)
  | socket_gaierror
  | socket_error
  | socket_timeout
  | EndpointException
  | EndpointNotFound
  | ConnectionRefused
  | UnsupportedVersion (req min_ver max_ver : option string)
  | Conflict (info : ErrorInfo)
  | ServiceUnavailable (info : ErrorInfo)
  | HTTPError (info : ErrorInfo).

Inductive result (A : Type) :=
  | Ok (a : A)
  | Raise (e : exn)
  | OutOfFuel.
Arguments Ok {A} a.
Arguments Raise {A} e.
Arguments OutOfFuel {A}.

Definition result_bind {A B} (m : result A) (k : A -> result B) : result B :=
  match m with
  | Ok a => k a
  | Raise e => Raise e
  | OutOfFuel => OutOfFuel
  end.

#[global] Instance result_mret : MRet result := fun _ a => Ok a.
#[global] Instance result_mbind : MBind result := fun _ _ k m => result_bind m k.
#[global] Instance result_fmap : FMap result :=
  fun _ _ f m => result_bind m (fun a => Ok (f a)).

(** [try: block except ValueError: handler]. *)
Definition except_ValueError {A} (block : result A) (handler : result A) : result A :=
  match block with
  | Raise ValueError => handler
  | r => r
  end.

(** ** Strings *)

Definition truthy (v : option string) : bool :=
  match v with
  | Some s => negb (String.eqb s "")
  | None => false
  end.

Definition in_chars (c : ascii) (chars : string) : bool :=
  existsb (Ascii.eqb c) (list_ascii_of_string chars).

(** [s.rstrip(chars)]: drop every trailing character that occurs in [chars]. *)
Fixpoint rstrip (chars s : string) : string :=
  match s with
  | EmptyString => EmptyString
  | String c r =>
      match rstrip chars r with
      | EmptyString => if in_chars c chars then EmptyString else String c EmptyString
      | r' => String c r'
      end
  end.

(** [s.lstrip(chars)]. *)
Fixpoint lstrip (chars s : string) : string :=
  match s with
  | EmptyString => EmptyString
  | String c r => if in_chars c chars then lstrip chars r else s
  end.

(** [s.split(sep)[0]] for a one-character separator. *)
Fixpoint split_head (sep : ascii) (s : string) : string :=
  match s with
  | EmptyString => EmptyString
  | String c r => if Ascii.eqb c sep then EmptyString else String c (split_head sep r)
  end.

(** [needle in hay] on strings. *)
Fixpoint is_infix (needle hay : string) : bool :=
  String.prefix needle hay ||
  match hay with
  | EmptyString => false
  | String _ r => is_infix needle r
  end.

Definition lower_ascii (c : ascii) : ascii :=
  let n := nat_of_ascii c in
  if (65 <=? n)%nat && (n <=? 90)%nat then ascii_of_nat (n + 32) else c.

Fixpoint lower (s : string) : string :=
  match s with
  | EmptyString => EmptyString
  | String c r => String (lower_ascii c) (lower r)
  end.

Fixpoint str_take (n : nat) (s : string) : string :=
  match n, s with
  | S n', String c r => String c (str_take n' r)
  | _, _ => EmptyString
  end.

Fixpoint str_drop (n : nat) (s : string) : string :=
  match n, s with
  | S n', String _ r => str_drop n' r
  | _, _ => s
  end.

(** [''.join(chunks)]. *)
Definition join (chunks : list string) : string :=
  fold_right String.append "" chunks.

(** [str(n)] for an integer. *)
Definition str_of_Z (z : Z) : string := NilZero.string_of_int (Z.to_int z).
Definition str_of_N (n : N) : string := NilZero.string_of_uint (N.to_uint n).

(** Python 2 ordering of a [str] against a [str] or [None]: bytewise, and
    [None] is smaller than any string. *)
Definition py_str_lt (a : string) (b : option string) : bool :=
  match b with
  | Some b => String.ltb a b
  | None => false
  end.

(** ** Module constants *)

Definition DEFAULT_VER : string := "1.9".
Definition USER_AGENT : string := "python-ironicclient".
Definition CHUNKSIZE : Z := 1024 * 64.
Definition API_VERSION : string := "/v1".
Definition API_VERSION_SELECTED_STATES : list string :=
  ["user"; "negotiated"; "cached"; "default"].
Definition DEFAULT_MAX_RETRIES : Z := 5.
Definition DEFAULT_RETRY_INTERVAL : Z := 2.

(** ** distutils.version.StrictVersion *)

Module StrictVersion.

Record t := mk {
  version : N * N * N;
  prerelease : option (ascii * N)
}.

Definition is_digit (c : ascii) : bool :=
  let n := nat_of_ascii c in (48 <=? n)%nat && (n <=? 57)%nat.

Definition digit_value (c : ascii) : N := N.of_nat (nat_of_ascii c - 48).

(** The value of the longest prefix made of digits, on top of [acc], and
    the rest of the string. *)
Fixpoint digits_from (acc : N) (s : string) : N * string :=
  match s with
  | String c r =>
      if is_digit c then digits_from (acc * 10 + digit_value c) r else (acc, s)
  | EmptyString => (acc, s)
  end.

(** [\d+]: [None] when the string does not start with a digit. *)
Definition number (s : string) : option (N * string) :=
  match s with
  | String c _ => if is_digit c then Some (digits_from 0 s) else None
  | EmptyString => None
  end.

(** [$] matches at the end and before a final newline. *)
Definition at_end (s : string) : bool :=
  String.eqb s "" || String.eqb s (String (ascii_of_nat 10) "").

(** [version_re]: [^(\d+) \. (\d+) (\. (\d+))? ([ab](\d+))?$]. *)
Definition parse (vstring : string) : option t :=
  '(major, r1) ← number vstring;
  match r1 with
  | String "."%char r2 =>
      '(minor, r3) ← number r2;
      '(patch, r4) ←
        match r3 with
        | String "."%char r3' => '(p, r) ← number r3'; Some (p, r)
        | _ => Some (0%N, r3)
        end;
      '(pre, r5) ←
        match r4 with
        | String c r4' =>
            if Ascii.eqb c "a" || Ascii.eqb c "b"
            then '(n, r) ← number r4'; Some (Some (c, n), r)
            else Some (None, r4)
        | EmptyString => Some (None, r4)
        end;
      if at_end r5 then Some (mk (major, minor, patch) pre) else None
  | _ => None
  end.

(** [StrictVersion(vstring)]: a falsy argument leaves the object without a
    [version] attribute; anything else is parsed, [ValueError] if the syntax
    is wrong. *)
Definition init (vstring : option string) : result (option t) :=
  if truthy vstring
  then match parse (default "" vstring) with
       | Some v => Ok (Some v)
       | None => Raise ValueError
       end
  else Ok None.

Definition cmp_N (a b : N) : comparison := N.compare a b.

Definition cmp_version (a b : N * N * N) : comparison :=
  let '(a1, a2, a3) := a in
  let '(b1, b2, b3) := b in
  match cmp_N a1 b1 with
  | Eq => match cmp_N a2 b2 with
          | Eq => cmp_N a3 b3
          | c => c
          end
  | c => c
  end.

Definition cmp_prerelease (a b : ascii * N) : comparison :=
  match Nat.compare (nat_of_ascii (fst a)) (nat_of_ascii (fst b)) with
  | Eq => cmp_N (snd a) (snd b)
  | c => c
  end.

(** [__cmp__]. *)
Definition cmp (a b : t) : comparison :=
  match cmp_version (version a) (version b) with
  | Eq =>
      match prerelease a, prerelease b with
      | None, None => Eq
      | Some _, None => Lt
      | None, Some _ => Gt
      | Some p, Some q => cmp_prerelease p q
      end
  | c => c
  end.

Definition lt (a b : t) : bool :=
  match cmp a b with Lt => true | _ => false end.

(** [__str__]. *)
Definition str (v : t) : string :=
  let '(major, minor, patch) := version v in
  let vstring :=
    if (patch =? 0)%N
    then str_of_N major +:+ "." +:+ str_of_N minor
    else str_of_N major +:+ "." +:+ str_of_N minor +:+ "." +:+ str_of_N patch in
  match prerelease v with
  | Some (c, n) => vstring +:+ String c "" +:+ str_of_N n
  | None => vstring
  end.

(** [min(a, b)] on two freshly built objects: the second is taken when it
    compares below the first; comparing an object that was built from a
    falsy string fails on its missing [version] attribute. *)
Definition min (a b : option t) : result t :=
  match a, b with
  | Some a, Some b => Ok (if lt b a then b else a)
  | _, _ => Raise AttributeError
  end.

End StrictVersion.

(** ** Endpoint helpers *)

(** Trim API version and trailing slash from endpoint. *)
Definition _trim_endpoint_api_version (url : string) : string :=
  rstrip API_VERSION (rstrip "/" url).

(** ** Operations on decoded JSON values *)

Definition dict_get (key : string) (items : list (string * json)) : option json :=
  snd <$> find (fun kv => String.eqb (fst kv) key) items.

Definition is_JStr (s : string) (j : json) : bool :=
  match j with
  | JStr s' => String.eqb s s'
  | _ => false
  end.

(** [key in obj]. *)
Definition py_contains (key : string) (obj : json) : result bool :=
  match obj with
  | JDict items => Ok (bool_decide (is_Some (dict_get key items)))
  | JList l => Ok (existsb (is_JStr key) l)
  | JStr s => Ok (is_infix key s)
  | JNone | JBool _ | JInt _ | JFloat _ => Raise TypeError
  end.

(** [obj[key]] for a string key. *)
Definition py_getitem (obj : json) (key : string) : result json :=
  match obj with
  | JDict items =>
      match dict_get key items with
      | Some v => Ok v
      | None => Raise KeyError
      end
  | _ => Raise TypeError
  end.

(** A looked-up value as the Python value it is: [None] for a missing key
    and for a JSON null alike. *)
Definition or_None (v : option json) : option json :=
  match v with
  | Some JNone => None
  | v => v
  end.

(** [obj.get(key)]. *)
Definition py_get (obj : json) (key : string) : result (option json) :=
  match obj with
  | JDict items => Ok (or_None (dict_get key items))
  | _ => Raise AttributeError
  end.

(** ** Responses and requests *)

(** An HTTP response as both backends expose it: [status] is
    [resp.status] / [resp.status_code], [payload] is what has not been read
    yet ([resp.read]) or the whole content ([resp.content]). *)
Record Response := mkResponse {
  status : Z;
  resp_headers : list (string * string);
  payload : string
}.

(** [resp.getheader(name, None)] and [resp.headers.get(name, None)]: header
    names are matched without regard to case. *)
Definition getheader (resp : Response) (name : string) : option string :=
  snd <$> find (fun kv => String.eqb (lower (fst kv)) (lower name)) (resp_headers resp).

(** [resp.read(amt)]: the next [amt] bytes, fewer at the end of the body. *)
Definition read (amt : Z) (resp : Response) : string * Response :=
  (str_take (Z.to_nat amt) (payload resp),
   mkResponse (status resp) (resp_headers resp) (str_drop (Z.to_nat amt) (payload resp))).

Inductive ConnClass := VerifiedHTTPSConnection | HTTPConnection.

Record ConnKwargs := mkConnKwargs {
  timeout : Z;
  ca_file : option string;
  cert_file : option string;
  key_file : option string;
  insecure : bool
}.

(** A connection object built by [get_connection]. *)
Record Connection := mkConnection {
  conn_class : ConnClass;
  conn_host : option string;
  conn_port : option Z;
  conn_kwargs : ConnKwargs
}.

(** The keystone session a [SessionClient] was given. *)
Inductive Session := TheSession.

(** What goes on the wire: [conn.request(method, url, body, headers)] on a
    raw connection, [session.request(url, method, raise_exc=False, ...)] on a
    session (header dicts are recorded by value, as they are when sent). *)
Inductive Request :=
  | ConnRequest (conn : Connection) (method url : string)
      (body : option string) (headers : gmap string string)
  | SessionRequest (url : option string) (method : string)
      (headers : option (gmap string string)) (data : option string)
      (user_agent auth : option string)
      (endpoint_filter : option (gmap string (option string))).

Definition request_headers (rq : Request) : gmap string string :=
  match rq with
  | ConnRequest _ _ _ _ h => h
  | SessionRequest _ _ h _ _ _ _ => default ∅ h
  end.

Definition request_method (rq : Request) : string :=
  match rq with
  | ConnRequest _ m _ _ _ => m
  | SessionRequest _ m _ _ _ _ _ => m
  end.

Definition request_body (rq : Request) : option string :=
  match rq with
  | ConnRequest _ _ _ b _ => b
  | SessionRequest _ _ _ d _ _ _ => d
  end.

(** [dict.setdefault(key, value)]. *)
Definition setdefault {V} (key : string) (value : V) (d : gmap string V) : gmap string V :=
  match d !! key with
  | Some _ => d
  | None => <[key := value]> d
  end.

(** ** Libraries outside the repository *)

(** The result of [urlparse.urlparse]; reading [port] raises on a port that
    is not a number. *)
Record UrlParts := mkUrlParts {
  scheme : string;
  hostname : option string;
  port : result (option Z);
  path : string
}.

Class Externals := {
  (** [json.loads] on a string; [None] stands for [ValueError]. *)
  json_loads : string -> option json;
  urlparse : string -> UrlParts;
  (** [resp[name]], item access on the response object a raw connection
      returns from [getresponse]. *)
  resp_getitem : Response -> string -> result string;
  (** The peer: its answer to the last request of the list, given every
      request sent so far (oldest first); a transport failure is an
      exception. *)
  server : list Request -> exn + Response
}.

(** ** Instance attributes, the world, and the monad of stateful code *)

(** The attributes the mixin and the retry decorator read and assign. *)
Record Attrs := mkAttrs {
  endpoint : option string;
  api_version_select_state : string;
  os_ironic_api_version : option string;
  conflict_max_retries : option Z;
  conflict_retry_interval : option Z
}.

Definition set_api_version_select_state (v : string) (a : Attrs) : Attrs :=
  mkAttrs (endpoint a) v (os_ironic_api_version a)
          (conflict_max_retries a) (conflict_retry_interval a).
Definition set_os_ironic_api_version (v : option string) (a : Attrs) : Attrs :=
  mkAttrs (endpoint a) (api_version_select_state a) v
          (conflict_max_retries a) (conflict_retry_interval a).
Definition set_conflict_max_retries (v : option Z) (a : Attrs) : Attrs :=
  mkAttrs (endpoint a) (api_version_select_state a) (os_ironic_api_version a)
          v (conflict_retry_interval a).
Definition set_conflict_retry_interval (v : option Z) (a : Attrs) : Attrs :=
  mkAttrs (endpoint a) (api_version_select_state a) (os_ironic_api_version a)
          (conflict_max_retries a) v.

Inductive LogLevel := DEBUG | WARNING | ERROR.

(** A reference to a header dict that several frames share. *)
Definition loc := nat.

Record World := mkWorld {
  sent : list Request;                 (* requests issued, oldest first *)
  slept : list Z;                      (* arguments of time.sleep, oldest first *)
  logged : list (LogLevel * string);
  filecache : gmap (option string * option string) string;
  heap : gmap loc (gmap string string)
}.

Record State := mkState {
  self : Attrs;
  world : World
}.

Definition M (A : Type) : Type := State -> result A * State.

#[global] Instance M_mret : MRet M := fun _ a st => (Ok a, st).
#[global] Instance M_mbind : MBind M := fun _ _ k m st =>
  match m st with
  | (Ok a, st') => k a st'
  | (Raise e, st') => (Raise e, st')
  | (OutOfFuel, st') => (OutOfFuel, st')
  end.

Definition raise {A} (e : exn) : M A := fun st => (Raise e, st).
Definition lift {A} (r : result A) : M A := fun st => (r, st).
Definition gets {A} (f : Attrs -> A) : M A := fun st => (Ok (f (self st)), st).
Definition assign (f : Attrs -> Attrs) : M () :=
  fun st => (Ok (), mkState (f (self st)) (world st)).
Definition effect (f : World -> World) : M () :=
  fun st => (Ok (), mkState (self st) (f (world st))).

(** [try: block except ...], where [handler] gives the clause that matches
    the exception, if one does. *)
Definition try_except {A} (block : M A) (handler : exn -> option (M A)) : M A :=
  fun st =>
    match block st with
    | (Raise e, st') =>
        match handler e with
        | Some h => h st'
        | None => (Raise e, st')
        end
    | r => r
    end.

Definition LOG (level : LogLevel) (msg : string) : M () :=
  effect (fun w => mkWorld (sent w) (slept w) (logged w ++ [(level, msg)])
                           (filecache w) (heap w)).

(** [time.sleep(secs)]; a negative duration is refused. *)
Definition time_sleep (secs : option Z) : M () :=
  match secs with
  | None => raise TypeError
  | Some t =>
      if (t <? 0)%Z then raise IOError
      else effect (fun w => mkWorld (sent w) (slept w ++ [t]) (logged w)
                                    (filecache w) (heap w))
  end.

(** Modelled from the spec: [filecache.save_data], whose module is not part
    of the sources at hand; the external cache maps (host, port) to a version
    string and the value last written wins. *)
Definition save_data (host port : option string) (data : string) : M () :=
  effect (fun w => mkWorld (sent w) (slept w) (logged w)
                           (<[(host, port) := data]> (filecache w)) (heap w)).

Definition heap_get (l : loc) : M (gmap string string) :=
  fun st => (Ok (default ∅ (heap (world st) !! l)), st).
Definition heap_put (l : loc) (d : gmap string string) : M () :=
  effect (fun w => mkWorld (sent w) (slept w) (logged w) (filecache w)
                           (<[l := d]> (heap w))).

(** A dict literal: a new object, at a reference nothing holds yet. *)
Definition heap_alloc (d : gmap string string) : M loc :=
  fun st =>
    let w := world st in
    let l := fresh (dom (heap w)) in
    (Ok l, mkState (self st)
             (mkWorld (sent w) (slept w) (logged w) (filecache w) (<[l := d]> (heap w)))).

Section Transport.
Context {ext : Externals}.

(** Sending a request: it joins the record of what was sent, and the peer
    answers or the transport fails. *)
Definition send (rq : Request) : M Response :=
  fun st =>
    let w := world st in
    let history := sent w ++ [rq] in
    let st' := mkState (self st)
                 (mkWorld history (slept w) (logged w) (filecache w) (heap w)) in
    match server history with
    | inl e => (Raise e, st')
    | inr resp => (Ok resp, st')
    end.

(** ** Error payloads *)

(** [json.loads(x)] on any Python value. *)
Definition py_json_loads (x : json) : result json :=
  match x with
  | JStr s =>
      match json_loads s with
      | Some j => Ok j
      | None => Raise ValueError
      end
  | _ => Raise TypeError
  end.

(** Return error_message from the HTTP response body. *)
Definition _extract_error_json (body : option string) : result json :=
  let error_json := JDict [] in
  except_ValueError
    (match body with
     | None => Raise TypeError
     | Some b =>
         body_json ← py_json_loads (JStr b);
         has ← py_contains "error_message" body_json;
         if (has : bool) then
           raw_msg ← py_getitem body_json "error_message";
           py_json_loads raw_msg
         else Ok error_json
     end)
    (Ok error_json).

(** Modelled from the spec: [exc.from_response], whose module is not part
    of the sources at hand; it builds the typed error that carries status,
    fault string, debug info, method and URL, of the conflict kind for a
    409 and of the service-unavailable kind for a 503. *)
Definition from_response (resp : Response) (msg traceback : option json)
    (method url : option string) : exn :=
  let info := mkErrorInfo (status resp) msg traceback method url in
  if (status resp =? 409)%Z then Conflict info
  else if (status resp =? 503)%Z then ServiceUnavailable info
  else HTTPError info.

(** Extract and return the server & port that we're connecting to. *)
Definition get_server (endpoint : option string)
  : result (option string * option string) :=
  match endpoint with
  | None => Ok (None, None)
  | Some endpoint =>
      let parts := urlparse endpoint in
      p ← port parts;
      Ok (hostname parts,
          Some (match p with Some n => str_of_Z n | None => "None" end))
  end.

End Transport.

(** ** VersionNegotiationMixin *)

(** The two methods a class has to supply to the mixin. *)
Record VersionNegotiationMixin (Conn : Type) := mkMixin {
  _parse_version_headers : Response -> option string * option string;
  _make_simple_request : Conn -> string -> string -> M Response
}.
Arguments _parse_version_headers {Conn} _ _.
Arguments _make_simple_request {Conn} _ _ _ _.

Definition _generic_parse_version_headers
    (accessor_func : string -> option string) : option string * option string :=
  let min_ver := accessor_func "X-OpenStack-Ironic-API-Minimum-Version" in
  let max_ver := accessor_func "X-OpenStack-Ironic-API-Maximum-Version" in
  (min_ver, max_ver).

Section Negotiation.
Context {ext : Externals} {Conn : Type} (cls : VersionNegotiationMixin Conn).

(** Negotiate the server version.
    Assumption: Called after receiving a 406 error when doing a request. *)
Definition negotiate_version (conn : Conn) (resp : Response) : M string :=
  state ← gets api_version_select_state;
  if negb (bool_decide (state ∈ API_VERSION_SELECTED_STATES)) then
    raise RuntimeError
  else
    let '(min_ver, max_ver) := _parse_version_headers cls resp in
    '(min_ver, max_ver) ←
      (if negb (truthy max_ver) then
         LOG DEBUG "No version header in response, requesting from server";;
         ver ← gets os_ironic_api_version;
         let base_version :=
           if truthy ver then "/v" +:+ split_head "." (default "" ver)
           else API_VERSION in
         resp ← _make_simple_request cls conn "GET" base_version;
         mret (_parse_version_headers cls resp)
       else mret (min_ver, max_ver));
    state ← gets api_version_select_state;
    req ← gets os_ironic_api_version;
    if String.eqb state "user" then
      raise (UnsupportedVersion req min_ver max_ver)
    else if String.eqb state "negotiated" then
      raise (UnsupportedVersion req min_ver max_ver)
    else
      negotiated_ver ← lift (
        a ← StrictVersion.init req;
        b ← StrictVersion.init max_ver;
        m ← StrictVersion.min a b;
        Ok (StrictVersion.str m));
      let negotiated_ver :=
        match min_ver with
        | Some min_ver =>
            if py_str_lt negotiated_ver (Some min_ver) then min_ver
            else negotiated_ver
        | None => negotiated_ver
        end in
      assign (set_api_version_select_state "negotiated");;
      assign (set_os_ironic_api_version (Some negotiated_ver));;
      LOG DEBUG "Negotiated API version";;
      endpoint ← gets endpoint;
      '(host, port) ← lift (get_server endpoint);
      save_data host port negotiated_ver;;
      mret negotiated_ver.

End Negotiation.

(** ** The retry decorator *)

Definition is_retry_exception (e : exn) : bool :=
  match e with
  | Conflict _ | ServiceUnavailable _ | ConnectionRefused => true
  | _ => false
  end.

(** [range(start, stop)]. *)
Definition py_range (start stop : Z) : list Z :=
  map (fun i => (start + Z.of_nat i)%Z) (seq 0 (Z.to_nat (stop - start))).

Section Retries.
Context {U K R : Type}.
Variable func : U -> string -> K -> M (option R).

(** The body of the [for attempt in range(1, num_attempts + 1)] loop, over
    the attempts that are left. *)
Fixpoint retry_loop (url : U) (method : string) (kwargs : K)
    (num_attempts : Z) (attempts : list Z) : M (option R) :=
  match attempts with
  | [] => mret None
  | attempt :: rest =>
      try_except (func url method kwargs)
        (fun error =>
           if is_retry_exception error then
             Some (if (attempt =? num_attempts)%Z then
                     LOG ERROR "Error contacting Ironic server";;
                     raise error
                   else
                     LOG WARNING "Error contacting Ironic server";;
                     interval ← gets conflict_retry_interval;
                     time_sleep interval;;
                     retry_loop url method kwargs num_attempts rest)
           else None)
  end.

(** Wrapper for _http_request adding support for retries. *)
Definition with_retries (url : U) (method : string) (kwargs : K) : M (option R) :=
  max_retries ← gets conflict_max_retries;
  (if max_retries is None
   then assign (set_conflict_max_retries (Some DEFAULT_MAX_RETRIES))
   else mret ());;
  interval ← gets conflict_retry_interval;
  (if interval is None
   then assign (set_conflict_retry_interval (Some DEFAULT_RETRY_INTERVAL))
   else mret ());;
  max_retries ← gets conflict_max_retries;
  match max_retries with
  | None => raise TypeError
  | Some max_retries =>
      let num_attempts := (max_retries + 1)%Z in
      retry_loop url method kwargs num_attempts (py_range 1 (num_attempts + 1))
  end.

End Retries.

(** ** ResponseBodyIterator *)

Module ResponseBodyIterator.

(** [next]: one read of [CHUNKSIZE]; [None] stands for [StopIteration]. *)
Definition next (resp : Response) : option string * Response :=
  let '(chunk, resp') := read CHUNKSIZE resp in
  if negb (String.eqb chunk "") then (Some chunk, resp') else (None, resp').

(** [__iter__] run to its end, [fuel] bounding the number of [next] calls:
    the chunks yielded and the response as the reads leave it. *)
Fixpoint iter (fuel : nat) (resp : Response) : option (list string * Response) :=
  match fuel with
  | O => None
  | S fuel' =>
      match next resp with
      | (Some chunk, resp') =>
          '(chunks, resp'') ← iter fuel' resp';
          Some (chunk :: chunks, resp'')
      | (None, resp') => Some ([], resp')
      end
  end.

(** [[chunk for chunk in body_iter]]; one [next] more than there are bytes
    always reaches the end. *)
Definition chunks (resp : Response) : M (list string * Response) :=
  match iter (S (String.length (payload resp))) resp with
  | Some r => mret r
  | None => lift OutOfFuel
  end.

End ResponseBodyIterator.

Inductive BodyIter :=
  | StringIO (body_str : string)
  | BodyIterator (resp : Response).

(** Iterating a [StringIO] gives its lines, each with its end of line. *)
Fixpoint readlines (s : string) : list string :=
  match s with
  | EmptyString => []
  | String c r =>
      if Ascii.eqb c (ascii_of_nat 10) then String c "" :: readlines r
      else match readlines r with
           | [] => [String c ""]
           | line :: lines => String c line :: lines
           end
  end.

(** [json.dumps] on a value [json.loads] could have built. *)
Class Encoder := {
  json_dumps : json -> string
}.

(** ** HTTPClient: the executor on a raw connection *)

Module HTTPClient.

(** Keyword arguments of the constructor; [None] is a key that was not
    passed (for the two attributes with a default, the outer [option]). *)
Record InitKwargs := mkInitKwargs {
  kw_token : option string;
  kw_auth_ref : option string;
  kw_os_ironic_api_version : option (option string);
  kw_api_version_select_state : option string;
  kw_max_retries : option (option Z);
  kw_retry_interval : option (option Z);
  kw_timeout : option Z;
  kw_ca_file : option string;
  kw_cert_file : option string;
  kw_key_file : option string;
  kw_insecure : option bool
}.

Definition no_kwargs : InitKwargs :=
  mkInitKwargs None None None None None None None None None None None.

(** The attributes only [__init__] assigns. *)
Record t := mk {
  endpoint_trimmed : string;
  auth_token : option string;
  auth_ref : option string;
  connection_params : ConnClass * (option string * option Z * string) * ConnKwargs
}.

(** Keyword arguments of a request. *)
Record Kwargs := mkKwargs {
  headers : option (gmap string string);
  body : option string
}.

(** Keyword arguments of [json_request]: [body] is the value to encode. *)
Record JsonKwargs := mkJsonKwargs {
  json_headers : option (gmap string string);
  json_body : option json
}.

Section WithExternals.
Context {ext : Externals}.

Definition get_connection_params (endpoint : string) (kwargs : InitKwargs)
  : result (ConnClass * (option string * option Z * string) * ConnKwargs) :=
  let parts := urlparse endpoint in
  let path := _trim_endpoint_api_version (path parts) in
  p ← port parts;
  let _args := (hostname parts, p, path) in
  let timeout :=
    match kw_timeout kwargs with
    | Some t => if (t =? 0)%Z then 600%Z else t
    | None => 600%Z
    end in
  if String.eqb (scheme parts) "https" then
    Ok (VerifiedHTTPSConnection, _args,
        mkConnKwargs timeout (kw_ca_file kwargs) (kw_cert_file kwargs)
          (kw_key_file kwargs) (default false (kw_insecure kwargs)))
  else if String.eqb (scheme parts) "http" then
    Ok (HTTPConnection, _args, mkConnKwargs timeout None None None false)
  else Raise EndpointException.

Definition __init__ (endpoint : option string) (kwargs : InitKwargs)
  : result (Attrs * t) :=
  match endpoint with
  | None => Raise AttributeError
  | Some url =>
      let endpoint_trimmed := _trim_endpoint_api_version url in
      let auth_token := kw_token kwargs in
      let auth_ref := kw_auth_ref kwargs in
      let os_ironic_api_version :=
        default (Some DEFAULT_VER) (kw_os_ironic_api_version kwargs) in
      let api_version_select_state :=
        default "default" (kw_api_version_select_state kwargs) in
      let conflict_max_retries :=
        default (Some DEFAULT_MAX_RETRIES) (kw_max_retries kwargs) in
      let conflict_retry_interval :=
        default (Some DEFAULT_RETRY_INTERVAL) (kw_retry_interval kwargs) in
      connection_params ← get_connection_params url kwargs;
      Ok (mkAttrs endpoint api_version_select_state os_ironic_api_version
            conflict_max_retries conflict_retry_interval,
          mk endpoint_trimmed auth_token auth_ref connection_params)
  end.

(** The connection object is built from the first two positional and the
    keyword parameters; building it opens nothing. *)
Definition get_connection (self : t) : Connection :=
  let '(_class, (host, port, _), kw) := connection_params self in
  mkConnection _class host port kw.

(** One debug record with the curl command line of the request; the text is
    not kept. *)
Definition log_curl_request (self : t) (method url : string) (kwargs : Kwargs)
  : M () :=
  LOG DEBUG "curl".

(** One debug record with the status line, the headers and, when it was
    read, the body; the text is not kept. *)
Definition log_http_response (resp : Response) (body : option string) : M () :=
  LOG DEBUG "response".

Definition _make_connection_url (self : t) (url : string) : string :=
  let '(_class, (_, _, base_url), _kwargs) := connection_params self in
  base_url +:+ "/" +:+ lstrip "/" url.

Definition _parse_version_headers (resp : Response) :=
  _generic_parse_version_headers (getheader resp).

Definition _make_simple_request (self : t) (conn : Connection)
    (method url : string) : M Response :=
  send (ConnRequest conn method (_make_connection_url self url) None ∅).

Definition mixin (self : t) : VersionNegotiationMixin Connection :=
  mkMixin Connection _parse_version_headers (_make_simple_request self).

(** The handlers of the [try] around the request: name resolution
    failures, then any other socket error or timeout. *)
Definition socket_handlers {A} (e : exn) : option (M A) :=
  match e with
  | socket_gaierror => Some (raise EndpointNotFound)
  | socket_error | socket_timeout => Some (raise ConnectionRefused)
  | _ => None
  end.

(** The undecorated [_http_request]; [_http_request] is the decorated
    method it calls on itself. *)
Definition _http_request_func (self : t)
    (_http_request : string -> string -> Kwargs -> M (option (Response * BodyIter)))
    (url method : string) (kwargs : Kwargs)
  : M (option (Response * BodyIter)) :=
  (* Copy the kwargs so we can reuse the original in case of redirects *)
  let h := default ∅ (headers kwargs) in
  let h := setdefault "User-Agent" USER_AGENT h in
  ver ← gets os_ironic_api_version;
  let h := if truthy ver
           then setdefault "X-OpenStack-Ironic-API-Version" (default "" ver) h
           else h in
  let h := if truthy (auth_token self)
           then setdefault "X-Auth-Token" (default "" (auth_token self)) h
           else h in
  let kwargs := mkKwargs (Some h) (body kwargs) in
  log_curl_request self method url kwargs;;
  let conn := get_connection self in
  r ← try_except
        (let conn_url := _make_connection_url self url in
         resp ← send (ConnRequest conn method conn_url (body kwargs) h);
         if (status resp =? 406)%Z then
           negotiated_ver ← negotiate_version (mixin self) conn resp;
           let h := <["X-OpenStack-Ironic-API-Version" := negotiated_ver]> h in
           let kwargs := mkKwargs (Some h) (body kwargs) in
           v ← _http_request url method kwargs;
           mret (inl v)
         else mret (inr resp))
        socket_handlers;
  match r with
  | inl v => mret v
  | inr resp =>
      (* Read body into string if it isn't obviously image data *)
      '(body_str, body_iter, resp) ←
        (if negb (bool_decide (getheader resp "content-type"
                               = Some "application/octet-stream")) then
           '(chunks, resp) ← ResponseBodyIterator.chunks resp;
           let body_str := join chunks in
           log_http_response resp (Some body_str);;
           mret (Some body_str, StringIO body_str, resp)
         else
           log_http_response resp None;;
           mret (None, BodyIterator resp, resp));
      if (400 <=? status resp)%Z && (status resp <? 600)%Z then
        LOG WARNING "Request returned failure status";;
        error_json ← lift (_extract_error_json body_str);
        faultstring ← lift (py_get error_json "faultstring");
        debuginfo ← lift (py_get error_json "debuginfo");
        raise (from_response resp faultstring debuginfo (Some method) (Some url))
      else if bool_decide (status resp ∈ [301; 302; 305]%Z) then
        (* Redirected. Reissue the request to the new location. *)
        location ← lift (resp_getitem resp "location");
        _http_request location method kwargs
      else if (status resp =? 300)%Z then
        raise (from_response resp None None (Some method) (Some url))
      else mret (Some (resp, body_iter))
  end.

(** The decorated method; [fuel] bounds how deep it calls itself, for the
    redirects and the replays after a negotiation. *)
Fixpoint _http_request (fuel : nat) (self : t) (url method : string)
    (kwargs : Kwargs) : M (option (Response * BodyIter)) :=
  match fuel with
  | O => lift OutOfFuel
  | S fuel' =>
      with_retries (_http_request_func self (_http_request fuel' self))
        url method kwargs
  end.

Definition raw_request (fuel : nat) (self : t) (method url : string)
    (kwargs : Kwargs) : M (option (Response * BodyIter)) :=
  let h := default ∅ (headers kwargs) in
  let h := setdefault "Content-Type" "application/octet-stream" h in
  _http_request fuel self url method (mkKwargs (Some h) (body kwargs)).

Context {enc : Encoder}.

(** [''.join([chunk for chunk in body_iter])], with the response as the
    iteration leaves it: a [ResponseBodyIterator] reads the response it was
    built on. *)
Definition read_body (resp : Response) (body_iter : BodyIter) : M (string * Response) :=
  match body_iter with
  | StringIO body_str => mret (join (readlines body_str), resp)
  | BodyIterator r =>
      '(chunks, r) ← ResponseBodyIterator.chunks r;
      mret (join chunks, r)
  end.

(** The body that comes back is a Python value: the decoded document, the
    empty list, [None], or the text that could not be decoded. *)
Definition json_request (fuel : nat) (self : t) (method url : string)
    (kwargs : JsonKwargs) : M (Response * json) :=
  let h := default ∅ (json_headers kwargs) in
  let h := setdefault "Content-Type" "application/json" h in
  let h := setdefault "Accept" "application/json" h in
  let body := json_dumps <$> json_body kwargs in
  r ← _http_request fuel self url method (mkKwargs (Some h) body);
  match r with
  | None => raise TypeError
  | Some (resp, body_iter) =>
      let content_type := getheader resp "content-type" in
      if (status resp =? 204)%Z || (status resp =? 205)%Z
         || bool_decide (content_type = None)
      then mret (resp, JList [])
      else if is_infix "application/json" (default "" content_type) then
        '(body, resp) ← read_body resp body_iter;
        match json_loads body with
        | Some j => mret (resp, j)
        | None =>
            LOG ERROR "Could not decode response body as JSON";;
            mret (resp, JStr body)
        end
      else mret (resp, JNone)
  end.

End WithExternals.

End HTTPClient.

(** ** SessionClient: the executor on a keystone session *)

Module SessionClient.

(** The attributes the adapter base class keeps. *)
Record t := mk {
  session : Session;
  auth : option string;
  interface : option string;
  service_type : option string;
  region_name : option string
}.

(** Keyword arguments of a request.  [headers] is a reference: the dict is
    shared by every frame the keyword arguments are passed on to, and the
    executor updates it in place. *)
Record Kwargs := mkKwargs {
  headers : option loc;
  data : option string;
  user_agent : option string;
  kw_auth : option string;
  endpoint_filter : option (gmap string (option string))
}.

(** Keyword arguments of [json_request]: [body], the value to encode, and
    the others. *)
Record JsonKwargs := mkJsonKwargs {
  json_body : option json;
  json_rest : Kwargs
}.

Section WithExternals.
Context {ext : Externals}.

Definition __init__ (os_ironic_api_version : option string)
    (api_version_select_state : string) (max_retries retry_interval : option Z)
    (endpoint : option string) (adapter : t) : Attrs * t :=
  (mkAttrs endpoint api_version_select_state os_ironic_api_version
     max_retries retry_interval,
   adapter).

Definition _parse_version_headers (resp : Response) :=
  _generic_parse_version_headers (getheader resp).

Definition _make_simple_request (conn : Session) (method url : string)
  : M Response :=
  (* NOTE: conn is self.session for this class *)
  send (SessionRequest (Some url) method None None None None None).

Definition mixin : VersionNegotiationMixin Session :=
  mkMixin Session _parse_version_headers _make_simple_request.

(** [kwargs['headers']]. *)
Definition kwargs_headers (kwargs : Kwargs) : M loc :=
  match headers kwargs with
  | Some l => mret l
  | None => raise KeyError
  end.

(** [session.request(url, method, raise_exc=False, **kwargs)]. *)
Definition session_request (url : option string) (method : string)
    (kwargs : Kwargs) : M Response :=
  h ← match headers kwargs with
      | Some l => d ← heap_get l; mret (Some d)
      | None => mret None
      end;
  send (SessionRequest url method h (data kwargs) (user_agent kwargs)
          (kw_auth kwargs) (endpoint_filter kwargs)).

(** The undecorated [_http_request]; [_http_request] is the decorated
    method it calls on itself. *)
Definition _http_request_func (self : t)
    (_http_request : option string -> string -> Kwargs -> M (option Response))
    (url : option string) (method : string) (kwargs : Kwargs)
  : M (option Response) :=
  let user_agent := Some (default USER_AGENT (user_agent kwargs)) in
  let kw_auth := match kw_auth kwargs with Some a => Some a | None => auth self end in
  ver ← gets os_ironic_api_version;
  (if truthy ver then
     l ← kwargs_headers kwargs;
     h ← heap_get l;
     heap_put l (setdefault "X-OpenStack-Ironic-API-Version" (default "" ver) h)
   else mret ());;
  let endpoint_filter := default ∅ (endpoint_filter kwargs) in
  let endpoint_filter := setdefault "interface" (interface self) endpoint_filter in
  let endpoint_filter := setdefault "service_type" (service_type self) endpoint_filter in
  let endpoint_filter := setdefault "region_name" (region_name self) endpoint_filter in
  let kwargs := mkKwargs (headers kwargs) (data kwargs) user_agent kw_auth
                  (Some endpoint_filter) in
  resp ← session_request url method kwargs;
  if (status resp =? 406)%Z then
    negotiated_ver ← negotiate_version mixin (session self) resp;
    l ← kwargs_headers kwargs;
    h ← heap_get l;
    heap_put l (<["X-OpenStack-Ironic-API-Version" := negotiated_ver]> h);;
    _http_request url method kwargs
  else if (400 <=? status resp)%Z && (status resp <? 600)%Z then
    error_json ← lift (_extract_error_json (Some (payload resp)));
    faultstring ← lift (py_get error_json "faultstring");
    debuginfo ← lift (py_get error_json "debuginfo");
    raise (from_response resp faultstring debuginfo (Some method) url)
  else if bool_decide (status resp ∈ [301; 302; 305]%Z) then
    (* Redirected. Reissue the request to the new location. *)
    let location := getheader resp "location" in
    resp ← _http_request location method kwargs;
    mret resp
  else if (status resp =? 300)%Z then
    raise (from_response resp None None (Some method) url)
  else mret (Some resp).

(** The decorated method; [fuel] bounds how deep it calls itself. *)
Fixpoint _http_request (fuel : nat) (self : t) (url : option string)
    (method : string) (kwargs : Kwargs) : M (option Response) :=
  match fuel with
  | O => lift OutOfFuel
  | S fuel' =>
      with_retries (_http_request_func self (_http_request fuel' self))
        url method kwargs
  end.

(** [kwargs.setdefault('headers', {})]: the dict that was passed, or a new
    one. *)
Definition setdefault_headers (kwargs : Kwargs) : M loc :=
  match headers kwargs with
  | Some l => mret l
  | None => heap_alloc ∅
  end.

(** [kwargs['headers'].setdefault(key, value)], on the shared dict. *)
Definition headers_setdefault (l : loc) (key value : string) : M () :=
  h ← heap_get l;
  heap_put l (setdefault key value h).

Context {enc : Encoder}.

Definition json_request (fuel : nat) (self : t) (method url : string)
    (kwargs : JsonKwargs) : M (Response * json) :=
  let kw := json_rest kwargs in
  l ← setdefault_headers kw;
  headers_setdefault l "Content-Type" "application/json";;
  headers_setdefault l "Accept" "application/json";;
  let data :=
    match json_body kwargs with
    | Some body => Some (json_dumps body)
    | None => data kw
    end in
  r ← _http_request fuel self (Some url) method
        (mkKwargs (Some l) data (user_agent kw) (kw_auth kw) (endpoint_filter kw));
  match r with
  | None => raise AttributeError
  | Some resp =>
      let body := payload resp in
      let content_type := getheader resp "content-type" in
      if (status resp =? 204)%Z || (status resp =? 205)%Z
         || bool_decide (content_type = None)
      then mret (resp, JList [])
      else if is_infix "application/json" (default "" content_type) then
        match json_loads (payload resp) with
        | Some j => mret (resp, j)
        | None =>
            LOG ERROR "Could not decode response body as JSON";;
            mret (resp, JStr body)
        end
      else mret (resp, JNone)
  end.

Definition raw_request (fuel : nat) (self : t) (method url : string)
    (kwargs : Kwargs) : M (option Response) :=
  l ← setdefault_headers kwargs;
  headers_setdefault l "Content-Type" "application/octet-stream";;
  _http_request fuel self (Some url) method
    (mkKwargs (Some l) (data kwargs) (user_agent kwargs) (kw_auth kwargs)
       (endpoint_filter kwargs)).

End WithExternals.

End SessionClient.

(** ** VerifiedHTTPSConnection: TLS on the raw connection *)

(** [os.path.exists]. *)
Class FileSystem := {
  os_path_exists : string -> bool
}.

Module VerifiedHTTPSConnection.

Inductive CertReqs := CERT_NONE | CERT_REQUIRED.

(** The keyword arguments [connect] builds for [ssl.wrap_socket];
    [ca_certs] is [None] when the key is not there, [Some None] when it is
    there with the value [None]. *)
Record WrapKwargs := mkWrapKwargs {
  cert_reqs : CertReqs;
  ca_certs : option (option string);
  certfile : option string;
  keyfile : option string
}.

(** The calls [connect] makes on the socket layer. *)
Inductive Call :=
  | create_connection (host : option string) (port : option Z) (timeout : option Z)
  | _tunnel
  | wrap_socket (kwargs : WrapKwargs).

(** What [self.sock] holds: the plain socket, or the one [ssl.wrap_socket]
    returned for these keyword arguments. *)
Inductive Sock :=
  | plain_socket
  | ssl_socket (kwargs : WrapKwargs).

(** The socket layer: whether the last call of the list raises, given the
    calls made so far (oldest first). *)
Class Sockets := {
  socket_fails : list Call -> option exn
}.

Record t := mk {
  host : option string;
  port : option Z;
  key_file : option string;
  cert_file : option string;
  ca_file : option string;
  timeout : option Z;
  insecure : bool;
  _tunnel_host : option string;
  sock : option Sock
}.

Definition set_sock (s : option Sock) (self : t) : t :=
  mk (host self) (port self) (key_file self) (cert_file self) (ca_file self)
     (timeout self) (insecure self) (_tunnel_host self) s.

(** Standard CA file locations for Debian/Ubuntu, RedHat/Fedora, Suse,
    FreeBSD/OpenBSD. *)
Definition ca_path : list string :=
  [ "/etc/ssl/certs/ca-certificates.crt";
    "/etc/pki/tls/certs/ca-bundle.crt";
    "/etc/ssl/ca-bundle.pem";
    "/etc/ssl/cert.pem" ].

Section WithSystem.
Context {fs : FileSystem} {net : Sockets}.

(** The [for ca in ca_path] loop, over the paths that are left. *)
Fixpoint first_existing (paths : list string) : option string :=
  match paths with
  | [] => None
  | ca :: rest => if os_path_exists ca then Some ca else first_existing rest
  end.

(** Return path to system default CA file. *)
Definition get_system_ca_file : option string := first_existing ca_path.

(** The base class keeps host, port, key and certificate, with no tunnel
    and no socket yet; [insecure] is the flag itself ([insecure is True]). *)
Definition __init__ (host : option string) (port : option Z)
    (key_file cert_file ca_file : option string) (timeout : option Z)
    (insecure : bool) : t :=
  let ca_file :=
    match ca_file with
    | Some f => Some f
    | None => get_system_ca_file
    end in
  mk host port key_file cert_file ca_file timeout insecure None None.

(** The [kwargs] dict [connect] builds for [ssl.wrap_socket]. *)
Definition wrap_kwargs (self : t) : WrapKwargs :=
  let kwargs :=
    if insecure self then mkWrapKwargs CERT_NONE None None None
    else mkWrapKwargs CERT_REQUIRED (Some (ca_file self)) None None in
  if truthy (cert_file self) then
    let kwargs := mkWrapKwargs (cert_reqs kwargs) (ca_certs kwargs)
                    (cert_file self) (keyfile kwargs) in
    if truthy (key_file self)
    then mkWrapKwargs (cert_reqs kwargs) (ca_certs kwargs)
           (certfile kwargs) (key_file self)
    else kwargs
  else kwargs.

(** Connect to a host on a given (SSL) port: the outcome, the connection
    object and the calls made, after the calls [done] before. *)
Definition connect (self : t) (done : list Call) : result () * (t * list Call) :=
  let done := done ++ [create_connection (host self) (port self) (timeout self)] in
  match socket_fails done with
  | Some e => (Raise e, (self, done))
  | None =>
      let tunnelled :=
        if truthy (_tunnel_host self) then
          let self := set_sock (Some plain_socket) self in
          let done := done ++ [_tunnel] in
          match socket_fails done with
          | Some e => (Raise e, (self, done))
          | None => (Ok (), (self, done))
          end
        else (Ok (), (self, done)) in
      match tunnelled with
      | (Ok _, (self, done)) =>
          let kwargs := wrap_kwargs self in
          let done := done ++ [wrap_socket kwargs] in
          match socket_fails done with
          | Some e => (Raise e, (self, done))
          | None => (Ok (), (set_sock (Some (ssl_socket kwargs)) self, done))
          end
      | failed => failed
      end
  end.

End WithSystem.

End VerifiedHTTPSConnection.

(** ** _construct_http_client *)

(** [LegacyJsonAdapter.__init__(session=session, **kwargs)] of keystoneclient:
    the adapter attributes, or the exception the library raises on keyword
    arguments it does not take. *)
Class Keystone := {
  Adapter_init : Session -> gmap string (option string) -> result SessionClient.t
}.

(** The arguments of [_construct_http_client]; [arg_kwargs] is [**kwargs],
    its values strings or [None]. *)
Record ConstructArgs := mkConstructArgs {
  arg_endpoint : option string;
  arg_session : option Session;
  arg_token : option string;
  arg_auth_ref : option string;
  arg_os_ironic_api_version : option string;
  arg_api_version_select_state : string;
  arg_max_retries : option Z;
  arg_retry_interval : option Z;
  arg_timeout : option Z;
  arg_ca_file : option string;
  arg_cert_file : option string;
  arg_key_file : option string;
  arg_insecure : option bool;
  arg_kwargs : gmap string (option string)
}.

(** The defaults of the signature. *)
Definition default_args : ConstructArgs :=
  mkConstructArgs None None None None (Some DEFAULT_VER) "default"
    (Some DEFAULT_MAX_RETRIES) (Some DEFAULT_RETRY_INTERVAL) (Some 600%Z)
    None None None None ∅.

Section Construct.
Context {ext : Externals} {ks : Keystone}.

(** The [ignored] dict, each argument with its truth value. *)
Definition ignored (a : ConstructArgs) : list (string * bool) :=
  [ ("token", truthy (arg_token a));
    ("auth_ref", truthy (arg_auth_ref a));
    ("timeout", negb (bool_decide (arg_timeout a = Some 600%Z)));
    ("ca_file", truthy (arg_ca_file a));
    ("cert_file", truthy (arg_cert_file a));
    ("key_file", truthy (arg_key_file a));
    ("insecure", default false (arg_insecure a)) ].

Definition _construct_http_client (a : ConstructArgs)
  : M ((Attrs * SessionClient.t) + (Attrs * HTTPClient.t)) :=
  match arg_session a with
  | Some session =>
      let kwargs := arg_kwargs a in
      let kwargs := setdefault "service_type" (Some "baremetal") kwargs in
      let kwargs := setdefault "user_agent" (Some "python-ironicclient") kwargs in
      let endpoint_type := default None (kwargs !! "endpoint_type") in
      let kwargs := delete "endpoint_type" kwargs in
      let kwargs := setdefault "interface" endpoint_type kwargs in
      let kwargs := setdefault "endpoint_override" (arg_endpoint a) kwargs in
      let dvars := map fst (List.filter snd (ignored a)) in
      (if dvars is [] then mret ()
       else LOG WARNING
              "The following arguments are ignored when using the session to construct a client: %s");;
      adapter ← lift (Adapter_init session kwargs);
      mret (inl (SessionClient.__init__ (arg_os_ironic_api_version a)
                   (arg_api_version_select_state a) (arg_max_retries a)
                   (arg_retry_interval a) (arg_endpoint a) adapter))
  | None =>
      (if bool_decide (arg_kwargs a = ∅) then mret ()
       else LOG WARNING
              "The following arguments are being ignored when constructing the client: %s");;
      client ← lift (HTTPClient.__init__ (arg_endpoint a)
                       (HTTPClient.mkInitKwargs (arg_token a) (arg_auth_ref a)
                          (Some (arg_os_ironic_api_version a))
                          (Some (arg_api_version_select_state a))
                          (Some (arg_max_retries a)) (Some (arg_retry_interval a))
                          (arg_timeout a) (arg_ca_file a) (arg_cert_file a)
                          (arg_key_file a) (arg_insecure a)));
      mret (inr client)
  end.

End Construct.

(** ** PortgroupManager (ironicclient/v1/portgroup.py) *)

Module PortgroupManager.

Definition CREATION_ATTRIBUTES : list string :=
  ["node_uuid"; "name"; "address"; "extra"].

(** What a method of the manager may raise: the two exceptions of [exc] the
    module raises itself, [IndexError], or anything else the base class let
    through. *)
Inductive exc :=
  | InvalidAttribute
  | NotFound
  | IndexError
  | Raised (e : exn).

(** Code of the manager: it runs against the API behind the base class,
    whose state is [S]. *)
Definition Mgr (S A : Type) : Type := S -> (exc + A) * S.

#[global] Instance Mgr_mret S : MRet (Mgr S) := fun _ a s => (inr a, s).
#[global] Instance Mgr_mbind S : MBind (Mgr S) := fun _ _ k m s =>
  match m s with
  | (inr a, s') => k a s'
  | (inl e, s') => (inl e, s')
  end.

Definition throw {S A} (e : exc) : Mgr S A := fun s => (inl e, s).

(** [try: block except IndexError: handler]. *)
Definition except_IndexError {S A} (block handler : Mgr S A) : Mgr S A :=
  fun s =>
    match block s with
    | (inl IndexError, s') => handler s'
    | r => r
    end.

(** [base.Manager] and [utils.common_filters], which the module builds on. *)
Class Manager (S Resource : Type) := {
  common_filters : option string -> option Z -> option string -> option string
                   -> option (list string) -> list string;
  _list : string -> option string -> Mgr S (list Resource);
  _list_pagination : string -> string -> Z -> Mgr S (list Resource);
  _create : string -> gmap string json -> Mgr S (option Resource);
  _delete : string -> Mgr S ();
  _update : string -> json -> Mgr S (option Resource)
}.

Definition _path (id : option string) : string :=
  if truthy id then "/v1/portgroups/" +:+ default "" id else "/v1/portgroups".

Section WithManager.
Context {S Resource : Type} {base : Manager S Resource}.

Definition get (portgroup_id : string) (fields : option (list string))
  : Mgr S (option Resource) :=
  let portgroup_id :=
    match fields with
    | Some fields => (portgroup_id +:+ "?fields=") +:+ String.concat "," fields
    | None => portgroup_id
    end in
  except_IndexError
    (portgroups ← _list (_path (Some portgroup_id)) None;
     match portgroups with
     | first :: _ => mret (Some first)
     | [] => throw IndexError
     end)
    (mret None).

Definition get_by_address (address : string) (fields : option (list string))
  : Mgr S Resource :=
  let path := "?address=" +:+ address in
  let path :=
    match fields with
    | Some fields => path +:+ ("&fields=" +:+ String.concat "," fields)
    | None => "detail" +:+ path
    end in
  portgroups ← _list (_path (Some path)) (Some "portgroups");
  (* get all the details of the port group assuming that filtering by
     address returns a collection of one portgroup if successful. *)
  match portgroups with
  | [portgroup] => mret portgroup
  | _ => throw NotFound
  end.

(** The [for (key, value) in kwargs.items()] loop of [create], over the
    items that are left. *)
Fixpoint create_loop (items : list (string * json)) (new : gmap string json)
  : exc + gmap string json :=
  match items with
  | [] => inr new
  | (key, value) :: rest =>
      if bool_decide (key ∈ CREATION_ATTRIBUTES)
      then create_loop rest (<[key := value]> new)
      else inl InvalidAttribute
  end.

(** [kwargs] is given as its items, in the order the loop meets them. *)
Definition create (kwargs : list (string * json)) : Mgr S (option Resource) :=
  match create_loop kwargs ∅ with
  | inl e => throw e
  | inr new => _create (_path None) new
  end.

Definition delete (portgroup_id : string) : Mgr S () :=
  _delete (_path (Some portgroup_id)).

Definition update (portgroup_id : string) (patch : json) : Mgr S (option Resource) :=
  _update (_path (Some portgroup_id)) patch.

(** Retrieve a list of port groups.  [limit] is the integer [int(limit)]
    gives; [fields] counts as given when it is a list that is not empty. *)
Definition list (node address : option string) (limit : option Z)
    (marker sort_key sort_dir : option string) (detail : bool)
    (fields : option (list string)) : Mgr S (list Resource) :=
  if detail && (if fields is Some (_ :: _) then true else false) then
    throw InvalidAttribute
  else
    let filters := common_filters marker limit sort_key sort_dir fields in
    let filters :=
      match address with
      | Some address => filters ++ ["address=" +:+ address]
      | None => filters
      end in
    let path := "" in
    let path := if detail then path +:+ "detail" else path in
    let path :=
      match filters with
      | [] => path
      | _ => path +:+ ("?" +:+ String.concat "&" filters)
      end in
    match limit with
    | None => _list (_path (Some path)) (Some "portgroups")
    | Some limit => _list_pagination (_path (Some path)) "portgroups" limit
    end.

End WithManager.

End PortgroupManager.

(** ** Stand-ins for the libraries, for the concrete runs below *)

Module Fixtures.

(** The part of [s] before the first character that satisfies [p], and the
    rest from that character on. *)
Fixpoint break (p : ascii -> bool) (s : string) : string * string :=
  match s with
  | EmptyString => (EmptyString, EmptyString)
  | String c r =>
      if p c then (EmptyString, s)
      else let '(a, b) := break p r in (String c a, b)
  end.

(** [urlparse] on URLs of the shape [scheme://host[:port][/path]]; anything
    else is a bare path, as the library has it. *)
Definition simple_urlparse (url : string) : UrlParts :=
  let '(sch, rest) := break (Ascii.eqb ":") url in
  match rest with
  | String ":" (String "/" (String "/" r)) =>
      let '(netloc, path) := break (Ascii.eqb "/") r in
      let '(host, prt) := break (Ascii.eqb ":") netloc in
      mkUrlParts (lower sch)
        (if String.eqb host "" then None else Some (lower host))
        (match prt with
         | String ":" EmptyString | EmptyString => Ok None
         | String ":" digits =>
             match StrictVersion.number digits with
             | Some (n, EmptyString) => Ok (Some (Z.of_N n))
             | _ => Raise ValueError
             end
         | _ => Ok None
         end)
        path
  | _ => mkUrlParts "" None (Ok None) url
  end.

Definition dq : string := String (ascii_of_nat 34) "".
Definition quoted (s : string) : string := dq +:+ s +:+ dq.
Definition escaped (s : string) : string := "\" +:+ dq +:+ s +:+ "\" +:+ dq.

(** [{\"faultstring\": \"boom\", \"debuginfo\": \"trace\"}], as it stands
    inside the string of the envelope. *)
Definition inner_escaped : string :=
  "{" +:+ escaped "faultstring" +:+ ": " +:+ escaped "boom" +:+ ", "
      +:+ escaped "debuginfo" +:+ ": " +:+ escaped "trace" +:+ "}".
Definition inner_doc : string :=
  "{" +:+ quoted "faultstring" +:+ ": " +:+ quoted "boom" +:+ ", "
      +:+ quoted "debuginfo" +:+ ": " +:+ quoted "trace" +:+ "}".
Definition envelope_doc : string :=
  "{" +:+ quoted "error_message" +:+ ": " +:+ quoted inner_escaped +:+ "}".

(** [json.loads] on the documents the runs use; every other string of the
    runs is not JSON. *)
Definition documents : list (string * json) :=
  [ (envelope_doc, JDict [("error_message", JStr inner_doc)]);
    (inner_doc, JDict [("faultstring", JStr "boom"); ("debuginfo", JStr "trace")]);
    ("null", JNone);
    ("5", JInt 5);
    ("{}", JDict []) ].

Definition table_json_loads (s : string) : option json :=
  snd <$> find (fun d => String.eqb (fst d) s) documents.

(** A peer that answers the n-th request with the n-th reply of a script
    and times out once the script is over. *)
Definition scripted (script : list (exn + Response)) (history : list Request)
  : exn + Response :=
  nth (length history - 1) script (inl socket_timeout).

(** [httplib.HTTPResponse] has [getheader], [getheaders] and [read], and no
    item access: subscripting it fails on the missing [__getitem__]. *)
Definition httplib_getitem (resp : Response) (name : string) : result string :=
  Raise AttributeError.

(** A response class with item access on its headers. *)
Definition header_getitem (resp : Response) (name : string) : result string :=
  match getheader resp name with
  | Some v => Ok v
  | None => Raise KeyError
  end.

Definition externals (script : list (exn + Response)) : Externals :=
  {| json_loads := table_json_loads;
     urlparse := simple_urlparse;
     resp_getitem := httplib_getitem;
     server := scripted script |}.

Definition empty_world : World := mkWorld [] [] [] ∅ ∅.

(** A client built with no keyword argument, as [HTTPClient.__init__] leaves
    it, and a session client as [_construct_http_client] sets it up. *)
Definition endpoint_url : string := "http://ironic.example.com:6385/v1".

Definition attrs : Attrs :=
  mkAttrs (Some endpoint_url) "default" (Some DEFAULT_VER)
    (Some DEFAULT_MAX_RETRIES) (Some DEFAULT_RETRY_INTERVAL).

Definition http_client : HTTPClient.t :=
  HTTPClient.mk "http://ironic.example.com:6385" None None
    (HTTPConnection, (Some "ironic.example.com", Some 6385%Z, ""),
     mkConnKwargs 600 None None None false).

Definition session_client : SessionClient.t :=
  SessionClient.mk TheSession None None (Some "baremetal") None.

Definition conn : Connection := HTTPClient.get_connection http_client.

Definition MIN_HEADER : string := "X-OpenStack-Ironic-API-Minimum-Version".
Definition MAX_HEADER : string := "X-OpenStack-Ironic-API-Maximum-Version".

Definition ok_response : Response :=
  mkResponse 200 [("Content-Type", "application/json")] "{}".
Definition not_acceptable (min_ver max_ver : string) : Response :=
  mkResponse 406 [(MIN_HEADER, min_ver); (MAX_HEADER, max_ver)] "".
Definition bare_not_acceptable : Response := mkResponse 406 [] "".
Definition version_root (min_ver max_ver : string) : Response :=
  mkResponse 200 [(MIN_HEADER, min_ver); (MAX_HEADER, max_ver)] "{}".
Definition found (location : string) : Response :=
  mkResponse 302 [("Location", location)] "".
Definition server_error : Response :=
  mkResponse 500 [("Content-Type", "application/json")] envelope_doc.
Definition plain_error : Response :=
  mkResponse 500 [("Content-Type", "text/plain")] "not json".

Definition start : State := mkState attrs empty_world.

(** The same world with one header dict in it, empty, at reference 0. *)
Definition start_with_headers : State :=
  mkState attrs (mkWorld [] [] [] ∅ {[ 0%nat := ∅ ]}).

Definition get_nodes : HTTPClient.Kwargs := HTTPClient.mkKwargs None None.
Definition post_node : HTTPClient.Kwargs := HTTPClient.mkKwargs None (Some "{}").
Definition session_post : SessionClient.Kwargs :=
  SessionClient.mkKwargs (Some 0%nat) (Some "{}") None None None.

(** An attempt against a peer that never answers: the request goes out, the
    socket times out, and the failure is reported as a refused connection. *)
Definition refused_attempt {ext : Externals} (url method : string) (kwargs : ())
  : M (option ()) :=
  try_except
    (send (SessionRequest (Some url) method None None None None None);;
     mret None)
    HTTPClient.socket_handlers.

(** 150KB of payload. *)
Definition payload_150KB : string :=
  string_of_list_ascii (repeat "x"%char (Z.to_nat (150 * 1024))).

End Fixtures.

(** ** More stand-ins, for the runs of the added statements *)

Module Scenarios.

(** [json.dumps] on the values the runs encode. *)
Definition table_json_dumps (j : json) : string :=
  match j with
  | JDict [] => "{}"
  | JNone => "null"
  | _ => ""
  end.

Definition encoder : Encoder := {| json_dumps := table_json_dumps |}.

(** An adapter that takes any keyword argument and keeps the ones the
    executor reads. *)
Definition adapter_init (session : Session) (kwargs : gmap string (option string))
  : result SessionClient.t :=
  let arg key := default None (kwargs !! key) in
  Ok (SessionClient.mk session (arg "auth") (arg "interface") (arg "service_type")
        (arg "region_name")).

Definition keystone : Keystone := {| Adapter_init := adapter_init |}.

(** A system with the second and the fourth of the CA bundles. *)
Definition redhat : FileSystem :=
  {| os_path_exists p :=
       String.eqb p "/etc/pki/tls/certs/ca-bundle.crt" || String.eqb p "/etc/ssl/cert.pem" |}.

(** A network on which every call goes through. *)
Definition reachable : VerifiedHTTPSConnection.Sockets :=
  {| VerifiedHTTPSConnection.socket_fails _ := None |}.

(** [utils.common_filters]: the limit when it is positive, then the marker,
    the sort key, the sort direction and the fields that are given. *)
Definition utils_common_filters (marker : option string) (limit : option Z)
    (sort_key sort_dir : option string) (fields : option (list string)) : list string :=
  (match limit with
   | Some n => if (0 <? n)%Z then ["limit=" +:+ str_of_Z n] else []
   | None => []
   end)
  ++ (if marker is Some m then ["marker=" +:+ m] else [])
  ++ (if sort_key is Some k then ["sort_key=" +:+ k] else [])
  ++ (if sort_dir is Some d then ["sort_dir=" +:+ d] else [])
  ++ (if fields is Some f then ["fields=" +:+ String.concat "," f] else []).

(** A base manager that records the request each call stands for and
    answers with the port groups of a fixed collection. *)
Definition recording (collection : list string)
  : PortgroupManager.Manager (list string) string :=
  {| PortgroupManager.common_filters := utils_common_filters;
     PortgroupManager._list url _ s := (inr collection, s ++ ["GET " +:+ url]);
     PortgroupManager._list_pagination url _ _ s := (inr collection, s ++ ["GET " +:+ url]);
     PortgroupManager._create url _ s := (inr (Some "created"), s ++ ["POST " +:+ url]);
     PortgroupManager._delete url s := (inr (), s ++ ["DELETE " +:+ url]);
     PortgroupManager._update url _ s := (inr (Some "updated"), s ++ ["PATCH " +:+ url]) |}.

(** A 406 that gives the range 1.1 to 1.6, under the default version. *)
Definition too_new : Response := Fixtures.not_acceptable "1.1" "1.6".

Definition binary : Response :=
  mkResponse 200 [("Content-Type", "application/octet-stream")] "binary".

Definition not_json : Response :=
  mkResponse 200 [("Content-Type", "application/json")] "<html>".

Definition multiple_choices : Response := mkResponse 300 [] "".

End Scenarios.


(** * Vocabulary of the statements *)

(** The state a computation ends in, and what it returns or raises. *)
Definition exec {A} (m : M A) (st : State) : State := snd (m st).
Definition outcome {A} (m : M A) (st : State) : result A := fst (m st).

(** ** Retries *)

(** The attributes once the wrapper has filled in the defaults. *)
Definition retry_defaults (a : Attrs) : Attrs :=
  mkAttrs (endpoint a) (api_version_select_state a) (os_ironic_api_version a)
    (Some (default DEFAULT_MAX_RETRIES (conflict_max_retries a)))
    (Some (default DEFAULT_RETRY_INTERVAL (conflict_retry_interval a))).

(** One failed attempt that is retried: the attempt, the warning, the sleep
    of [T] seconds. *)
Definition failed_round {A} (attempt : M A) (T : Z) (st : State) : State :=
  exec (LOG WARNING "Error contacting Ironic server";; time_sleep (Some T))
       (exec attempt st).

(** The attempt raises one of the retried kinds, whatever the state. *)
Definition always_fails {A} (attempt : M A) : Prop :=
  forall st, exists e, outcome attempt st = Raise e /\ is_retry_exception e = true.

(** The attempt leaves the retry interval of the instance alone. *)
Definition keeps_interval {A} (attempt : M A) : Prop :=
  forall st, conflict_retry_interval (self (exec attempt st))
             = conflict_retry_interval (self st).

(** ** The body stream *)

(** What a complete iteration over [data] yields. *)
Record yields (data : string) (chunks : list string) : Prop := {
  yields_join : join chunks = data;
  yields_nonempty : Forall (fun c => c <> "") chunks;
  yields_at : forall (i : nat) c, chunks !! i = Some c ->
      c = str_take (Z.to_nat CHUNKSIZE) (str_drop (i * Z.to_nat CHUNKSIZE) data);
  yields_count :
    (Z.of_nat (String.length data) <= Z.of_nat (length chunks) * CHUNKSIZE)%Z
    /\ (chunks = []
        \/ ((Z.of_nat (length chunks) - 1) * CHUNKSIZE < Z.of_nat (String.length data))%Z)
}.

(** ** Negotiation *)

(** The path of the supplementary request: the major version of the stored
    version when there is one, the default API root otherwise. *)
Definition base_version (ver : option string) : string :=
  if truthy ver then "/v" +:+ split_head "." (default "" ver) else API_VERSION.

(** The version the code settles on, from the stored version and the range. *)
Definition negotiated (req min_ver max_ver : option string) : result string :=
  a ← StrictVersion.init req;
  b ← StrictVersion.init max_ver;
  m ← StrictVersion.min a b;
  let negotiated_ver := StrictVersion.str m in
  Ok (match min_ver with
      | Some min_ver =>
          if py_str_lt negotiated_ver (Some min_ver) then min_ver else negotiated_ver
      | None => negotiated_ver
      end).

(** The version the specification asks for: the smaller of the requested and
    the maximum version, raised to the minimum version if it is below it,
    every comparison being one of version numbers. *)
Definition negotiated_spec (requested min_version max_version : string)
  : option string :=
  r ← StrictVersion.parse requested;
  lo ← StrictVersion.parse min_version;
  hi ← StrictVersion.parse max_version;
  let m := if StrictVersion.lt hi r then hi else r in
  Some (StrictVersion.str (if StrictVersion.lt m lo then lo else m)).

(** What [negotiate_version] does once the version range is known. *)
Definition conclude_negotiation {ext : Externals} (min_ver max_ver : option string)
  : M string :=
  state ← gets api_version_select_state;
  req ← gets os_ironic_api_version;
  if String.eqb state "user" || String.eqb state "negotiated" then
    raise (UnsupportedVersion req min_ver max_ver)
  else
    negotiated_ver ← lift (negotiated req min_ver max_ver);
    assign (set_api_version_select_state "negotiated");;
    assign (set_os_ironic_api_version (Some negotiated_ver));;
    LOG DEBUG "Negotiated API version";;
    endpoint ← gets endpoint;
    '(host, port) ← lift (get_server endpoint);
    save_data host port negotiated_ver;;
    mret negotiated_ver.

(** The simple request of a class is the sending of one request. *)
Definition sends_probe {ext : Externals} {Conn} (cls : VersionNegotiationMixin Conn)
    (probe : Conn -> string -> string -> Request) : Prop :=
  forall conn method url,
    _make_simple_request cls conn method url = send (probe conn method url).

Definition HTTPClient_probe (client : HTTPClient.t) (conn : Connection)
    (method url : string) : Request :=
  ConnRequest conn method (HTTPClient._make_connection_url client url) None ∅.

Definition SessionClient_probe (conn : Session) (method url : string) : Request :=
  SessionRequest (Some url) method None None None None None.

(** The state in which the answer to the supplementary request arrives. *)
Definition probed {ext : Externals} (rq : Request) (st : State) : State :=
  exec (send rq)
    (exec (LOG DEBUG "No version header in response, requesting from server") st).

(** ** Endpoints *)

(** What the docstring of [_trim_endpoint_api_version] describes: the
    trailing slashes go, then one trailing [/v1] segment. *)
Definition ends_with (suffix s : string) : bool :=
  String.eqb (str_drop (String.length s - String.length suffix) s) suffix.

Definition trim_spec (url : string) : string :=
  let u := rstrip "/" url in
  if ends_with API_VERSION u
  then str_take (String.length u - String.length API_VERSION) u
  else u.

(** ** Requests of an attempt *)

(** A computation only ever adds to the record of what was sent. *)
Definition appends {A} (m : M A) : Prop :=
  forall st, sent (world st) `prefix_of` sent (world (exec m st)).

Definition VERSION_HEADER : string := "X-OpenStack-Ironic-API-Version".

(** The version header a request ends up with: the caller's if there is one,
    else the stored version if it is not empty. *)
Definition version_header_sent (ver : option string) (h0 : gmap string string)
  : option string :=
  match h0 !! VERSION_HEADER with
  | Some v => Some v
  | None => if truthy ver then ver else None
  end.

(** The headers an attempt of [HTTPClient._http_request] puts on the wire,
    from the stored version and the headers the caller passed. *)
Definition HTTPClient_attempt_headers (client : HTTPClient.t) (ver : option string)
    (h0 : option (gmap string string)) : gmap string string :=
  let h := setdefault "User-Agent" USER_AGENT (default ∅ h0) in
  let h := if truthy ver then setdefault VERSION_HEADER (default "" ver) h else h in
  if truthy (HTTPClient.auth_token client)
  then setdefault "X-Auth-Token" (default "" (HTTPClient.auth_token client)) h
  else h.

Definition HTTPClient_attempt_request (client : HTTPClient.t)
    (ver : option string) (url method : string) (kwargs : HTTPClient.Kwargs) : Request :=
  ConnRequest (HTTPClient.get_connection client) method
    (HTTPClient._make_connection_url client url) (HTTPClient.body kwargs)
    (HTTPClient_attempt_headers client ver (HTTPClient.headers kwargs)).

(** The state an attempt is in once it has the response and has read and
    logged it. *)
Definition HTTPClient_responded {ext : Externals} (client : HTTPClient.t)
    (url method : string) (kwargs : HTTPClient.Kwargs) (st : State) : State :=
  exec (LOG DEBUG "response")
    (exec (send (HTTPClient_attempt_request client
                   (os_ironic_api_version (self st)) url method kwargs))
       (exec (LOG DEBUG "curl") st)).

(** The response as the attempt leaves it: read to the end unless it is
    declared as binary data. *)
Definition HTTPClient_read (resp : Response) : Response :=
  if bool_decide (getheader resp "content-type" = Some "application/octet-stream")
  then resp
  else mkResponse (status resp) (resp_headers resp) "".

(** The request an attempt of [SessionClient._http_request] sends: the
    keyword arguments with the defaults filled in, and the shared header dict
    as it is once the stored version has been put in by default. *)
Definition SessionClient_attempt_kwargs (client : SessionClient.t)
    (kwargs : SessionClient.Kwargs) : SessionClient.Kwargs :=
  SessionClient.mkKwargs (SessionClient.headers kwargs) (SessionClient.data kwargs)
    (Some (default USER_AGENT (SessionClient.user_agent kwargs)))
    (match SessionClient.kw_auth kwargs with
     | Some a => Some a
     | None => SessionClient.auth client
     end)
    (Some (setdefault "region_name" (SessionClient.region_name client)
             (setdefault "service_type" (SessionClient.service_type client)
                (setdefault "interface" (SessionClient.interface client)
                   (default ∅ (SessionClient.endpoint_filter kwargs)))))).

Definition SessionClient_attempt_headers (kwargs : SessionClient.Kwargs) (st : State)
  : option (gmap string string) :=
  match SessionClient.headers kwargs with
  | Some l =>
      let d := default ∅ (heap (world st) !! l) in
      let ver := os_ironic_api_version (self st) in
      Some (if truthy ver then setdefault VERSION_HEADER (default "" ver) d else d)
  | None => None
  end.

Definition SessionClient_attempt_request (client : SessionClient.t)
    (url : option string) (method : string) (kwargs : SessionClient.Kwargs)
    (st : State) : Request :=
  let kw := SessionClient_attempt_kwargs client kwargs in
  SessionRequest url method (SessionClient_attempt_headers kwargs st)
    (SessionClient.data kw) (SessionClient.user_agent kw) (SessionClient.kw_auth kw)
    (SessionClient.endpoint_filter kw).

(** The state in which the request is sent: the header dict updated. *)
Definition SessionClient_prepared (kwargs : SessionClient.Kwargs) (st : State) : State :=
  match SessionClient.headers kwargs, SessionClient_attempt_headers kwargs st with
  | Some l, Some d =>
      if truthy (os_ironic_api_version (self st)) then exec (heap_put l d) st else st
  | _, _ => st
  end.

(** There is a header dict to put the stored version in. *)
Definition headers_passed (kwargs : SessionClient.Kwargs) (st : State) : Prop :=
  truthy (os_ironic_api_version (self st)) = true -> is_Some (SessionClient.headers kwargs).

(** ** Requests without the version header *)

(** The request carries no version header. *)
Definition without_version_header (rq : Request) : Prop :=
  request_headers rq !! VERSION_HEADER = None.

(** The instance stores no version, and the header dict at [l], when there
    is one, has no version header. *)
Definition unversioned (l : option loc) (st : State) : Prop :=
  truthy (os_ironic_api_version (self st)) = false
  /\ forall l', l = Some l' ->
       default ∅ (heap (world st) !! l') !! VERSION_HEADER = None.

(** From such a state the computation ends in such a state, every request
    it adds to the record is without the version header, and what it returns
    satisfies [Q]. *)
Definition stays_unversioned (l : option loc) {A} (m : M A) (Q : A -> Prop) : Prop :=
  forall st, unversioned l st ->
    unversioned l (exec m st)
    /\ (exists more, sent (world (exec m st)) = sent (world st) ++ more
                     /\ Forall without_version_header more)
    /\ forall a, outcome m st = Ok a -> Q a.

(** ** Error payloads *)

(** The fault string and the debug info of a body the executors decode
    without trouble: a body that is not JSON, or a JSON object, list or string
    with no [error_message] in it, carries neither; an envelope whose
    [error_message] is the text of a JSON object carries that object's; an
    [error_message] string that is not JSON carries neither.  [None] for any
    other body. *)
Definition error_fields {ext : Externals} (body : string)
  : option (option json * option json) :=
  match json_loads body with
  | None => Some (None, None)
  | Some (JDict items) =>
      match dict_get "error_message" items with
      | None => Some (None, None)
      | Some (JStr raw) =>
          match json_loads raw with
          | None => Some (None, None)
          | Some (JDict inner) =>
              Some (or_None (dict_get "faultstring" inner),
                    or_None (dict_get "debuginfo" inner))
          | Some _ => None
          end
      | Some _ => None
      end
  | Some (JList l) =>
      if existsb (is_JStr "error_message") l then None else Some (None, None)
  | Some (JStr s) =>
      if is_infix "error_message" s then None else Some (None, None)
  | Some _ => None
  end.


(** ** Characters of a string *)

(** The last character of a string. *)
Fixpoint str_last (s : string) : option ascii :=
  match s with
  | EmptyString => None
  | String c EmptyString => Some c
  | String _ r => str_last r
  end.

(** Every character of [s] is one of [chars]. *)
Definition all_in_chars (chars s : string) : bool :=
  forallb (fun c => in_chars c chars) (list_ascii_of_string s).

(** The first character of a string. *)
Definition str_first (s : string) : option ascii :=
  match s with
  | EmptyString => None
  | String c _ => Some c
  end.

(** ** Attempts of a retried call *)

(** An outcome the retry wrapper hands back as it is: a value, or an
    exception that is not one of the retried kinds. *)
Definition settled {A} (r : result A) : Prop :=
  match r with
  | Raise e => is_retry_exception e = false
  | _ => True
  end.

(** The attempt raises one of the retried kinds from this state. *)
Definition fails_at {A} (attempt : M A) (st : State) : Prop :=
  exists e, outcome attempt st = Raise e /\ is_retry_exception e = true.

(** ** One attempt of HTTPClient *)

(** What the handlers around the request make of an exception. *)
Definition reclassified (e : exn) : exn :=
  match e with
  | socket_gaierror => EndpointNotFound
  | socket_error | socket_timeout => ConnectionRefused
  | e => e
  end.

(** A computation run under those handlers. *)
Definition under_socket_handlers {A} (r : result A * State) : result A * State :=
  match r with
  | (Raise e, st) => (Raise (reclassified e), st)
  | r => r
  end.

(** A status the executors hand back to the caller. *)
Definition passes (s : Z) : Prop :=
  s <> 406%Z /\ ((400 <= s)%Z -> (s < 600)%Z -> False)
  /\ (s ∉ [301; 302; 305]%Z) /\ s <> 300%Z.

(** The body as [HTTPClient] hands it over. *)
Definition HTTPClient_body (resp : Response) : BodyIter :=
  if bool_decide (getheader resp "content-type" = Some "application/octet-stream")
  then BodyIterator resp
  else StringIO (payload resp).

(** The keyword arguments of the replay after a negotiation. *)
Definition HTTPClient_replay_kwargs (client : HTTPClient.t) (ver : option string)
    (negotiated_ver : string) (kwargs : HTTPClient.Kwargs) : HTTPClient.Kwargs :=
  HTTPClient.mkKwargs
    (Some (<[VERSION_HEADER := negotiated_ver]>
             (HTTPClient_attempt_headers client ver (HTTPClient.headers kwargs))))
    (HTTPClient.body kwargs).

(** The state in which the answer to the request of an attempt arrives. *)
Definition HTTPClient_sent {ext : Externals} (client : HTTPClient.t)
    (url method : string) (kwargs : HTTPClient.Kwargs) (st : State) : State :=
  exec (send (HTTPClient_attempt_request client
                (os_ironic_api_version (self st)) url method kwargs))
    (exec (LOG DEBUG "curl") st).

(** ** A negotiation that settles *)

(** The state a negotiation that settles on [v] leaves. *)
Definition negotiated_state (v : string) (host port : option string) (st : State)
  : State :=
  exec (save_data host port v)
    (exec (LOG DEBUG "Negotiated API version")
       (mkState (set_os_ironic_api_version (Some v)
                   (set_api_version_select_state "negotiated" (self st)))
          (world st))).

(** The select state allows a negotiation. *)
Definition may_negotiate (st : State) : Prop :=
  api_version_select_state (self st) = "default"
  \/ api_version_select_state (self st) = "cached".

(** A request with one of its headers set to a value. *)
Definition with_header (name value : string) (rq : Request) : Request :=
  match rq with
  | ConnRequest conn method url body h =>
      ConnRequest conn method url body (<[name := value]> h)
  | SessionRequest url method h data user_agent auth endpoint_filter =>
      SessionRequest url method (Some (<[name := value]> (default ∅ h)))
        data user_agent auth endpoint_filter
  end.

(** ** One attempt of SessionClient *)

(** The state in which the answer to the request of an attempt of
    [SessionClient] arrives. *)
Definition SessionClient_sent {ext : Externals} (client : SessionClient.t)
    (url : option string) (method : string) (kwargs : SessionClient.Kwargs)
    (st : State) : State :=
  exec (send (SessionClient_attempt_request client url method kwargs st))
    (SessionClient_prepared kwargs st).

(** The state in which [SessionClient] replays a request after a negotiation
    that settled on [v]: the negotiation is recorded, and the header dict at
    [l] holds [v]. *)
Definition SessionClient_renegotiated {ext : Externals} (client : SessionClient.t)
    (url : option string) (method : string) (kwargs : SessionClient.Kwargs)
    (v : string) (host port : option string) (l : loc) (st : State) : State :=
  let st2 := negotiated_state v host port (SessionClient_sent client url method kwargs st) in
  exec (heap_put l (<[VERSION_HEADER := v]> (default ∅ (heap (world st2) !! l)))) st2.

(** ** Decoded answers *)

(** The answer is one [json_request] reports as empty: no content, reset
    content, or no content type. *)
Definition no_content (resp : Response) : bool :=
  (status resp =? 204)%Z || (status resp =? 205)%Z
  || bool_decide (getheader resp "content-type" = None).

(** The answer is declared as JSON. *)
Definition declared_json (resp : Response) : bool :=
  is_infix "application/json" (default "" (getheader resp "content-type")).

(** The body [json_request] returns for an answer: the empty list, the
    decoded document, the text itself when it does not decode, or [None]. *)
Definition decoded_body {ext : Externals} (resp : Response) : json :=
  if no_content resp then JList []
  else if declared_json resp then
    match json_loads (payload resp) with
    | Some j => j
    | None => JStr (payload resp)
    end
  else JNone.

(** The answer is declared as JSON and its text does not decode. *)
Definition undecodable {ext : Externals} (resp : Response) : bool :=
  negb (no_content resp) && declared_json resp
  && (if json_loads (payload resp) is None then true else false).

(** The headers [json_request] passes on. *)
Definition json_headers_passed (h0 : option (gmap string string)) : gmap string string :=
  setdefault "Accept" "application/json"
    (setdefault "Content-Type" "application/json" (default ∅ h0)).

(** ** Header dicts of SessionClient *)

(** The header dict a call of [json_request] or [raw_request] of
    [SessionClient] works on: the one that was passed, or a new one. *)
Definition header_dict (kw : SessionClient.Kwargs) (st : State) : loc :=
  match SessionClient.headers kw with
  | Some l => l
  | None => fresh (dom (heap (world st)))
  end.

(** What that dict holds when the call starts. *)
Definition header_dict_before (kw : SessionClient.Kwargs) (st : State)
  : gmap string string :=
  match SessionClient.headers kw with
  | Some l => default ∅ (heap (world st) !! l)
  | None => ∅
  end.

(** The state with the dict at [l] set to [d]. *)
Definition with_headers (l : loc) (d : gmap string string) (st : State) : State :=
  exec (heap_put l d) st.

(** The keyword arguments [json_request] of [SessionClient] passes on. *)
Definition SessionClient_json_kwargs {enc : Encoder} (kwargs : SessionClient.JsonKwargs)
    (l : loc) : SessionClient.Kwargs :=
  let kw := SessionClient.json_rest kwargs in
  SessionClient.mkKwargs (Some l)
    (match SessionClient.json_body kwargs with
     | Some body => Some (json_dumps body)
     | None => SessionClient.data kw
     end)
    (SessionClient.user_agent kw) (SessionClient.kw_auth kw)
    (SessionClient.endpoint_filter kw).

(** ** Arguments of _construct_http_client *)

(** One of the arguments that only the raw connection takes is set. *)
Definition raw_options_given (a : ConstructArgs) : bool :=
  truthy (arg_token a) || truthy (arg_auth_ref a)
  || negb (bool_decide (arg_timeout a = Some 600%Z))
  || truthy (arg_ca_file a) || truthy (arg_cert_file a) || truthy (arg_key_file a)
  || default false (arg_insecure a).

(** Two calls that differ at most in those arguments. *)
Definition same_but_raw_options (a b : ConstructArgs) : Prop :=
  arg_endpoint a = arg_endpoint b
  /\ arg_session a = arg_session b
  /\ arg_os_ironic_api_version a = arg_os_ironic_api_version b
  /\ arg_api_version_select_state a = arg_api_version_select_state b
  /\ arg_max_retries a = arg_max_retries b
  /\ arg_retry_interval a = arg_retry_interval b
  /\ arg_kwargs a = arg_kwargs b.

(** Two calls that differ at most in the keyword arguments the signature
    does not name. *)
Definition same_but_kwargs (a b : ConstructArgs) : Prop :=
  mkConstructArgs (arg_endpoint a) (arg_session a) (arg_token a) (arg_auth_ref a)
    (arg_os_ironic_api_version a) (arg_api_version_select_state a)
    (arg_max_retries a) (arg_retry_interval a) (arg_timeout a) (arg_ca_file a)
    (arg_cert_file a) (arg_key_file a) (arg_insecure a) ∅
  = mkConstructArgs (arg_endpoint b) (arg_session b) (arg_token b) (arg_auth_ref b)
      (arg_os_ironic_api_version b) (arg_api_version_select_state b)
      (arg_max_retries b) (arg_retry_interval b) (arg_timeout b) (arg_ca_file b)
      (arg_cert_file b) (arg_key_file b) (arg_insecure b) ∅.

(** ** Port groups *)

(** The dict a sequence of item assignments builds, later items winning. *)
Definition assigned (items : list (string * json)) (new : gmap string json)
  : gmap string json :=
  foldl (fun m kv => <[kv.1 := kv.2]> m) new items.

(** The query [get] appends to the id when fields are asked for. *)
Definition fields_query (fields : option (list string)) : string :=
  match fields with
  | Some fields => "?fields=" +:+ String.concat "," fields
  | None => ""
  end.

(** The filters [list] sends: those of [common_filters], then the address. *)
Definition list_filters {S Resource} {base : PortgroupManager.Manager S Resource}
    (address : option string) (limit : option Z) (marker sort_key sort_dir : option string)
    (fields : option (list string)) : list string :=
  PortgroupManager.common_filters marker limit sort_key sort_dir fields
  ++ match address with
     | Some address => ["address=" +:+ address]
     | None => []
     end.


(** * The library models on small inputs *)

Example StrictVersion_parse_1_31 :
  StrictVersion.parse "1.31" = Some (StrictVersion.mk (1, 31, 0)%N None).
Proof. reflexivity. Qed.

Example StrictVersion_str_normalises :
  StrictVersion.str <$> StrictVersion.parse "01.09.0b2" = Some "1.9b2".
Proof. vm_compute. reflexivity. Qed.

Example StrictVersion_rejects :
  StrictVersion.parse "1." = None /\ StrictVersion.parse "1.2.a1" = None
  /\ StrictVersion.parse "v1" = None.
Proof. repeat split. Qed.

Example StrictVersion_orders_numbers :
  (a ← StrictVersion.parse "1.9"; b ← StrictVersion.parse "1.10";
   Some (StrictVersion.lt a b)) = Some true
  /\ String.ltb "1.9" "1.10" = false.
Proof. vm_compute. repeat split. Qed.

Example trim_usual_endpoint :
  _trim_endpoint_api_version "http://127.0.0.1:6385/v1/" = "http://127.0.0.1:6385"
  /\ _trim_endpoint_api_version "/ironic/v1" = "/ironic".
Proof. repeat split. Qed.

Example lstrip_slashes : lstrip "/" "//a/b" = "a/b".
Proof. reflexivity. Qed.

Example simple_urlparse_endpoint :
  Fixtures.simple_urlparse "http://Ironic.example.com:6385/v1"
  = mkUrlParts "http" (Some "ironic.example.com") (Ok (Some 6385%Z)) "/v1".
Proof. reflexivity. Qed.

(** The three version triples the specification lists come out as it says. *)
Example negotiated_on_the_listed_triples :
  negotiated (Some "1.9") (Some "1.1") (Some "1.31") = Ok "1.9"
  /\ negotiated (Some "1.40") (Some "1.1") (Some "1.31") = Ok "1.31"
  /\ negotiated (Some "1.0") (Some "1.6") (Some "1.31") = Ok "1.6".
Proof. vm_compute. repeat split. Qed.

(** * Facts about the monad *)

Ltac mrun :=
  unfold exec, outcome, mbind, M_mbind, mret, M_mret, LOG, time_sleep, save_data,
    heap_get, heap_put, effect, gets, assign, raise, lift;
  cbn [fst snd self world sent slept logged filecache heap].

Section MonadFacts.
Context {ext : Externals}.

Lemma run_eta {A} (m : M A) st : m st = (outcome m st, exec m st).
Proof. unfold outcome, exec. by destruct (m st). Qed.

Lemma bind_run {A B} (m : M A) (k : A -> M B) st :
  (m ≫= k) st =
    match m st with
    | (Ok a, st') => k a st'
    | (Raise e, st') => (Raise e, st')
    | (OutOfFuel, st') => (OutOfFuel, st')
    end.
Proof. reflexivity. Qed.

Lemma bind_Ok {A B} (m : M A) (k : A -> M B) st a st' :
  m st = (Ok a, st') -> (m ≫= k) st = k a st'.
Proof. rewrite bind_run. by intros ->. Qed.

Lemma bind_mret_r {A} (m : M A) st : (m ≫= mret) st = m st.
Proof. rewrite bind_run. by destruct (m st) as [[a|e|] st']. Qed.

Lemma bind_gets {A B} (f : Attrs -> A) (k : A -> M B) st :
  (gets f ≫= k) st = k (f (self st)) st.
Proof. reflexivity. Qed.

Lemma bind_LOG {B} level msg (k : () -> M B) st :
  (LOG level msg ≫= k) st = k () (exec (LOG level msg) st).
Proof. reflexivity. Qed.

Lemma sent_LOG level msg st :
  sent (world (exec (LOG level msg) st)) = sent (world st).
Proof. reflexivity. Qed.

Lemma try_except_Ok {A} (block : M A) handler st a st' :
  block st = (Ok a, st') -> try_except block handler st = (Ok a, st').
Proof. unfold try_except. by intros ->. Qed.

Lemma send_eq rq st :
  send rq st =
    (match server (sent (world st) ++ [rq]) with
     | inl e => Raise e
     | inr resp => Ok resp
     end,
     exec (send rq) st).
Proof. unfold exec, send. by destruct (server _). Qed.

Lemma exec_send rq st :
  exec (send rq) st
  = mkState (self st) (mkWorld (sent (world st) ++ [rq]) (slept (world st))
                         (logged (world st)) (filecache (world st)) (heap (world st))).
Proof. unfold exec, send. by destruct (server _). Qed.

Lemma send_Ok rq st resp :
  server (sent (world st) ++ [rq]) = inr resp ->
  send rq st = (Ok resp, exec (send rq) st).
Proof. intros Hsrv. by rewrite send_eq, Hsrv. Qed.

End MonadFacts.

(** * Strings: taking and dropping *)

Section StringFacts.

Implicit Types (s : string) (n : nat).

Lemma str_take_drop n s : str_take n s +:+ str_drop n s = s.
Proof.
  revert s; induction n as [|n IH]; intros [|c r]; try reflexivity.
  exact (f_equal (String c) (IH r)).
Qed.

Lemma length_str_take n s : String.length (str_take n s) = Nat.min n (String.length s).
Proof.
  revert s; induction n as [|n IH]; intros [|c r]; simpl; try reflexivity.
  by rewrite IH.
Qed.

Lemma length_str_drop n s : String.length (str_drop n s) = (String.length s - n)%nat.
Proof.
  revert s; induction n as [|n IH]; intros [|c r]; simpl; try reflexivity.
  by rewrite IH.
Qed.

Lemma str_drop_drop n m s : str_drop n (str_drop m s) = str_drop (m + n) s.
Proof.
  revert s; induction m as [|m IH]; intros s; simpl; first done.
  destruct s as [|c r]; simpl; last by apply IH.
  by destruct n.
Qed.

Lemma eqb_empty_length s : String.eqb s "" = (String.length s =? 0)%nat.
Proof. by destruct s. Qed.

End StringFacts.

(** * The response body iterator *)

Section BodyStream.

Local Open Scope Z_scope.

Lemma CHUNKSIZE_value : CHUNKSIZE = 65536.
Proof. reflexivity. Qed.

#[local] Opaque CHUNKSIZE.

Lemma read_chunk resp :
  read CHUNKSIZE resp =
    (str_take (Z.to_nat CHUNKSIZE) (payload resp),
     mkResponse (status resp) (resp_headers resp)
       (str_drop (Z.to_nat CHUNKSIZE) (payload resp))).
Proof. reflexivity. Qed.

Lemma next_data resp :
  payload resp <> "" ->
  ResponseBodyIterator.next resp =
    (Some (str_take (Z.to_nat CHUNKSIZE) (payload resp)),
     mkResponse (status resp) (resp_headers resp)
       (str_drop (Z.to_nat CHUNKSIZE) (payload resp))).
Proof.
  intros Hne. unfold ResponseBodyIterator.next. rewrite read_chunk.
  rewrite eqb_empty_length, length_str_take.
  destruct (payload resp) as [|c r] eqn:E; first done.
  replace (Nat.min _ _ =? 0)%nat with false; first done.
  symmetry. apply Nat.eqb_neq. rewrite CHUNKSIZE_value. cbn [String.length]. lia.
Qed.

Lemma next_stop resp :
  payload resp = "" ->
  ResponseBodyIterator.next resp =
    (None, mkResponse (status resp) (resp_headers resp) "").
Proof.
  intros E. unfold ResponseBodyIterator.next. rewrite read_chunk, E.
  by destruct (Z.to_nat CHUNKSIZE).
Qed.

Lemma iter_S fuel resp :
  ResponseBodyIterator.iter (S fuel) resp =
    match ResponseBodyIterator.next resp with
    | (Some chunk, resp') =>
        '(chunks, resp'') ← ResponseBodyIterator.iter fuel resp';
        Some (chunk :: chunks, resp'')
    | (None, resp') => Some ([], resp')
    end.
Proof. reflexivity. Qed.

(** With one unit of fuel more than there are bytes the iteration runs to
    its end; induction on the fuel, the payload shrinking at each read. *)
Lemma iter_yields fuel : forall resp,
  (String.length (payload resp) < fuel)%nat ->
  exists chunks,
    ResponseBodyIterator.iter fuel resp
      = Some (chunks, mkResponse (status resp) (resp_headers resp) "")
    /\ yields (payload resp) chunks.
Proof.
  induction fuel as [|fuel IH]; intros resp Hlen; first lia.
  rewrite iter_S. destruct (String.eqb_spec (payload resp) "") as [E|Hne].
  - rewrite next_stop by done. exists []. split; first done.
    rewrite E. constructor.
    + reflexivity.
    + constructor.
    + intros i c Hi. by rewrite lookup_nil in Hi.
    + split; [cbn; lia | by left].
  - rewrite next_data by done.
    pose proof CHUNKSIZE_value as Hch.
    assert (Hpos : (0 < String.length (payload resp))%nat).
    { destruct (payload resp); [done | cbn [String.length]; lia]. }
    destruct (IH (mkResponse (status resp) (resp_headers resp)
                    (str_drop (Z.to_nat CHUNKSIZE) (payload resp))))
      as (chunks & -> & Hy).
    { cbn [payload]. rewrite length_str_drop. lia. }
    cbn [payload status resp_headers mbind option_bind] in *.
    eexists. split; first done.
    destruct Hy as [Hj Hn Hat Hc]. split.
    + unfold join in *. cbn [fold_right]. rewrite Hj. apply str_take_drop.
    + apply Forall_cons. split; last exact Hn. intros E.
      apply (f_equal String.length) in E. rewrite length_str_take in E.
      cbn [String.length] in E. lia.
    + intros [|i] c Hi; cbn [lookup list_lookup] in Hi.
      * injection Hi as <-. rewrite Nat.mul_0_l. reflexivity.
      * rewrite (Hat i c Hi), str_drop_drop. reflexivity.
    + rewrite length_str_drop in Hc. rewrite CHUNKSIZE_value in *.
      cbn [length]. split; first lia. right.
      destruct Hc as [_ [-> | Hc]]; cbn [length]; lia.
Qed.

Lemma yields_150KB data chunks :
  yields data chunks ->
  Z.of_nat (String.length data) = 150 * 1024 ->
  map (fun c => Z.of_nat (String.length c)) chunks = [64 * 1024; 64 * 1024; 22 * 1024].
Proof.
  intros [Hj Hn Hat [Hle Hgt]] Hlen.
  pose proof CHUNKSIZE_value as HC.
  assert (Hthree : length chunks = 3%nat).
  { destruct Hgt as [-> | Hgt]; cbn [length] in *; lia. }
  destruct chunks as [|c0 [|c1 [|c2 [|c3 cs]]]]; try discriminate Hthree.
  pose proof (Hat 0%nat c0 eq_refl) as H0.
  pose proof (Hat 1%nat c1 eq_refl) as H1.
  pose proof (Hat 2%nat c2 eq_refl) as H2.
  apply (f_equal String.length) in H0, H1, H2.
  rewrite length_str_take, length_str_drop in H0, H1, H2.
  cbn [map]. repeat f_equal; lia.
Qed.

(** The comprehension [[chunk for chunk in body_iter]] never runs out of
    fuel. *)
Lemma chunks_run resp st :
  exists chunks,
    ResponseBodyIterator.chunks resp st
    = (Ok (chunks, mkResponse (status resp) (resp_headers resp) ""), st)
    /\ join chunks = payload resp.
Proof.
  destruct (iter_yields (S (String.length (payload resp))) resp) as (chunks & Hrun & Hy);
    first lia.
  exists chunks. unfold ResponseBodyIterator.chunks. rewrite Hrun.
  split; [reflexivity | apply Hy].
Qed.

(** C7.  Iterating the body stream of a response, with fuel for one read
    more than the payload has bytes, ends and yields chunks whose
    concatenation is the payload; the chunk of rank [i] is the 64KB (or what
    is left of them) found [i] chunks into the payload and is never empty; the
    iteration stops on the read that returns no data; and 150KB of payload
    come out as three chunks of 64KB, 64KB and 22KB. *)
Theorem body_iterator_chunks (resp : Response) (fuel : nat) :
  (String.length (payload resp) < fuel)%nat ->
  exists chunks,
    let drained := mkResponse (status resp) (resp_headers resp) "" in
    ResponseBodyIterator.iter fuel resp = Some (chunks, drained)
    /\ join chunks = payload resp
    /\ (forall (i : nat) c, chunks !! i = Some c ->
          c <> "" /\
          c = str_take (Z.to_nat CHUNKSIZE)
                (str_drop (i * Z.to_nat CHUNKSIZE) (payload resp)))
    /\ ResponseBodyIterator.next drained = (None, drained)
    /\ (Z.of_nat (String.length (payload resp)) = 150 * 1024 ->
        map (fun c => Z.of_nat (String.length c)) chunks
          = [64 * 1024; 64 * 1024; 22 * 1024]).
Proof.
  intros Hfuel. destruct (iter_yields fuel resp Hfuel) as (chunks & Hrun & Hy).
  exists chunks. cbn zeta. split; [exact Hrun | split; [apply Hy | split; [| split]]].
  - intros i c Hi. split.
    + exact (Forall_lookup_1 (fun c => c <> "") chunks i c (yields_nonempty _ _ Hy) Hi).
    + by apply Hy.
  - exact (next_stop (mkResponse (status resp) (resp_headers resp) "") eq_refl).
  - by apply yields_150KB.
Qed.

End BodyStream.

(** A run on 150KB of payload. *)
Lemma body_iterator_chunks_witness :
  let resp := mkResponse 200 [] Fixtures.payload_150KB in
  exists chunks,
    ResponseBodyIterator.iter (S (String.length (payload resp))) resp
      = Some (chunks, mkResponse 200 [] "")
    /\ join chunks = Fixtures.payload_150KB
    /\ map (fun c => Z.of_nat (String.length c)) chunks
       = [64 * 1024; 64 * 1024; 22 * 1024]%Z.
Proof.
  intros resp.
  destruct (body_iterator_chunks resp (S (String.length (payload resp)))
              (Nat.lt_succ_diag_r _)) as (chunks & Hrun & Hjoin & _ & _ & Hsizes).
  exists chunks. split; [exact Hrun | split; [exact Hjoin |]].
  apply Hsizes. vm_compute. reflexivity.
Defined.

(** * The retry decorator *)

Section RangeFacts.
Local Open Scope Z_scope.

Lemma py_range_cons a b : a < b -> py_range a b = a :: py_range (a + 1) b.
Proof.
  intros. unfold py_range.
  replace (Z.to_nat (b - a)) with (S (Z.to_nat (b - (a + 1)))) by lia.
  cbn [seq map]. f_equal; first lia.
  rewrite <- seq_shift, map_map. apply map_ext. intros i. lia.
Qed.

End RangeFacts.

Section RetryFacts.
Context {U K R : Type} (func : U -> string -> K -> M (option R)).
Context (url : U) (method : string) (kwargs : K).
Local Open Scope Z_scope.

Local Abbreviation attempt := (func url method kwargs).

Lemma failed_round_interval T st :
  keeps_interval attempt -> 0 <= T ->
  conflict_retry_interval (self (failed_round attempt T st))
  = conflict_retry_interval (self st).
Proof.
  intros Hk HT. rewrite <- (Hk st). unfold failed_round. mrun.
  by rewrite (proj2 (Z.ltb_ge _ _)) by lia.
Qed.

(** The loop over the attempts that are left, [k] of them to be retried:
    induction on [k]. *)
Lemma retry_loop_exhausts (k : nat) : forall a st T,
  always_fails attempt -> keeps_interval attempt -> 0 <= T ->
  conflict_retry_interval (self st) = Some T ->
  let num_attempts := a + Z.of_nat k in
  let last := Nat.iter k (failed_round attempt T) st in
  retry_loop func url method kwargs num_attempts (py_range a (num_attempts + 1)) st
  = (outcome attempt last,
     exec (LOG ERROR "Error contacting Ironic server") (exec attempt last)).
Proof.
  induction k as [|k IH]; intros a st T Hf Hk HT Hi num last; subst num last.
  - cbn [Nat.iter nat_rect]. rewrite py_range_cons by lia.
    cbn [retry_loop]. unfold try_except.
    destruct (Hf st) as (e & He & Hr).
    rewrite (run_eta attempt st), He, Hr.
    rewrite (proj2 (Z.eqb_eq _ _)) by lia. reflexivity.
  - rewrite py_range_cons by lia.
    cbn [retry_loop]. unfold try_except.
    destruct (Hf st) as (e & He & Hr).
    rewrite (run_eta attempt st), He, Hr.
    rewrite (proj2 (Z.eqb_neq _ _)) by lia.
    rewrite Nat.iter_succ_r.
    replace (a + Z.of_nat (S k)) with ((a + 1) + Z.of_nat k) by lia.
    rewrite <- (IH (a + 1) (failed_round attempt T st) T Hf Hk HT).
    2:{ by rewrite failed_round_interval. }
    pose proof (Hk st) as Hk'. rewrite Hi in Hk'. unfold failed_round.
    revert Hk'. mrun. intros ->.
    rewrite (proj2 (Z.ltb_ge _ _)) by lia. reflexivity.
Qed.

Lemma with_retries_unfold st :
  with_retries func url method kwargs st =
    let N := default DEFAULT_MAX_RETRIES (conflict_max_retries (self st)) in
    retry_loop func url method kwargs (N + 1) (py_range 1 (N + 1 + 1))
      (mkState (retry_defaults (self st)) (world st)).
Proof.
  destruct st as [[ep state ver [n|] [t|]] w]; reflexivity.
Qed.

Lemma failed_rounds_slept T (k : nat) st :
  0 <= T ->
  (forall s, slept (world (exec attempt s)) = slept (world s)) ->
  slept (world (Nat.iter k (failed_round attempt T) st))
  = slept (world st) ++ replicate k T.
Proof.
  intros HT Hs. induction k as [|k IH].
  - cbn [Nat.iter nat_rect replicate]. by rewrite app_nil_r.
  - rewrite Nat.iter_succ. unfold failed_round at 1.
    assert (Hw : forall s,
              slept (world (exec (LOG WARNING "Error contacting Ironic server";;
                                  time_sleep (Some T)) s))
              = slept (world s) ++ [T]).
    { intros s. mrun. by rewrite (proj2 (Z.ltb_ge _ _)) by lia. }
    rewrite Hw, Hs, IH, <- app_assoc. f_equal.
    change (T :: replicate k T) with (replicate (S k) T).
    by rewrite replicate_S_end.
Qed.

Lemma failed_rounds_count T (k : nat) st (count : State -> nat) :
  (forall s, count (exec attempt s) = S (count s)) ->
  (forall s level msg, count (exec (LOG level msg) s) = count s) ->
  (forall s t, count (exec (time_sleep (Some t)) s) = count s) ->
  count (Nat.iter k (failed_round attempt T) st) = (count st + k)%nat.
Proof.
  intros Ha Hl Hs. induction k as [|k IH]; first (cbn [Nat.iter nat_rect]; lia).
  rewrite Nat.iter_succ. unfold failed_round at 1.
  set (s1 := exec attempt _).
  assert (E : exec (LOG WARNING "Error contacting Ironic server";; time_sleep (Some T)) s1
              = exec (time_sleep (Some T))
                  (exec (LOG WARNING "Error contacting Ironic server") s1)) by reflexivity.
  rewrite E, Hs, Hl. subst s1. rewrite Ha, IH. lia.
Qed.

End RetryFacts.

Section RetryClaim.
Context {U K R : Type}.
Local Open Scope Z_scope.

(** C2.  A call through the retry wrapper with [max_retries = N] and
    [retry_interval = T] (the defaults standing in for [None]), [N] and [T] not
    negative.  When the attempt always raises one of [Conflict],
    [ServiceUnavailable], [ConnectionRefused] and leaves the retry interval
    alone, the call is [N] rounds of attempt, warning and sleep of [T]
    followed by one last attempt and the error record, and it raises what the
    last attempt raised: every count that each attempt moves by one ends
    [N + 1] higher, and [T] is slept [N] times.  When the attempt raises
    anything else the call is that one attempt, nothing more. *)
Theorem with_retries_bounded (func : U -> string -> K -> M (option R))
    (url : U) (method : string) (kwargs : K) (N T : Z) (st : State) :
  0 <= N -> 0 <= T ->
  default DEFAULT_MAX_RETRIES (conflict_max_retries (self st)) = N ->
  default DEFAULT_RETRY_INTERVAL (conflict_retry_interval (self st)) = T ->
  let attempt := func url method kwargs in
  let start := mkState (retry_defaults (self st)) (world st) in
  let call := with_retries func url method kwargs in
  (always_fails attempt -> keeps_interval attempt ->
     let last := Nat.iter (Z.to_nat N) (failed_round attempt T) start in
     call st = (outcome attempt last,
                exec (LOG ERROR "Error contacting Ironic server") (exec attempt last))
     /\ (exists e, outcome call st = Raise e /\ is_retry_exception e = true)
     /\ ((forall s, slept (world (exec attempt s)) = slept (world s)) ->
         slept (world (exec call st)) = slept (world st) ++ replicate (Z.to_nat N) T)
     /\ (forall count : State -> nat,
           (forall s, count (exec attempt s) = S (count s)) ->
           (forall s level msg, count (exec (LOG level msg) s) = count s) ->
           (forall s t, count (exec (time_sleep (Some t)) s) = count s) ->
           count (exec call st) = (count start + Z.to_nat N + 1)%nat))
  /\ (forall e, outcome attempt start = Raise e -> is_retry_exception e = false ->
        call st = attempt start).
Proof.
  intros HN HT HmaxN HintT attempt start call.
  assert (Hcall : call st = retry_loop func url method kwargs (N + 1)
                              (py_range 1 (N + 1 + 1)) start).
  { subst call. rewrite with_retries_unfold. cbn zeta. by rewrite HmaxN. }
  split.
  - intros Hf Hk last.
    assert (Hrun : call st = (outcome attempt last,
                exec (LOG ERROR "Error contacting Ironic server") (exec attempt last))).
    { rewrite Hcall.
      replace (N + 1) with (1 + Z.of_nat (Z.to_nat N)) by lia.
      apply retry_loop_exhausts; try done.
      subst start. cbn. by rewrite HintT. }
    split; first exact Hrun. split; [|split].
    + unfold outcome at 1. rewrite Hrun. apply Hf.
    + intros Hs. unfold exec at 1. rewrite Hrun. cbn [snd].
      change (slept (world (exec (LOG ERROR "Error contacting Ironic server")
                              (exec attempt last))))
        with (slept (world (exec attempt last))).
      rewrite Hs. subst last.
      by rewrite (failed_rounds_slept func url method kwargs) by done.
    + intros count Ha Hl Hs. unfold exec at 1. rewrite Hrun. cbn [snd].
      rewrite Hl, Ha. subst last.
      rewrite (failed_rounds_count func url method kwargs) by done. lia.
  - intros e He Hr. rewrite Hcall, py_range_cons by lia.
    cbn [retry_loop]. unfold try_except. fold attempt.
    rewrite (run_eta attempt start), He, Hr. reflexivity.
Qed.

End RetryClaim.

Section RefusedAttempt.
Context (url method : string).

Local Abbreviation unanswered := (Fixtures.externals []).
Local Abbreviation refused :=
  (Fixtures.refused_attempt (ext := unanswered) url method ()).

Lemma scripted_over history : Fixtures.scripted [] history = inl socket_timeout.
Proof. unfold Fixtures.scripted. by destruct (length history - 1)%nat. Qed.

Lemma refused_attempt_run st :
  refused st
  = (Raise ConnectionRefused,
     exec (send (ext := unanswered)
             (SessionRequest (Some url) method None None None None None)) st).
Proof.
  unfold Fixtures.refused_attempt, try_except.
  rewrite bind_run, send_eq. cbn [server Fixtures.externals].
  by rewrite scripted_over.
Qed.

Lemma refused_attempt_fails : always_fails refused.
Proof.
  intros st. exists ConnectionRefused. unfold outcome. by rewrite refused_attempt_run.
Qed.

Lemma refused_attempt_keeps_interval : keeps_interval refused.
Proof. intros st. unfold exec at 1. by rewrite refused_attempt_run, exec_send. Qed.

Lemma refused_attempt_slept st :
  slept (world (exec refused st)) = slept (world st).
Proof. unfold exec at 1. by rewrite refused_attempt_run, exec_send. Qed.

Lemma refused_attempt_sent st :
  length (sent (world (exec refused st))) = S (length (sent (world st))).
Proof.
  unfold exec at 1. rewrite refused_attempt_run, exec_send. cbn [snd world sent].
  rewrite length_app. cbn. lia.
Qed.

End RefusedAttempt.

(** Five retries, two seconds apart, against a peer that never answers: six
    requests go out, two seconds are slept five times, and the refusal of the
    last attempt comes back. *)
Lemma with_retries_bounded_witness :
  let call :=
    with_retries (Fixtures.refused_attempt (ext := Fixtures.externals []))
      "/v1/nodes" "GET" () in
  (exists e, outcome call Fixtures.start = Raise e /\ is_retry_exception e = true)
  /\ slept (world (exec call Fixtures.start)) = [2; 2; 2; 2; 2]%Z
  /\ length (sent (world (exec call Fixtures.start))) = 6%nat.
Proof.
  intros call.
  destruct (with_retries_bounded
              (Fixtures.refused_attempt (ext := Fixtures.externals []))
              "/v1/nodes" "GET" () 5 2 Fixtures.start
              ltac:(lia) ltac:(lia) eq_refl eq_refl) as [Hfail _].
  destruct (Hfail (refused_attempt_fails _ _) (refused_attempt_keeps_interval _ _))
    as (_ & Hraise & Hslept & Hcount).
  split; [exact Hraise | split].
  - exact (Hslept (refused_attempt_slept _ _)).
  - exact (Hcount (fun s => length (sent (world s)))
             (refused_attempt_sent _ _)
             (fun _ _ _ => eq_refl)
             (fun s t => ltac:(unfold exec, time_sleep; destruct (t <? 0)%Z; reflexivity))).
Defined.

(** * Version negotiation *)

Section NegotiationFacts.
Context {ext : Externals} {Conn : Type} (cls : VersionNegotiationMixin Conn).
Context (probe : Conn -> string -> string -> Request).
Hypothesis Hprobe : sends_probe cls probe.

(** [negotiate_version] is: check the state, find the range (with the
    supplementary request if the response gave no maximum), conclude. *)
Lemma negotiate_version_eq conn resp st :
  negotiate_version cls conn resp st =
    if bool_decide (api_version_select_state (self st) ∈ API_VERSION_SELECTED_STATES)
    then
      let range := _parse_version_headers cls resp in
      if truthy range.2 then conclude_negotiation range.1 range.2 st
      else
        (LOG DEBUG "No version header in response, requesting from server";;
         presp ← _make_simple_request cls conn "GET"
                   (base_version (os_ironic_api_version (self st)));
         let range := _parse_version_headers cls presp in
         conclude_negotiation range.1 range.2) st
    else (Raise RuntimeError, st).
Proof using Type.
  unfold negotiate_version. mrun.
  destruct (bool_decide _); cbn [negb]; last done.
  destruct (_parse_version_headers cls resp) as [mn mx]. cbn [fst snd].
  destruct (truthy mx); cbn [negb].
  - unfold conclude_negotiation, negotiated. mrun.
    destruct (String.eqb _ "user"); first done.
    destruct (String.eqb _ "negotiated"); first done. cbn [orb].
    unfold mbind, result_mbind, result_bind.
    destruct (StrictVersion.init (os_ironic_api_version _)) as [a| |]; try done.
    destruct (StrictVersion.init _) as [b| |]; try done.
    destruct (StrictVersion.min a b) as [m| |]; try done.
  - unfold base_version.
    destruct (_make_simple_request cls conn "GET" _ _) as [[presp|e|] st1]; try done.
    destruct (_parse_version_headers cls presp) as [mn' mx']. cbn [fst snd].
    unfold conclude_negotiation, negotiated. mrun.
    destruct (String.eqb _ "user"); first done.
    destruct (String.eqb _ "negotiated"); first done. cbn [orb].
    unfold mbind, result_mbind, result_bind.
    destruct (StrictVersion.init (os_ironic_api_version _)) as [a| |]; try done.
    destruct (StrictVersion.init _) as [b| |]; try done.
    destruct (StrictVersion.min a b) as [m| |]; try done.
Qed.

Lemma conclude_refused mn mx st :
  api_version_select_state (self st) = "user"
  \/ api_version_select_state (self st) = "negotiated" ->
  conclude_negotiation mn mx st
  = (Raise (UnsupportedVersion (os_ironic_api_version (self st)) mn mx), st).
Proof using Type.
  intros Hs. unfold conclude_negotiation. mrun. by destruct Hs as [-> | ->].
Qed.

(** Once the range is known nothing more is sent, and only a success touches
    the attributes and the cache. *)
Lemma conclude_negotiation_cases mn mx st :
  let r := conclude_negotiation mn mx st in
  sent (world r.2) = sent (world st)
  /\ match r.1 with
     | Ok v =>
         api_version_select_state (self st) <> "user"
         /\ api_version_select_state (self st) <> "negotiated"
         /\ negotiated (os_ironic_api_version (self st)) mn mx = Ok v
         /\ self r.2 = set_os_ironic_api_version (Some v)
                         (set_api_version_select_state "negotiated" (self st))
         /\ exists host port,
              get_server (endpoint (self st)) = Ok (host, port)
              /\ filecache (world r.2) = <[(host, port) := v]> (filecache (world st))
     | _ => filecache (world r.2) = filecache (world st)
     end.
Proof using Type.
  unfold conclude_negotiation. mrun.
  destruct (String.eqb_spec (api_version_select_state (self st)) "user") as [|Hu];
    first done.
  destruct (String.eqb_spec (api_version_select_state (self st)) "negotiated") as [|Hn];
    first done.
  cbn [orb]. destruct (negotiated _ mn mx) as [v| |]; try done.
  cbn [set_os_ironic_api_version set_api_version_select_state endpoint].
  destruct (get_server (endpoint (self st))) as [[host port]| |]; try done.
  cbn. repeat split; try done. by exists host, port.
Qed.

Lemma probed_frame rq st :
  self (probed rq st) = self st
  /\ filecache (world (probed rq st)) = filecache (world st)
  /\ sent (world (probed rq st)) = sent (world st) ++ [rq].
Proof using Type. unfold probed. rewrite exec_send. by mrun. Qed.

Lemma negotiate_version_run conn resp st :
  api_version_select_state (self st) ∈ API_VERSION_SELECTED_STATES ->
  let range := _parse_version_headers cls resp in
  let rq := probe conn "GET" (base_version (os_ironic_api_version (self st))) in
  negotiate_version cls conn resp st =
    if truthy range.2 then conclude_negotiation range.1 range.2 st
    else match server (sent (world st) ++ [rq]) with
         | inl e => (Raise e, probed rq st)
         | inr presp =>
             let range := _parse_version_headers cls presp in
             conclude_negotiation range.1 range.2 (probed rq st)
         end.
Proof using Hprobe.
  intros Hvalid range rq. rewrite negotiate_version_eq, bool_decide_true by done.
  cbn zeta. fold range. destruct (truthy range.2); first done.
  rewrite Hprobe. fold rq. unfold probed. mrun. rewrite send_eq.
  cbn [sent world]. by destruct (server _).
Qed.

(** In state 'default' or 'cached', on a response that gives the range, the
    call returns what [negotiated] computes: the clamp of the code. *)
Lemma negotiate_version_returns conn resp st host port :
  api_version_select_state (self st) = "default"
  \/ api_version_select_state (self st) = "cached" ->
  truthy (_parse_version_headers cls resp).2 = true ->
  get_server (endpoint (self st)) = Ok (host, port) ->
  outcome (negotiate_version cls conn resp) st
  = negotiated (os_ironic_api_version (self st))
      (_parse_version_headers cls resp).1 (_parse_version_headers cls resp).2.
Proof using Hprobe.
  intros Hs Hmax Hsrv. unfold outcome.
  rewrite negotiate_version_run.
  2:{ unfold API_VERSION_SELECTED_STATES. destruct Hs as [-> | ->]; set_solver. }
  cbn zeta. rewrite Hmax. unfold conclude_negotiation. mrun.
  replace (String.eqb (api_version_select_state (self st)) "user"
           || String.eqb (api_version_select_state (self st)) "negotiated")
    with false by (by destruct Hs as [-> | ->]).
  destruct (negotiated _ _ _) as [v| |]; try done.
  cbn [set_os_ironic_api_version set_api_version_select_state endpoint].
  by rewrite Hsrv.
Qed.

(** A success went through [conclude_negotiation], from a state with the
    attributes and the cache of the start. *)
Lemma negotiate_version_Ok conn resp st v :
  outcome (negotiate_version cls conn resp) st = Ok v ->
  exists mn mx st1,
    self st1 = self st
    /\ filecache (world st1) = filecache (world st)
    /\ negotiate_version cls conn resp st = conclude_negotiation mn mx st1.
Proof using Hprobe.
  unfold outcome. rewrite negotiate_version_eq.
  destruct (bool_decide _); last done. cbn zeta.
  destruct (truthy _).
  - intros _. by eexists _, _, st.
  - rewrite Hprobe. mrun. rewrite send_eq. cbn [sent world].
    destruct (server _) as [e|presp]; first done.
    intros _. eexists _, _, _. split; [|split]; last reflexivity.
    + by rewrite exec_send.
    + by rewrite exec_send.
Qed.

End NegotiationFacts.

Section ProbeInstances.
Context {ext : Externals}.

Lemma HTTPClient_sends_probe client :
  sends_probe (HTTPClient.mixin client) (HTTPClient_probe client).
Proof. by intros conn method url. Qed.

Lemma SessionClient_sends_probe :
  sends_probe SessionClient.mixin SessionClient_probe.
Proof. by intros conn method url. Qed.

End ProbeInstances.

Section NegotiationTheorems.
Context {ext : Externals} {Conn : Type}.
Implicit Types (cls : VersionNegotiationMixin Conn)
  (probe : Conn -> string -> string -> Request).

(** C3, as amended.  For a class whose simple request is the sending of
    one request: [negotiate_version] called in state 'negotiated' or 'user'
    leaves the attributes of the instance (stored version and select state
    among them) and the version cache as they were, and raises.  It raises
    [UnsupportedVersion] for the stored version, with the range of the
    response when that gives a maximum version, and with the range the
    supplementary request is answered with when it gives none; when the
    response gives none and the supplementary request itself fails, it raises
    that failure.  A call that succeeds leaves the state 'negotiated', so that
    every later call on the instance raises and changes no attribute. *)
Theorem negotiate_version_refused_when_settled cls probe :
  sends_probe cls probe ->
  (forall conn resp st,
     api_version_select_state (self st) = "negotiated"
     \/ api_version_select_state (self st) = "user" ->
     let run := negotiate_version cls conn resp in
     let rq := probe conn "GET" (base_version (os_ironic_api_version (self st))) in
     let range := _parse_version_headers cls resp in
     let stored := os_ironic_api_version (self st) in
     self (exec run st) = self st
     /\ filecache (world (exec run st)) = filecache (world st)
     /\ (truthy range.2 = true ->
         outcome run st = Raise (UnsupportedVersion stored range.1 range.2))
     /\ (truthy range.2 = false ->
         forall presp, server (sent (world st) ++ [rq]) = inr presp ->
           outcome run st
           = Raise (UnsupportedVersion stored (_parse_version_headers cls presp).1
                      (_parse_version_headers cls presp).2))
     /\ (truthy range.2 = false ->
         forall e, server (sent (world st) ++ [rq]) = inl e ->
           outcome run st = Raise e))
  /\ (forall conn resp st v,
        outcome (negotiate_version cls conn resp) st = Ok v ->
        let st' := exec (negotiate_version cls conn resp) st in
        api_version_select_state (self st') = "negotiated"
        /\ forall conn2 resp2 st2, self st2 = self st' ->
             self (exec (negotiate_version cls conn2 resp2) st2) = self st'
             /\ exists e, outcome (negotiate_version cls conn2 resp2) st2 = Raise e).
Proof.
  intros Hprobe.
  assert (Hfirst : forall conn resp st,
     api_version_select_state (self st) = "negotiated"
     \/ api_version_select_state (self st) = "user" ->
     let run := negotiate_version cls conn resp in
     let rq := probe conn "GET" (base_version (os_ironic_api_version (self st))) in
     let range := _parse_version_headers cls resp in
     let stored := os_ironic_api_version (self st) in
     self (exec run st) = self st
     /\ filecache (world (exec run st)) = filecache (world st)
     /\ (truthy range.2 = true ->
         outcome run st = Raise (UnsupportedVersion stored range.1 range.2))
     /\ (truthy range.2 = false ->
         forall presp, server (sent (world st) ++ [rq]) = inr presp ->
           outcome run st
           = Raise (UnsupportedVersion stored (_parse_version_headers cls presp).1
                      (_parse_version_headers cls presp).2))
     /\ (truthy range.2 = false ->
         forall e, server (sent (world st) ++ [rq]) = inl e ->
           outcome run st = Raise e)).
  { intros conn resp st Hs run rq range stored. subst run. unfold exec, outcome.
    rewrite (negotiate_version_run cls probe Hprobe).
    2:{ unfold API_VERSION_SELECTED_STATES. destruct Hs as [-> | ->]; set_solver. }
    cbn zeta. fold rq range. destruct (truthy range.2) eqn:Hmax.
    - rewrite conclude_refused by tauto. cbn. by split_and!.
    - destruct (server _) as [e|presp] eqn:Hsrv.
      + cbn [fst snd]. destruct (probed_frame rq st) as (-> & -> & _).
        split_and!; try done. by intros _ e' [= <-].
      + cbn zeta. rewrite conclude_refused
          by (destruct (probed_frame rq st) as (-> & _); tauto).
        cbn [fst snd]. destruct (probed_frame rq st) as (-> & -> & _).
        split_and!; try done. by intros _ presp' [= <-]. }
  split; first exact Hfirst.
  intros conn resp st v Hok st'.
  destruct (negotiate_version_Ok cls probe Hprobe conn resp st v Hok)
    as (mn & mx & st1 & Hself & _ & Hrun).
  pose proof (conclude_negotiation_cases mn mx st1) as [_ Hcases].
  assert (Hneg : api_version_select_state (self st') = "negotiated").
  { subst st'. unfold exec. unfold outcome in Hok. rewrite Hrun in Hok |- *.
    rewrite Hok in Hcases. by destruct Hcases as (_ & _ & _ & -> & _). }
  split; first exact Hneg.
  intros conn2 resp2 st2 Hsame.
  destruct (Hfirst conn2 resp2 st2) as (Hkeep & _ & Hmax & Hanswered & Hfailed).
  { left. by rewrite Hsame. }
  split; first by rewrite Hkeep.
  destruct (truthy (_parse_version_headers cls resp2).2) eqn:E.
  - eexists. by apply Hmax.
  - destruct (server (sent (world st2)
                        ++ [probe conn2 "GET"
                              (base_version (os_ironic_api_version (self st2)))]))
      as [e|presp] eqn:Hsrv.
    + exists e. by apply Hfailed.
    + eexists. by apply Hanswered.
Qed.

(** C6.  For a class whose simple request is the sending of one request, and
    an instance in one of the four states: when the response at hand gives no
    maximum version, [negotiate_version] adds exactly one request to what was
    sent, a GET of [/v<major>] of the stored version (of [/v1] when none is
    stored), and, that request answered, proceeds on the versions read from
    the answer; when the response gives a maximum version, nothing is sent and
    the negotiation proceeds on the versions of the response. *)
Theorem negotiate_version_single_probe cls probe conn resp st :
  sends_probe cls probe ->
  api_version_select_state (self st) ∈ API_VERSION_SELECTED_STATES ->
  let run := negotiate_version cls conn resp in
  let range := _parse_version_headers cls resp in
  let rq := probe conn "GET" (base_version (os_ironic_api_version (self st))) in
  (truthy range.2 = false ->
     sent (world (exec run st)) = sent (world st) ++ [rq]
     /\ forall presp, server (sent (world st) ++ [rq]) = inr presp ->
          let range := _parse_version_headers cls presp in
          run st = conclude_negotiation range.1 range.2 (probed rq st))
  /\ (truthy range.2 = true ->
      sent (world (exec run st)) = sent (world st)
      /\ run st = conclude_negotiation range.1 range.2 st).
Proof.
  intros Hprobe Hvalid run range rq. subst run. unfold exec.
  rewrite (negotiate_version_run cls probe Hprobe) by done.
  cbn zeta. fold range. fold rq. split; intros ->.
  - destruct (probed_frame rq st) as (_ & _ & Hsent).
    destruct (server _) as [e|presp].
    + split; first exact Hsent. intros presp [=].
    + split.
      * rewrite <- Hsent. apply conclude_negotiation_cases.
      * by intros ? [= <-].
  - split; last done. apply conclude_negotiation_cases.
Qed.

(** C10.  [get_server] gives the port as a string: [(None, None)] for no
    endpoint, the host name with the string 'None' for an endpoint whose URL
    has no port, the host name with the decimal writing of the port otherwise;
    and a negotiation that succeeds writes the negotiated version in the cache
    under the pair [get_server] gives for the endpoint of the instance. *)
Theorem get_server_port_is_a_string cls probe :
  sends_probe cls probe ->
  get_server None = Ok (None, None)
  /\ (forall url, port (urlparse url) = Ok None ->
        get_server (Some url) = Ok (hostname (urlparse url), Some "None"))
  /\ (forall url p, port (urlparse url) = Ok (Some p) ->
        get_server (Some url) = Ok (hostname (urlparse url), Some (str_of_Z p)))
  /\ (forall conn resp st v,
        outcome (negotiate_version cls conn resp) st = Ok v ->
        exists host port,
          get_server (endpoint (self st)) = Ok (host, port)
          /\ filecache (world (exec (negotiate_version cls conn resp) st))
             = <[(host, port) := v]> (filecache (world st))).
Proof.
  intros Hprobe. split; [done | split; [| split]].
  - intros url Hp. unfold get_server. by rewrite Hp.
  - intros url p Hp. unfold get_server. by rewrite Hp.
  - intros conn resp st v Hok.
    destruct (negotiate_version_Ok cls probe Hprobe conn resp st v Hok)
      as (mn & mx & st1 & Hself & Hcache & Hrun).
    pose proof (conclude_negotiation_cases mn mx st1) as [_ Hcases].
    unfold exec. unfold outcome in Hok. rewrite Hrun in Hok |- *. rewrite Hok in Hcases.
    destruct Hcases as (_ & _ & _ & _ & host & port & Hsrv & Hput).
    exists host, port. by rewrite <- Hself, <- Hcache.
Qed.

End NegotiationTheorems.

(** A client that has negotiated already receives a 406 again. *)
Lemma negotiate_version_refused_when_settled_witness :
  let ext := Fixtures.externals [] in
  let st := mkState (set_api_version_select_state "negotiated" Fixtures.attrs)
              Fixtures.empty_world in
  let run := negotiate_version (HTTPClient.mixin Fixtures.http_client) Fixtures.conn
               (Fixtures.not_acceptable "1.1" "1.31") in
  self (exec run st) = self st
  /\ filecache (world (exec run st)) = filecache (world st)
  /\ outcome run st = Raise (UnsupportedVersion (Some "1.9") (Some "1.1") (Some "1.31")).
Proof.
  intros ext st run.
  destruct (negotiate_version_refused_when_settled
              (HTTPClient.mixin Fixtures.http_client)
              (HTTPClient_probe Fixtures.http_client)
              (HTTPClient_sends_probe Fixtures.http_client)) as [Hrefused _].
  destruct (Hrefused Fixtures.conn (Fixtures.not_acceptable "1.1" "1.31") st
              (or_introl eq_refl)) as (Hself & Hcache & Hmax & _).
  split; [exact Hself | split; [exact Hcache | exact (Hmax eq_refl)]].
Defined.

(** C3 as stated fails when the 406 carries no version header and the
    supplementary request does not get through: the request is sent before
    the state is looked at, and in state 'negotiated' (through [HTTPClient])
    as in state 'user' (through [SessionClient]) the call raises the timeout
    of that request, not [UnsupportedVersion].  The attributes and the cache
    are as they were. *)
Lemma settled_negotiation_raises_probe_failure :
  let ext := Fixtures.externals [inl socket_timeout] in
  let negotiated_st := mkState (set_api_version_select_state "negotiated" Fixtures.attrs)
                         Fixtures.empty_world in
  let user_st := mkState (set_api_version_select_state "user" Fixtures.attrs)
                   Fixtures.empty_world in
  let raw := negotiate_version (HTTPClient.mixin Fixtures.http_client) Fixtures.conn
               Fixtures.bare_not_acceptable in
  let keystone := negotiate_version SessionClient.mixin TheSession
                    Fixtures.bare_not_acceptable in
  outcome raw negotiated_st = Raise socket_timeout
  /\ self (exec raw negotiated_st) = self negotiated_st
  /\ filecache (world (exec raw negotiated_st)) = filecache (world negotiated_st)
  /\ outcome keystone user_st = Raise socket_timeout
  /\ self (exec keystone user_st) = self user_st
  /\ filecache (world (exec keystone user_st)) = filecache (world user_st).
Proof. vm_compute. repeat split. Qed.

(** A 406 without version headers, a server that answers the version root:
    one GET of [/v1] goes out. *)
Lemma negotiate_version_single_probe_witness :
  let ext := Fixtures.externals [inr (Fixtures.version_root "1.1" "1.31")] in
  let run := negotiate_version (HTTPClient.mixin Fixtures.http_client) Fixtures.conn
               Fixtures.bare_not_acceptable in
  sent (world (exec run Fixtures.start))
  = [ConnRequest Fixtures.conn "GET" "/v1" None ∅].
Proof.
  intros ext run.
  assert (Hvalid : api_version_select_state (self Fixtures.start)
                   ∈ API_VERSION_SELECTED_STATES).
  { apply list_elem_of_In. cbn. tauto. }
  destruct (negotiate_version_single_probe
              (HTTPClient.mixin Fixtures.http_client)
              (HTTPClient_probe Fixtures.http_client)
              Fixtures.conn Fixtures.bare_not_acceptable Fixtures.start
              (HTTPClient_sends_probe Fixtures.http_client) Hvalid) as [Hbare _].
  destruct (Hbare eq_refl) as [Hsent _]. exact Hsent.
Defined.

(** A first negotiation of the client built with no keyword argument: the
    version is cached under the host name and the port as a string. *)
Lemma get_server_port_is_a_string_witness :
  let ext := Fixtures.externals [] in
  let run := negotiate_version (HTTPClient.mixin Fixtures.http_client) Fixtures.conn
               (Fixtures.not_acceptable "1.1" "1.31") in
  exists host port,
    get_server (Some Fixtures.endpoint_url) = Ok (host, port)
    /\ filecache (world (exec run Fixtures.start)) = <[(host, port) := "1.9"]> ∅.
Proof.
  intros ext run.
  destruct (get_server_port_is_a_string
              (HTTPClient.mixin Fixtures.http_client)
              (HTTPClient_probe Fixtures.http_client)
              (HTTPClient_sends_probe Fixtures.http_client)) as (_ & _ & _ & Hcache).
  apply (Hcache Fixtures.conn (Fixtures.not_acceptable "1.1" "1.31") Fixtures.start "1.9").
  vm_compute. reflexivity.
Defined.

(** C1, at the inputs where the code departs from it.  Requested 1.9
    against a server that supports 1.10 to 1.31: the specification asks for
    1.10, and [negotiate_version] returns 1.9, because the comparison with the
    minimum version is one of strings, where '1.9' is not below '1.10'.
    Requested 1.20 against 1.3 to 1.31: the specification asks for 1.20, and
    [negotiate_version] returns 1.3, '1.20' being below '1.3' as a string. *)
Theorem negotiate_version_clamp_is_bytewise :
  let ext := Fixtures.externals [] in
  let run stored min_ver :=
    outcome (negotiate_version (HTTPClient.mixin Fixtures.http_client) Fixtures.conn
               (Fixtures.not_acceptable min_ver "1.31"))
      (mkState (set_os_ironic_api_version (Some stored) Fixtures.attrs)
         Fixtures.empty_world) in
  run "1.9" "1.10" = Ok "1.9"
  /\ negotiated_spec "1.9" "1.10" "1.31" = Some "1.10"
  /\ run "1.20" "1.3" = Ok "1.3"
  /\ negotiated_spec "1.20" "1.3" "1.31" = Some "1.20".
Proof. vm_compute. repeat split. Qed.

(** * What the executors send *)

Create HintDb appends.

Section Appends.
Context {ext : Externals}.

Lemma appends_ret {A} (a : A) : appends (mret a).
Proof. by intros st. Qed.

Lemma appends_raise {A} e : appends (@raise A e).
Proof. by intros st. Qed.

Lemma appends_lift {A} (r : result A) : appends (lift r).
Proof. by intros st. Qed.

Lemma appends_gets {A} (f : Attrs -> A) : appends (gets f).
Proof. by intros st. Qed.

Lemma appends_assign f : appends (assign f).
Proof. by intros st. Qed.

Lemma appends_LOG level msg : appends (LOG level msg).
Proof. by intros st. Qed.

Lemma appends_time_sleep secs : appends (time_sleep secs).
Proof. intros st. destruct secs as [t|]; last done. unfold exec, time_sleep. by destruct (t <? 0)%Z. Qed.

Lemma appends_save_data host port data : appends (save_data host port data).
Proof. by intros st. Qed.

Lemma appends_heap_get l : appends (heap_get l).
Proof. by intros st. Qed.

Lemma appends_heap_put l d : appends (heap_put l d).
Proof. by intros st. Qed.

Lemma appends_send rq : appends (send rq).
Proof.
  intros st. unfold exec, send. destruct (server _); cbn; by apply prefix_app_r.
Qed.

Lemma appends_bind {A B} (m : M A) (k : A -> M B) :
  appends m -> (forall a, appends (k a)) -> appends (m ≫= k).
Proof.
  intros Hm Hk st. specialize (Hm st). unfold exec, mbind, M_mbind in *.
  destruct (m st) as [[a|e|] st']; cbn [snd] in *; try done.
  etrans; [exact Hm | apply Hk].
Qed.

Lemma appends_try_except {A} (block : M A) handler :
  appends block -> (forall e h, handler e = Some h -> appends h) ->
  appends (try_except block handler).
Proof.
  intros Hb Hh st. specialize (Hb st). unfold exec, try_except in *.
  destruct (block st) as [[a|e|] st']; cbn [snd] in *; try done.
  destruct (handler e) as [h|] eqn:E; last done.
  etrans; [exact Hb | by apply (Hh e h)].
Qed.

End Appends.

#[global] Hint Resolve appends_ret appends_raise appends_lift appends_gets
  appends_assign appends_LOG appends_time_sleep appends_save_data
  appends_heap_get appends_heap_put : appends.

Ltac appends_step :=
  lazymatch goal with
  | |- appends (mbind _ _) => apply appends_bind; [| intros ?]
  | |- appends (try_except _ _) => apply appends_try_except; [| intros ? ? ?]
  | |- appends (send _) => apply appends_send
  | |- appends (if ?b then _ else _) => destruct b
  | |- appends (match ?x with _ => _ end) => destruct x
  | |- appends _ => solve [eauto with appends]
  end.
Ltac solve_appends := repeat appends_step.

Section AppendsCode.
Context {ext : Externals}.

Lemma appends_negotiate_version {Conn} (cls : VersionNegotiationMixin Conn) conn resp :
  (forall c m u, appends (_make_simple_request cls c m u)) ->
  appends (negotiate_version cls conn resp).
Proof.
  intros Hp. unfold negotiate_version. solve_appends.
Qed.

Lemma appends_with_retries {U K R} (func : U -> string -> K -> M (option R))
    url method kwargs :
  appends (func url method kwargs) ->
  appends (with_retries func url method kwargs).
Proof.
  intros Hf.
  assert (Hloop : forall n attempts,
            appends (retry_loop func url method kwargs n attempts)).
  { intros n attempts. induction attempts as [|a rest IH]; cbn [retry_loop]; first solve_appends.
    apply appends_try_except; first exact Hf.
    intros e h He. destruct (is_retry_exception e); last discriminate.
    injection He as <-. solve_appends. }
  unfold with_retries. solve_appends.
Qed.

Lemma appends_chunks resp : appends (ResponseBodyIterator.chunks resp).
Proof. unfold ResponseBodyIterator.chunks. solve_appends. Qed.

Lemma appends_HTTPClient_func client rec url method kwargs :
  (forall u m k, appends (rec u m k)) ->
  appends (HTTPClient._http_request_func client rec url method kwargs).
Proof.
  intros Hrec.
  unfold HTTPClient._http_request_func, HTTPClient.log_curl_request,
    HTTPClient.log_http_response.
  pose proof appends_chunks.
  pose proof (fun conn resp => appends_negotiate_version (HTTPClient.mixin client) conn resp
                (fun c m u => appends_send _)).
  solve_appends.
  match goal with
  | H : HTTPClient.socket_handlers ?e = Some _ |- _ =>
      destruct e; try discriminate H; injection H as <-; solve_appends
  end.
Qed.

Lemma appends_HTTPClient_http_request fuel client : forall url method kwargs,
  appends (HTTPClient._http_request fuel client url method kwargs).
Proof.
  induction fuel as [|fuel IH]; intros url method kwargs; cbn [HTTPClient._http_request].
  - solve_appends.
  - apply appends_with_retries. by apply appends_HTTPClient_func.
Qed.

Lemma appends_SessionClient_func client rec url method kwargs :
  (forall u m k, appends (rec u m k)) ->
  appends (SessionClient._http_request_func client rec url method kwargs).
Proof.
  intros Hrec.
  unfold SessionClient._http_request_func, SessionClient.session_request,
    SessionClient.kwargs_headers.
  pose proof (fun conn resp => appends_negotiate_version SessionClient.mixin conn resp
                (fun c m u => appends_send _)).
  solve_appends.
Qed.

Lemma appends_SessionClient_http_request fuel client : forall url method kwargs,
  appends (SessionClient._http_request fuel client url method kwargs).
Proof.
  induction fuel as [|fuel IH]; intros url method kwargs; cbn [SessionClient._http_request].
  - solve_appends.
  - apply appends_with_retries. by apply appends_SessionClient_func.
Qed.


End AppendsCode.

Section HeaderFacts.

Lemma lookup_setdefault {V} (k k' : string) (v : V) (d : gmap string V) :
  setdefault k v d !! k' = if decide (k = k') then Some (default v (d !! k)) else d !! k'.
Proof.
  unfold setdefault. destruct (d !! k) as [x|] eqn:E.
  - case_decide; by subst.
  - case_decide; subst; by simplify_map_eq.
Qed.

Lemma truthy_Some ver : truthy ver = true -> ver = Some (default "" ver).
Proof. by destruct ver. Qed.

Lemma attempt_headers_version client ver h0 :
  HTTPClient_attempt_headers client ver h0 !! VERSION_HEADER
  = version_header_sent ver (default ∅ h0).
Proof.
  unfold HTTPClient_attempt_headers, version_header_sent. cbn zeta.
  assert (Hua : forall d : gmap string string,
            setdefault "User-Agent" USER_AGENT d !! VERSION_HEADER = d !! VERSION_HEADER).
  { intros d. rewrite lookup_setdefault. by case_decide. }
  assert (Htok : forall v (d : gmap string string),
            setdefault "X-Auth-Token" v d !! VERSION_HEADER = d !! VERSION_HEADER).
  { intros v d. rewrite lookup_setdefault. by case_decide. }
  assert (Hver : (if truthy ver
                  then setdefault VERSION_HEADER (default "" ver)
                         (setdefault "User-Agent" USER_AGENT (default ∅ h0))
                  else setdefault "User-Agent" USER_AGENT (default ∅ h0)) !! VERSION_HEADER
                 = match default ∅ h0 !! VERSION_HEADER with
                   | Some v => Some v
                   | None => if truthy ver then ver else None
                   end).
  { destruct (truthy ver) eqn:Hver.
    - rewrite lookup_setdefault, decide_True, Hua by done.
      destruct (default ∅ h0 !! VERSION_HEADER); first done.
      symmetry. by apply truthy_Some.
    - rewrite Hua. by destruct (default ∅ h0 !! VERSION_HEADER). }
  destruct (truthy (HTTPClient.auth_token client)); rewrite ?Htok; exact Hver.
Qed.

End HeaderFacts.

Section SentFacts.
Context {ext : Externals}.

(** A computation that starts by sending [rq] leaves [rq] next in the
    record, whatever it goes on to send. *)
Lemma sent_starts_with {A B} rq (k : Response -> M A) handler (k2 : A -> M B) st :
  (forall resp, appends (k resp)) ->
  (forall e h, handler e = Some h -> appends h) ->
  (forall a, appends (k2 a)) ->
  exists more,
    sent (world (exec (try_except (send rq ≫= k) handler ≫= k2) st))
    = sent (world st) ++ rq :: more.
Proof.
  intros Hk Hh Hk2.
  unfold exec, mbind, M_mbind, try_except, send.
  set (st1 := mkState (self st) _).
  assert (Hst1 : sent (world st1) = sent (world st) ++ [rq]) by reflexivity.
  assert (Hfrom : forall s : State, sent (world st1) `prefix_of` sent (world s) ->
            exists more, sent (world s) = sent (world st) ++ rq :: more).
  { intros s [more ->]. exists more. rewrite Hst1, <- app_assoc. reflexivity. }
  destruct (server _) as [e|resp].
  - destruct (handler e) as [h|] eqn:E.
    + pose proof (Hh e h E st1) as Hp. unfold exec in Hp.
      destruct (h st1) as [[a|e'|] s2]; cbn [snd] in *; try by apply Hfrom.
      apply Hfrom. etrans; first exact Hp. apply (Hk2 a s2).
    + by apply Hfrom.
  - pose proof (Hk resp st1) as Hp. unfold exec in Hp.
    destruct (k resp st1) as [[a|e'|] s2]; cbn [snd] in *; try by apply Hfrom.
    + apply Hfrom. etrans; first exact Hp. apply (Hk2 a s2).
    + destruct (handler e') as [h|] eqn:E; last by apply Hfrom.
      pose proof (Hh e' h E s2) as Hp2. unfold exec in Hp2.
      destruct (h s2) as [[a|e''|] s3]; cbn [snd] in *;
        try (apply Hfrom; etrans; [exact Hp | exact Hp2]).
      apply Hfrom. etrans; first exact Hp. etrans; first exact Hp2. apply (Hk2 a s3).
Qed.

Lemma sent_after_send {A} rq (k : Response -> M A) st :
  (forall resp, appends (k resp)) ->
  exists more, sent (world (exec (send rq ≫= k) st)) = sent (world st) ++ rq :: more.
Proof.
  intros Hk. unfold exec. rewrite bind_run, send_eq. rewrite exec_send.
  set (st1 := mkState _ _).
  destruct (server _) as [e|resp]; cbn [snd].
  - by exists [].
  - destruct (Hk resp st1) as [more Hmore]. exists more.
    unfold exec in Hmore. rewrite Hmore. subst st1. cbn. by rewrite <- app_assoc.
Qed.

End SentFacts.

Section HTTPAttempt.
Context {ext : Externals}.
Local Open Scope Z_scope.

Implicit Types (client : HTTPClient.t) (kwargs : HTTPClient.Kwargs).

Lemma HTTPClient_attempt_sends client rec url method kwargs st :
  (forall u m k, appends (rec u m k)) ->
  exists more,
    sent (world (exec (HTTPClient._http_request_func client rec url method kwargs) st))
    = sent (world st)
      ++ HTTPClient_attempt_request client (os_ironic_api_version (self st))
           url method kwargs :: more.
Proof.
  intros Hrec.
  unfold HTTPClient._http_request_func, HTTPClient.log_curl_request,
    HTTPClient.log_http_response, exec.
  rewrite bind_gets, bind_LOG.
  rewrite <- (sent_LOG DEBUG "curl" st).
  pose proof appends_chunks.
  pose proof (fun conn resp => appends_negotiate_version (HTTPClient.mixin client) conn resp
                (fun c m u => appends_send _)).
  apply sent_starts_with.
  - intros resp. solve_appends.
  - intros e h He. destruct e; try discriminate He; injection He as <-; solve_appends.
  - intros a. solve_appends.
Qed.

Lemma redirect_status (s : Z) :
  s ∈ [301; 302; 305] -> s <> 406 /\ (400 <=? s) && (s <? 600) = false.
Proof.
  rewrite !elem_of_cons, elem_of_nil. intros [-> | [-> | [-> | []]]]; by split.
Qed.

Lemma extract_error_json_fields body fs di :
  error_fields body = Some (fs, di) ->
  exists j, _extract_error_json (Some body) = Ok j
            /\ py_get j "faultstring" = Ok fs /\ py_get j "debuginfo" = Ok di.
Proof.
  unfold error_fields, _extract_error_json, py_json_loads. cbn [mbind result_mbind result_bind].
  destruct (json_loads body) as [[| | | |s|l|items]|]; cbn; try done.
  - destruct (is_infix _ s); first done. intros [= <- <-]. by eexists.
  - destruct (existsb _ l); first done. intros [= <- <-]. by eexists.
  - destruct (dict_get "error_message" items) as [[| | | |raw| |]|] eqn:E;
      cbn; rewrite ?E; cbn; try done.
    + destruct (json_loads raw) as [[| | | | | |inner]|]; cbn; try done.
      * intros [= <- <-]. by eexists.
      * intros [= <- <-]. by eexists.
    + intros [= <- <-]. by eexists.
  - intros [= <- <-]. by eexists.
Qed.

Lemma HTTPClient_error_response client rec url method kwargs st resp fs di :
  server (sent (world st)
          ++ [HTTPClient_attempt_request client (os_ironic_api_version (self st))
                url method kwargs]) = inr resp ->
  400 <= status resp < 600 -> status resp <> 406 ->
  getheader resp "content-type" <> Some "application/octet-stream" ->
  error_fields (payload resp) = Some (fs, di) ->
  HTTPClient._http_request_func client rec url method kwargs st
  = (Raise (from_response resp fs di (Some method) (Some url)),
     exec (LOG WARNING "Request returned failure status")
       (HTTPClient_responded client url method kwargs st)).
Proof.
  intros Hsrv Hrange H406 Hct Hfields.
  destruct (extract_error_json_fields _ _ _ Hfields) as (j & Hj & Hfs & Hdi).
  unfold HTTPClient_responded, HTTPClient_attempt_request in *.
  unfold HTTPClient._http_request_func, HTTPClient.log_curl_request,
    HTTPClient.log_http_response.
  rewrite bind_gets, bind_LOG.
  change (if truthy (HTTPClient.auth_token client) then _ else _)
    with (HTTPClient_attempt_headers client (os_ironic_api_version (self st))
            (HTTPClient.headers kwargs)).
  set (h := HTTPClient_attempt_headers _ _ _) in *.
  cbn [HTTPClient.body].
  set (rq := ConnRequest _ _ _ _ h) in *.
  set (st1 := exec (LOG DEBUG "curl") st).
  assert (Hsend : send rq st1 = (Ok resp, exec (send rq) st1)) by by apply send_Ok.
  erewrite bind_Ok; last first.
  { apply try_except_Ok. erewrite bind_Ok by exact Hsend.
    rewrite (proj2 (Z.eqb_neq _ _)) by done. reflexivity. }
  cbn beta iota. rewrite bool_decide_false by done. cbn [negb].
  destruct (chunks_run resp (exec (send rq) st1)) as (chunks & Hchunks & Hjoin).
  erewrite bind_Ok; last first.
  { erewrite bind_Ok by exact Hchunks. cbn beta iota. rewrite bind_LOG. reflexivity. }
  cbn beta iota. cbn [status].
  rewrite (proj2 (Z.leb_le _ _)), (proj2 (Z.ltb_lt _ _)) by lia. cbn [andb].
  rewrite bind_LOG, Hjoin.
  unfold mbind, M_mbind, lift. rewrite Hj, Hfs, Hdi.
  reflexivity.
Qed.

Lemma HTTPClient_redirect client rec url method kwargs st resp :
  server (sent (world st)
          ++ [HTTPClient_attempt_request client (os_ironic_api_version (self st))
                url method kwargs]) = inr resp ->
  status resp ∈ [301; 302; 305] ->
  HTTPClient._http_request_func client rec url method kwargs st
  = (location ← lift (resp_getitem (HTTPClient_read resp) "location");
     rec location method
       (HTTPClient.mkKwargs
          (Some (HTTPClient_attempt_headers client (os_ironic_api_version (self st))
                   (HTTPClient.headers kwargs)))
          (HTTPClient.body kwargs)))
      (HTTPClient_responded client url method kwargs st).
Proof.
  intros Hsrv Hstatus.
  destruct (redirect_status _ Hstatus) as [H406 Hrange].
  unfold HTTPClient_responded, HTTPClient_attempt_request, HTTPClient_read in *.
  unfold HTTPClient._http_request_func, HTTPClient.log_curl_request,
    HTTPClient.log_http_response.
  rewrite bind_gets, bind_LOG.
  change (if truthy (HTTPClient.auth_token client) then _ else _)
    with (HTTPClient_attempt_headers client (os_ironic_api_version (self st))
            (HTTPClient.headers kwargs)).
  set (h := HTTPClient_attempt_headers _ _ _) in *.
  cbn [HTTPClient.body].
  set (rq := ConnRequest _ _ _ _ h) in *.
  set (st1 := exec (LOG DEBUG "curl") st).
  assert (Hsend : send rq st1 = (Ok resp, exec (send rq) st1)) by by apply send_Ok.
  erewrite bind_Ok; last first.
  { apply try_except_Ok. erewrite bind_Ok by exact Hsend.
    rewrite (proj2 (Z.eqb_neq _ _)) by done. reflexivity. }
  cbn beta iota.
  destruct (bool_decide (getheader resp "content-type" = Some "application/octet-stream")).
  - cbn [negb]. erewrite bind_Ok; last by rewrite bind_LOG.
    cbn beta iota. rewrite Hrange, bool_decide_true by done. reflexivity.
  - cbn [negb].
    destruct (chunks_run resp (exec (send rq) st1)) as (chunks & Hchunks & Hjoin).
    erewrite bind_Ok; last first.
    { erewrite bind_Ok by exact Hchunks. cbn beta iota. rewrite bind_LOG. reflexivity. }
    cbn beta iota. cbn [status]. rewrite Hrange, bool_decide_true by done. reflexivity.
Qed.

End HTTPAttempt.

Section SessionAttempt.
Context {ext : Externals}.
Local Open Scope Z_scope.

Implicit Types (client : SessionClient.t) (kwargs : SessionClient.Kwargs).

(** How an attempt starts: the header dict is updated, then the request goes
    out. *)
Lemma SessionClient_attempt_start client rec url method kwargs st :
  headers_passed kwargs st ->
  SessionClient._http_request_func client rec url method kwargs st
  = (send (SessionClient_attempt_request client url method kwargs st)
     ≫= fun resp =>
          let kwargs := SessionClient_attempt_kwargs client kwargs in
          if status resp =? 406 then
            negotiated_ver ← negotiate_version SessionClient.mixin
                               (SessionClient.session client) resp;
            l ← SessionClient.kwargs_headers kwargs;
            h ← heap_get l;
            heap_put l (<["X-OpenStack-Ironic-API-Version" := negotiated_ver]> h);;
            rec url method kwargs
          else if (400 <=? status resp) && (status resp <? 600) then
            error_json ← lift (_extract_error_json (Some (payload resp)));
            faultstring ← lift (py_get error_json "faultstring");
            debuginfo ← lift (py_get error_json "debuginfo");
            raise (from_response resp faultstring debuginfo (Some method) url)
          else if bool_decide (status resp ∈ [301; 302; 305]) then
            let location := getheader resp "location" in
            resp ← rec location method kwargs;
            mret resp
          else if status resp =? 300 then
            raise (from_response resp None None (Some method) url)
          else mret (Some resp))
      (SessionClient_prepared kwargs st).
Proof.
  intros Hpassed. unfold headers_passed in Hpassed.
  unfold SessionClient._http_request_func. rewrite bind_gets.
  unfold SessionClient_attempt_request, SessionClient_prepared,
    SessionClient_attempt_headers, SessionClient_attempt_kwargs,
    SessionClient.session_request, SessionClient.kwargs_headers.
  cbn [SessionClient.headers SessionClient.data SessionClient.user_agent
       SessionClient.kw_auth SessionClient.endpoint_filter].
  destruct (truthy (os_ironic_api_version (self st))) eqn:Hver.
  - destruct Hpassed as [l Hl]; first done. rewrite Hl. cbn zeta.
    unfold mbind, M_mbind, mret, M_mret, heap_get, heap_put, effect, exec.
    cbn [fst snd world heap self]. rewrite lookup_insert_eq. reflexivity.
  - destruct (SessionClient.headers kwargs) as [l|]; reflexivity.
Qed.

Lemma sent_prepared kwargs st :
  sent (world (SessionClient_prepared kwargs st)) = sent (world st).
Proof.
  unfold SessionClient_prepared.
  destruct (SessionClient.headers kwargs), (SessionClient_attempt_headers kwargs st);
    try done.
  by destruct (truthy _).
Qed.

Lemma SessionClient_attempt_sends client rec url method kwargs st :
  (forall u m k, appends (rec u m k)) ->
  headers_passed kwargs st ->
  exists more,
    sent (world (exec (SessionClient._http_request_func client rec url method kwargs) st))
    = sent (world st) ++ SessionClient_attempt_request client url method kwargs st :: more.
Proof.
  intros Hrec Hpassed. unfold exec at 1.
  rewrite SessionClient_attempt_start by done.
  rewrite <- (sent_prepared kwargs st).
  pose proof (fun conn resp => appends_negotiate_version SessionClient.mixin conn resp
                (fun c m u => appends_send _)).
  apply sent_after_send. intros resp. cbn zeta.
  unfold SessionClient.kwargs_headers. solve_appends.
Qed.

Lemma SessionClient_error_response client rec url method kwargs st resp fs di :
  headers_passed kwargs st ->
  server (sent (world st) ++ [SessionClient_attempt_request client url method kwargs st])
    = inr resp ->
  400 <= status resp < 600 -> status resp <> 406 ->
  error_fields (payload resp) = Some (fs, di) ->
  SessionClient._http_request_func client rec url method kwargs st
  = (Raise (from_response resp fs di (Some method) url),
     exec (send (SessionClient_attempt_request client url method kwargs st))
       (SessionClient_prepared kwargs st)).
Proof.
  intros Hpassed Hsrv Hrange H406 Hfields.
  destruct (extract_error_json_fields _ _ _ Hfields) as (j & Hj & Hfs & Hdi).
  rewrite SessionClient_attempt_start by done.
  erewrite bind_Ok; last by (apply send_Ok; rewrite sent_prepared).
  cbn zeta. rewrite (proj2 (Z.eqb_neq _ _)) by done.
  rewrite (proj2 (Z.leb_le _ _)), (proj2 (Z.ltb_lt _ _)) by lia. cbn [andb].
  unfold mbind, M_mbind, lift. by rewrite Hj, Hfs, Hdi.
Qed.

Lemma SessionClient_redirect client rec url method kwargs st resp :
  headers_passed kwargs st ->
  server (sent (world st) ++ [SessionClient_attempt_request client url method kwargs st])
    = inr resp ->
  status resp ∈ [301; 302; 305] ->
  SessionClient._http_request_func client rec url method kwargs st
  = rec (getheader resp "location") method (SessionClient_attempt_kwargs client kwargs)
      (exec (send (SessionClient_attempt_request client url method kwargs st))
         (SessionClient_prepared kwargs st)).
Proof.
  intros Hpassed Hsrv Hstatus.
  destruct (redirect_status _ Hstatus) as [H406 Hrange].
  rewrite SessionClient_attempt_start by done.
  erewrite bind_Ok; last by (apply send_Ok; rewrite sent_prepared).
  cbn zeta. rewrite (proj2 (Z.eqb_neq _ _)) by done.
  rewrite Hrange, bool_decide_true by done.
  apply (bind_mret_r (rec _ _ _)).
Qed.

Lemma attempt_headers_session kwargs st :
  default ∅ (SessionClient_attempt_headers kwargs st) !! VERSION_HEADER
  = match SessionClient.headers kwargs with
    | Some l => version_header_sent (os_ironic_api_version (self st))
                  (default ∅ (heap (world st) !! l))
    | None => None
    end.
Proof.
  unfold SessionClient_attempt_headers, version_header_sent.
  destruct (SessionClient.headers kwargs) as [l|]; last done. cbn.
  destruct (truthy (os_ironic_api_version (self st))) eqn:Hver.
  - rewrite lookup_setdefault, decide_True by done.
    destruct (default ∅ (heap (world st) !! l) !! VERSION_HEADER); first done.
    symmetry. by apply truthy_Some.
  - by destruct (default ∅ (heap (world st) !! l) !! VERSION_HEADER).
Qed.

End SessionAttempt.

(** * Calls on an instance that stores no version *)

Section Unversioned.
Context {ext : Externals} (l : option loc).

Lemma unversioned_silent {A} (m : M A) (Q : A -> Prop) :
  (forall st, self (exec m st) = self st
              /\ heap (world (exec m st)) = heap (world st)
              /\ sent (world (exec m st)) = sent (world st)) ->
  (forall st a, unversioned l st -> outcome m st = Ok a -> Q a) ->
  stays_unversioned l m Q.
Proof.
  intros Hm HQ st Hst. destruct (Hm st) as (Hself & Hheap & Hsent).
  split; [| split].
  - unfold unversioned. by rewrite Hself, Hheap.
  - exists []. by rewrite Hsent, app_nil_r.
  - intros a. by apply HQ.
Qed.

Lemma unversioned_ret {A} (a : A) (Q : A -> Prop) : Q a -> stays_unversioned l (mret a) Q.
Proof. intros Ha. apply unversioned_silent; first done. by intros st b _ [= <-]. Qed.

Lemma unversioned_raise {A} e (Q : A -> Prop) : stays_unversioned l (raise e) Q.
Proof. by apply unversioned_silent. Qed.

Lemma unversioned_lift {A} (r : result A) (Q : A -> Prop) :
  (forall a, r = Ok a -> Q a) -> stays_unversioned l (lift r) Q.
Proof. intros Hr. apply unversioned_silent; first done. intros st a _. apply Hr. Qed.

Lemma unversioned_gets {A} (f : Attrs -> A) : stays_unversioned l (gets f) (fun _ => True).
Proof. by apply unversioned_silent. Qed.

Lemma unversioned_gets_version :
  stays_unversioned l (gets os_ironic_api_version) (fun ver => truthy ver = false).
Proof. apply unversioned_silent; first done. by intros st a [Hver _] [= <-]. Qed.

Lemma unversioned_heap_get l' :
  l = Some l' ->
  stays_unversioned l (heap_get l') (fun d => d !! VERSION_HEADER = None).
Proof.
  intros Hl. apply unversioned_silent; first done.
  intros st a [_ Hd] [= <-]. by apply Hd.
Qed.

Lemma unversioned_assign f :
  (forall a, os_ironic_api_version (f a) = os_ironic_api_version a) ->
  stays_unversioned l (assign f) (fun _ => True).
Proof.
  intros Hf st [Hver Hl]. split; [| split]; try done.
  - split; last done. cbn. by rewrite Hf.
  - exists []. by rewrite app_nil_r.
Qed.

Lemma unversioned_LOG level msg : stays_unversioned l (LOG level msg) (fun _ => True).
Proof. by apply unversioned_silent. Qed.

Lemma unversioned_time_sleep secs : stays_unversioned l (time_sleep secs) (fun _ => True).
Proof.
  apply unversioned_silent; last done. intros st. unfold exec, time_sleep.
  destruct secs as [t|]; last done. by destruct (t <? 0)%Z.
Qed.

Lemma unversioned_send rq :
  without_version_header rq -> stays_unversioned l (send rq) (fun _ => True).
Proof.
  intros Hrq st Hst. rewrite exec_send. split; [| split]; try done.
  exists [rq]. split; first done. by constructor.
Qed.

Lemma unversioned_bind {A B} (m : M A) (k : A -> M B) (Q1 : A -> Prop) (Q : B -> Prop) :
  stays_unversioned l m Q1 -> (forall a, Q1 a -> stays_unversioned l (k a) Q) ->
  stays_unversioned l (m ≫= k) Q.
Proof.
  intros Hm Hk st Hst. destruct (Hm st Hst) as (Hst1 & (more1 & Hsent1 & Hmore1) & HQ1).
  unfold exec, outcome, mbind, M_mbind in *.
  destruct (m st) as [[a|e|] st1]; cbn [fst snd] in *.
  - destruct (Hk a (HQ1 a eq_refl) st1 Hst1) as (Hst2 & (more2 & Hsent2 & Hmore2) & HQ).
    unfold exec, outcome in *. split; [done | split; [| done]].
    exists (more1 ++ more2). rewrite Hsent2, Hsent1, app_assoc. split; first done.
    by apply Forall_app.
  - split; [done | split; [by exists more1 | done]].
  - split; [done | split; [by exists more1 | done]].
Qed.

Lemma unversioned_try_except {A} (block : M A) handler (Q : A -> Prop) :
  stays_unversioned l block Q ->
  (forall e h, handler e = Some h -> stays_unversioned l h Q) ->
  stays_unversioned l (try_except block handler) Q.
Proof.
  intros Hb Hh st Hst. destruct (Hb st Hst) as (Hst1 & (more1 & Hsent1 & Hmore1) & HQ1).
  unfold exec, outcome, try_except in *.
  destruct (block st) as [[a|e|] st1]; cbn [fst snd] in *.
  - split; [done | split; [by exists more1 | done]].
  - destruct (handler e) as [h|] eqn:E.
    + destruct (Hh e h E st1 Hst1) as (Hst2 & (more2 & Hsent2 & Hmore2) & HQ).
      unfold exec, outcome in *. split; [done | split; [| done]].
      exists (more1 ++ more2). rewrite Hsent2, Hsent1, app_assoc. split; first done.
      by apply Forall_app.
    + split; [done | split; [by exists more1 | done]].
  - split; [done | split; [by exists more1 | done]].
Qed.

End Unversioned.

Ltac unversioned_step :=
  lazymatch goal with
  | |- stays_unversioned _ (mbind _ (gets os_ironic_api_version)) _ =>
      eapply unversioned_bind; [apply unversioned_gets_version | intros ? ?]
  | |- stays_unversioned _ (mbind _ (heap_get _)) _ =>
      eapply unversioned_bind; [apply unversioned_heap_get; eassumption | intros ? ?]
  | |- stays_unversioned _ (mbind _ _) _ =>
      eapply (unversioned_bind _ _ _ (fun _ => True)); [| intros ? _]
  | |- stays_unversioned _ (try_except _ _) _ =>
      apply unversioned_try_except; [| intros ? ? ?]
  | |- stays_unversioned _ (if ?b then _ else _) _ => destruct b
  | |- stays_unversioned _ (match ?x with _ => _ end) _ => destruct x
  | |- stays_unversioned _ (mret _) _ => apply unversioned_ret; exact I
  | |- stays_unversioned _ (raise _) _ => apply unversioned_raise
  | |- stays_unversioned _ (lift _) (fun _ => True) => by apply unversioned_lift
  | |- stays_unversioned _ (gets _) _ => apply unversioned_gets
  | |- stays_unversioned _ (LOG _ _) _ => apply unversioned_LOG
  | |- stays_unversioned _ (time_sleep _) _ => apply unversioned_time_sleep
  | |- stays_unversioned _ (assign _) _ => apply unversioned_assign; by intros []
  end.
Ltac solve_unversioned := repeat unversioned_step.

Section UnversionedCode.
Context {ext : Externals} (l : option loc).

(** Without a stored version the comparison of the versions fails. *)
Lemma negotiated_unversioned req mn mx v :
  truthy req = false -> negotiated req mn mx <> Ok v.
Proof.
  intros Hreq. unfold negotiated.
  assert (StrictVersion.init req = Ok None) as ->
    by (unfold StrictVersion.init; by rewrite Hreq).
  by destruct (StrictVersion.init mx) as [[b|]| |].
Qed.

(** A negotiation on an instance with no stored version never succeeds. *)
Lemma unversioned_negotiate_version {Conn} (cls : VersionNegotiationMixin Conn) conn resp :
  (forall c m u, stays_unversioned l (_make_simple_request cls c m u) (fun _ => True)) ->
  stays_unversioned l (negotiate_version cls conn resp) (fun _ => False).
Proof.
  intros Hp. unfold negotiate_version.
  unversioned_step; first solve_unversioned.
  destruct (negb _); first apply unversioned_raise.
  destruct (_parse_version_headers cls resp) as [mn mx].
  eapply (unversioned_bind _ _ _ (fun _ => True)).
  { destruct (negb (truthy mx)); solve_unversioned. apply Hp. }
  intros [mn' mx'] _.
  unversioned_step; first solve_unversioned.
  eapply unversioned_bind; first apply unversioned_gets_version.
  intros req Hreq.
  destruct (String.eqb _ "user"); first apply unversioned_raise.
  destruct (String.eqb _ "negotiated"); first apply unversioned_raise.
  eapply (unversioned_bind _ _ _ (fun _ => False)); last by intros ? [].
  apply unversioned_lift. intros v Hv.
  by apply (negotiated_unversioned req None mx' v).
Qed.

Lemma unversioned_with_retries {U K R} (func : U -> string -> K -> M (option R))
    url method kwargs :
  stays_unversioned l (func url method kwargs) (fun _ => True) ->
  stays_unversioned l (with_retries func url method kwargs) (fun _ => True).
Proof.
  intros Hf.
  assert (Hloop : forall n attempts,
            stays_unversioned l (retry_loop func url method kwargs n attempts)
              (fun _ => True)).
  { intros n attempts.
    induction attempts as [|a rest IH]; cbn [retry_loop]; first solve_unversioned.
    apply unversioned_try_except; first exact Hf.
    intros e h He. destruct (is_retry_exception e); last discriminate.
    injection He as <-. solve_unversioned. exact IH. }
  unfold with_retries. solve_unversioned. apply Hloop.
Qed.

Lemma unversioned_chunks resp :
  stays_unversioned l (ResponseBodyIterator.chunks resp) (fun _ => True).
Proof. unfold ResponseBodyIterator.chunks. solve_unversioned. Qed.

(** The headers of an attempt of [HTTPClient] have the version header only
    from the caller or from the stored version. *)
Lemma attempt_headers_unversioned client ver h0 :
  truthy ver = false -> default ∅ h0 !! VERSION_HEADER = None ->
  HTTPClient_attempt_headers client ver h0 !! VERSION_HEADER = None.
Proof.
  intros Hver Hh0. rewrite attempt_headers_version. unfold version_header_sent.
  by rewrite Hh0, Hver.
Qed.

Lemma unversioned_HTTPClient_func client rec url method kwargs :
  (forall u m k, default ∅ (HTTPClient.headers k) !! VERSION_HEADER = None ->
                 stays_unversioned l (rec u m k) (fun _ => True)) ->
  default ∅ (HTTPClient.headers kwargs) !! VERSION_HEADER = None ->
  stays_unversioned l (HTTPClient._http_request_func client rec url method kwargs)
    (fun _ => True).
Proof.
  intros Hrec Hh0.
  unfold HTTPClient._http_request_func, HTTPClient.log_curl_request,
    HTTPClient.log_http_response.
  eapply unversioned_bind; first apply unversioned_gets_version.
  intros ver Hver.
  pose proof (attempt_headers_unversioned client ver (HTTPClient.headers kwargs) Hver Hh0)
    as Hh.
  pose proof unversioned_chunks as Hchunks.
  unversioned_step; first solve_unversioned.
  unversioned_step.
  - apply unversioned_try_except.
    + unversioned_step; first by apply unversioned_send.
      destruct (_ =? 406)%Z; last solve_unversioned.
      eapply (unversioned_bind _ _ _ (fun _ => False)); last by intros ? [].
      apply unversioned_negotiate_version. intros c m u.
      by apply unversioned_send.
    + intros e h He. destruct e; try discriminate He; injection He as <-;
        apply unversioned_raise.
  - solve_unversioned; try apply Hchunks; by apply Hrec.
Qed.

Lemma unversioned_HTTPClient_http_request fuel client : forall url method kwargs,
  default ∅ (HTTPClient.headers kwargs) !! VERSION_HEADER = None ->
  stays_unversioned l (HTTPClient._http_request fuel client url method kwargs)
    (fun _ => True).
Proof.
  induction fuel as [|fuel IH]; intros url method kwargs Hh0;
    cbn [HTTPClient._http_request].
  - solve_unversioned.
  - apply unversioned_with_retries. by apply unversioned_HTTPClient_func.
Qed.

End UnversionedCode.

Section UnversionedSession.
Context {ext : Externals}.

Lemma unversioned_SessionClient_func client rec url method kwargs :
  (forall u m k, SessionClient.headers k = SessionClient.headers kwargs ->
                 stays_unversioned (SessionClient.headers kwargs) (rec u m k)
                   (fun _ => True)) ->
  stays_unversioned (SessionClient.headers kwargs)
    (SessionClient._http_request_func client rec url method kwargs) (fun _ => True).
Proof.
  intros Hrec.
  unfold SessionClient._http_request_func, SessionClient.session_request.
  eapply unversioned_bind; first apply unversioned_gets_version.
  intros ver Hver. rewrite Hver.
  unversioned_step; first solve_unversioned.
  cbn [SessionClient.headers SessionClient.data SessionClient.user_agent
       SessionClient.kw_auth SessionClient.endpoint_filter].
  unversioned_step.
  - eapply (unversioned_bind _ _ _ (fun h => default ∅ h !! VERSION_HEADER = None));
      last by intros h Hh; apply unversioned_send.
    destruct (SessionClient.headers kwargs) as [l'|] eqn:Hl.
    + eapply unversioned_bind; first by apply unversioned_heap_get.
      intros d Hd. by apply unversioned_ret.
    + by apply unversioned_ret.
  - destruct (_ =? 406)%Z.
    + eapply (unversioned_bind _ _ _ (fun _ => False)); last by intros ? [].
      apply unversioned_negotiate_version. intros c m u.
      apply unversioned_send. apply lookup_empty.
    + solve_unversioned; by apply Hrec.
Qed.

Lemma unversioned_SessionClient_http_request fuel client : forall url method kwargs,
  stays_unversioned (SessionClient.headers kwargs)
    (SessionClient._http_request fuel client url method kwargs) (fun _ => True).
Proof.
  induction fuel as [|fuel IH]; intros url method kwargs;
    cbn [SessionClient._http_request].
  - solve_unversioned.
  - apply unversioned_with_retries. apply unversioned_SessionClient_func.
    intros u m k <-. apply IH.
Qed.

End UnversionedSession.

(** * Status classification *)

Section ExecutorTheorems.
Context {ext : Externals}.
Local Open Scope Z_scope.

(** C5, as amended.  A response with a status from 400 to 599 other than 406
    (which starts the version negotiation): when its body is an envelope whose
    [error_message] is the text of a JSON object, the attempt raises the typed
    error that carries the [faultstring] and [debuginfo] of that object with
    the status, the method and the URL; when the body is not JSON, or is JSON
    with no [error_message] in it, or has an [error_message] string that is
    not JSON, the attempt raises the error of the status alone.  For
    [HTTPClient] this is for the responses it reads, those not declared as
    [application/octet-stream]. *)
Theorem error_response_raises_typed_error :
  (forall client rec url method kwargs st resp fs di,
     server (sent (world st)
             ++ [HTTPClient_attempt_request client (os_ironic_api_version (self st))
                   url method kwargs]) = inr resp ->
     400 <= status resp < 600 -> status resp <> 406 ->
     getheader resp "content-type" <> Some "application/octet-stream" ->
     error_fields (payload resp) = Some (fs, di) ->
     outcome (HTTPClient._http_request_func client rec url method kwargs) st
     = Raise (from_response resp fs di (Some method) (Some url)))
  /\ (forall client rec url method kwargs st resp fs di,
        headers_passed kwargs st ->
        server (sent (world st)
                ++ [SessionClient_attempt_request client url method kwargs st])
          = inr resp ->
        400 <= status resp < 600 -> status resp <> 406 ->
        error_fields (payload resp) = Some (fs, di) ->
        outcome (SessionClient._http_request_func client rec url method kwargs) st
        = Raise (from_response resp fs di (Some method) url)).
Proof.
  split.
  - intros client rec url method kwargs st resp fs di Hsrv Hrange H406 Hct Hfields.
    unfold outcome. by erewrite HTTPClient_error_response.
  - intros client rec url method kwargs st resp fs di Hpassed Hsrv Hrange H406 Hfields.
    unfold outcome. by erewrite SessionClient_error_response.
Qed.

(** C8, as amended.  Every request a call of either executor issues
    carries the version header only if the instance stores a version or the
    caller's headers have it: a call on an instance whose stored version is
    empty, with headers that do not have the header, adds to the record only
    requests without it, whatever is retried, asked of the server in a
    negotiation or sent again.  On the request an attempt itself sends, the
    header has the value the caller put in the headers, if any, else the
    stored version if that is not empty; and the instance [HTTPClient] builds
    when no version is passed stores [DEFAULT_VER] in state 'default'. *)
Theorem version_header_follows_stored_version :
  (forall fuel client url method kwargs st,
     truthy (os_ironic_api_version (self st)) = false ->
     default ∅ (HTTPClient.headers kwargs) !! VERSION_HEADER = None ->
     exists more,
       sent (world (exec (HTTPClient._http_request fuel client url method kwargs) st))
       = sent (world st) ++ more
       /\ Forall without_version_header more)
  /\ (forall fuel client url method kwargs st,
        truthy (os_ironic_api_version (self st)) = false ->
        (forall l, SessionClient.headers kwargs = Some l ->
           default ∅ (heap (world st) !! l) !! VERSION_HEADER = None) ->
        exists more,
          sent (world (exec (SessionClient._http_request fuel client url method kwargs) st))
          = sent (world st) ++ more
          /\ Forall without_version_header more)
  /\ (forall client rec url method kwargs st,
        (forall u m k, appends (rec u m k)) ->
        exists rq more,
          sent (world (exec (HTTPClient._http_request_func client rec url method kwargs) st))
          = sent (world st) ++ rq :: more
          /\ request_method rq = method
          /\ request_headers rq !! VERSION_HEADER
             = version_header_sent (os_ironic_api_version (self st))
                 (default ∅ (HTTPClient.headers kwargs)))
  /\ (forall client rec url method kwargs st,
        (forall u m k, appends (rec u m k)) ->
        headers_passed kwargs st ->
        exists rq more,
          sent (world (exec (SessionClient._http_request_func client rec url method kwargs)
                         st))
          = sent (world st) ++ rq :: more
          /\ request_method rq = method
          /\ request_headers rq !! VERSION_HEADER
             = match SessionClient.headers kwargs with
               | Some l => version_header_sent (os_ironic_api_version (self st))
                             (default ∅ (heap (world st) !! l))
               | None => None
               end)
  /\ (forall endpoint attrs client,
        HTTPClient.__init__ endpoint HTTPClient.no_kwargs = Ok (attrs, client) ->
        os_ironic_api_version attrs = Some DEFAULT_VER
        /\ api_version_select_state attrs = "default").
Proof.
  split_and!.
  - intros fuel client url method kwargs st Hver Hh0.
    apply (unversioned_HTTPClient_http_request None fuel client url method kwargs Hh0 st).
    by split.
  - intros fuel client url method kwargs st Hver Hh0.
    apply (unversioned_SessionClient_http_request fuel client url method kwargs st).
    by split.
  - intros client rec url method kwargs st Hrec.
    destruct (HTTPClient_attempt_sends client rec url method kwargs st Hrec)
      as [more Hmore].
    eexists _, more. split; [exact Hmore | split; [reflexivity |]].
    apply attempt_headers_version.
  - intros client rec url method kwargs st Hrec Hpassed.
    destruct (SessionClient_attempt_sends client rec url method kwargs st Hrec Hpassed)
      as [more Hmore].
    eexists _, more. split; [exact Hmore | split; [reflexivity |]].
    apply attempt_headers_session.
  - intros [url|] attrs client; last done.
    unfold HTTPClient.__init__. cbn [HTTPClient.kw_os_ironic_api_version
      HTTPClient.kw_api_version_select_state HTTPClient.no_kwargs default].
    destruct (HTTPClient.get_connection_params url _) as [params| |]; try done.
    by intros [= <- <-].
Qed.

End ExecutorTheorems.

(** The body of the specification's example, on a 500: the error carries
    'boom' and 'trace'. *)
Lemma error_response_raises_typed_error_witness :
  let ext := Fixtures.externals [inr Fixtures.server_error] in
  outcome (HTTPClient._http_request_func Fixtures.http_client
             (HTTPClient._http_request 1 Fixtures.http_client)
             "/v1/nodes" "POST" Fixtures.post_node) Fixtures.start
  = Raise (HTTPError (mkErrorInfo 500 (Some (JStr "boom")) (Some (JStr "trace"))
                        (Some "POST") (Some "/v1/nodes"))).
Proof.
  intros ext.
  destruct error_response_raises_typed_error as [Hhttp _].
  apply (Hhttp Fixtures.http_client (HTTPClient._http_request 1 Fixtures.http_client)
           "/v1/nodes" "POST" Fixtures.post_node Fixtures.start Fixtures.server_error
           (Some (JStr "boom")) (Some (JStr "trace"))).
  - vm_compute. reflexivity.
  - cbn. lia.
  - cbn. lia.
  - vm_compute. discriminate.
  - vm_compute. reflexivity.
Defined.

(** C5 as stated fails on a 406: the client built with no keyword argument
    gets a 406 with the version range, negotiates, sends the request again and
    returns the 200 that answers it; no error is raised for the 406. *)
Lemma not_acceptable_is_renegotiated :
  let ext := Fixtures.externals
               [inr (Fixtures.not_acceptable "1.1" "1.31"); inr Fixtures.ok_response] in
  let run := HTTPClient._http_request 2 Fixtures.http_client "/v1/nodes" "GET"
               Fixtures.get_nodes in
  server [HTTPClient_attempt_request Fixtures.http_client (Some "1.9") "/v1/nodes" "GET"
            Fixtures.get_nodes]
  = inr (Fixtures.not_acceptable "1.1" "1.31")
  /\ (400 <= status (Fixtures.not_acceptable "1.1" "1.31") < 600)%Z
  /\ outcome run Fixtures.start
     = Ok (Some (mkResponse 200 [("Content-Type", "application/json")] "",
                 StringIO "{}"))
  /\ map request_method (sent (world (exec run Fixtures.start))) = ["GET"; "GET"].
Proof. vm_compute. repeat split; discriminate. Qed.

(** A client built with [os_ironic_api_version=None]: the request, and the
    GET of the negotiation a 406 sets off, go out without the version header.
    The client built with no keyword argument sends the default version. *)
Lemma version_header_follows_stored_version_witness :
  let ext := Fixtures.externals
               [inr Fixtures.bare_not_acceptable;
                inr (Fixtures.version_root "1.1" "1.31")] in
  let st := mkState (set_os_ironic_api_version None Fixtures.attrs) Fixtures.empty_world in
  let run := HTTPClient._http_request 2 Fixtures.http_client "/v1/nodes" "GET"
               Fixtures.get_nodes in
  (Forall without_version_header (sent (world (exec run st)))
   /\ length (sent (world (exec run st))) = 2%nat)
  /\ exists rq more,
       sent (world (exec (HTTPClient._http_request_func Fixtures.http_client
                            (HTTPClient._http_request 1 Fixtures.http_client)
                            "/v1/nodes" "GET" Fixtures.get_nodes) Fixtures.start))
       = rq :: more
       /\ request_headers rq !! VERSION_HEADER = Some "1.9".
Proof.
  intros ext st run.
  destruct version_header_follows_stored_version as (Hall & _ & Hhttp & _).
  split.
  - destruct (Hall 2%nat Fixtures.http_client "/v1/nodes" "GET" Fixtures.get_nodes st
                eq_refl eq_refl) as (more & Hsent & Hmore).
    fold run in Hsent. rewrite Hsent. split; first exact Hmore.
    rewrite <- Hsent. vm_compute. reflexivity.
  - destruct (Hhttp Fixtures.http_client (HTTPClient._http_request 1 Fixtures.http_client)
                "/v1/nodes" "GET" Fixtures.get_nodes Fixtures.start
                (appends_HTTPClient_http_request 1 Fixtures.http_client))
      as (rq & more & Hsent & _ & Hheader).
    exists rq, more. split; [exact Hsent | exact Hheader].
Defined.

(** C8 as stated fails on the client built with no keyword argument: no
    caller pinned a version, nothing was negotiated (the state is 'default',
    nothing was sent before), and its first request carries the version header,
    with [DEFAULT_VER]. *)
Lemma default_client_sends_version_header :
  let ext := Fixtures.externals [inr Fixtures.ok_response] in
  let run := HTTPClient._http_request 1 Fixtures.http_client "/v1/nodes" "GET"
               Fixtures.get_nodes in
  HTTPClient.__init__ (Some Fixtures.endpoint_url) HTTPClient.no_kwargs
  = Ok (Fixtures.attrs, Fixtures.http_client)
  /\ HTTPClient.kw_os_ironic_api_version HTTPClient.no_kwargs = None
  /\ api_version_select_state Fixtures.attrs = "default"
  /\ sent (world Fixtures.start) = []
  /\ map (fun rq => request_headers rq !! VERSION_HEADER)
       (sent (world (exec run Fixtures.start))) = [Some "1.9"].
Proof. vm_compute. repeat split. Qed.

(** * Redirects *)

(** C4, at the input where [HTTPClient] departs from it.  A POST answered
    by a 302 with a [Location]: the response object of a raw connection has no
    item access, [resp['location']] raises, and the original POST is all that
    was sent.  The same exchange through [SessionClient], which reads
    [resp.headers.get('location')], sends the POST again, same method and same
    body, to the location. *)
Theorem HTTPClient_redirect_is_not_followed :
  let ext := Fixtures.externals [inr (Fixtures.found "/v1/other"); inr Fixtures.ok_response] in
  let raw := HTTPClient._http_request 2 Fixtures.http_client "/v1/nodes" "POST"
               Fixtures.post_node in
  let keystone := SessionClient._http_request 2 Fixtures.session_client
                    (Some "/v1/nodes") "POST" Fixtures.session_post in
  let summary rq :=
    (request_method rq, request_body rq,
     match rq with
     | ConnRequest _ _ url _ _ => Some url
     | SessionRequest url _ _ _ _ _ _ => url
     end) in
  outcome raw Fixtures.start = Raise AttributeError
  /\ map summary (sent (world (exec raw Fixtures.start)))
     = [("POST", Some "{}", Some "/v1/nodes")]
  /\ outcome keystone Fixtures.start_with_headers = Ok (Some Fixtures.ok_response)
  /\ map summary (sent (world (exec keystone Fixtures.start_with_headers)))
     = [("POST", Some "{}", Some "/v1/nodes"); ("POST", Some "{}", Some "/v1/other")].
Proof. vm_compute. repeat split. Qed.

(** * Endpoint trimming *)

(** C9, at the inputs where the code departs from it.  [rstrip] takes a set
    of characters, not a suffix: a path whose last segment ends in '/', 'v' or
    '1' loses those characters whether or not it ends in [/v1], and two
    trailing [/v1] segments both go. *)
Theorem trim_endpoint_strips_characters :
  let ext := Fixtures.externals [] in
  _trim_endpoint_api_version "/api1/v1" = "/api"
  /\ trim_spec "/api1/v1" = "/api1"
  /\ _trim_endpoint_api_version "/dev1/" = "/de"
  /\ trim_spec "/dev1/" = "/dev1"
  /\ _trim_endpoint_api_version "/v1/v1" = ""
  /\ trim_spec "/v1/v1" = "/v1"
  /\ ((fun params => params.1.2) <$>
        HTTPClient.get_connection_params "http://ironic.example.com:6385/api1/v1"
          HTTPClient.no_kwargs)
     = Ok (Some "ironic.example.com", Some 6385%Z, "/api")
  /\ (HTTPClient.endpoint_trimmed ∘ snd <$>
        HTTPClient.__init__ (Some "http://10.0.0.1/v1") HTTPClient.no_kwargs)
     = Ok "http://10.0.0.".
Proof. vm_compute. repeat split. Qed.

(** * Remarks on what the amended statements leave out *)

(** The extraction raises on a body that is absent, and on JSON that is
    neither an object, a list nor a string: only [ValueError] is caught. *)
Remark extract_error_json_raises {ext : Externals} :
  _extract_error_json None = Raise TypeError
  /\ (forall body, json_loads body = Some JNone ->
        _extract_error_json (Some body) = Raise TypeError)
  /\ (forall body z, json_loads body = Some (JInt z) ->
        _extract_error_json (Some body) = Raise TypeError)
  /\ (forall body items z,
        json_loads body = Some (JDict items) ->
        dict_get "error_message" items = Some (JInt z) ->
        _extract_error_json (Some body) = Raise TypeError).
Proof.
  split; [done | split; [| split]].
  - intros body Hb. unfold _extract_error_json, py_json_loads. by rewrite Hb.
  - intros body z Hb. unfold _extract_error_json, py_json_loads. by rewrite Hb.
  - intros body items z Hb Hm. unfold _extract_error_json, py_json_loads.
    rewrite Hb. unfold py_contains, py_getitem, mbind, result_mbind, result_bind.
    by rewrite Hm, bool_decide_true by eauto.
Qed.

(** A 500 declared as binary data, through [HTTPClient]: the body is not
    read, the extraction is given [None], and [TypeError] comes out instead of
    the error of the status. *)
Remark binary_error_response_raises_TypeError :
  let ext := Fixtures.externals
               [inr (mkResponse 500 [("Content-Type", "application/octet-stream")] "x")] in
  outcome (HTTPClient._http_request 1 Fixtures.http_client "/v1/nodes" "GET"
             Fixtures.get_nodes) Fixtures.start
  = Raise TypeError.
Proof. vm_compute. reflexivity. Qed.

(** Were the response of a raw connection to give its headers by item
    access, [HTTPClient] would send the POST again as [SessionClient] does. *)
Remark HTTPClient_redirect_with_item_access :
  let ext := {| json_loads := Fixtures.table_json_loads;
                urlparse := Fixtures.simple_urlparse;
                resp_getitem := Fixtures.header_getitem;
                server := Fixtures.scripted
                            [inr (Fixtures.found "/v1/other"); inr Fixtures.ok_response] |} in
  let raw := HTTPClient._http_request 2 Fixtures.http_client "/v1/nodes" "POST"
               Fixtures.post_node in
  map (fun rq => (request_method rq, request_body rq))
    (sent (world (exec raw Fixtures.start)))
  = [("POST", Some "{}"); ("POST", Some "{}")].
Proof. vm_compute. reflexivity. Qed.

(** With a negative [max_retries] the wrapper makes no attempt at all and
    returns [None]. *)
Remark with_retries_negative {U K R} (func : U -> string -> K -> M (option R))
    url method kwargs st (N : Z) :
  (N < 0)%Z -> conflict_max_retries (self st) = Some N ->
  with_retries func url method kwargs st
  = (Ok None, mkState (retry_defaults (self st)) (world st)).
Proof.
  intros HN Hmax. rewrite with_retries_unfold. cbn zeta. rewrite Hmax.
  cbn [default from_option id].
  assert (py_range 1 (N + 1 + 1)%Z = []) as ->; last done.
  unfold py_range. by replace (Z.to_nat _) with 0%nat by lia.
Qed.


(** * Endpoint trimming, in general *)

Section StripFacts.
Implicit Types (s chars : string).

Lemma rstrip_cons chars c r :
  rstrip chars (String c r) =
    match rstrip chars r with
    | EmptyString => if in_chars c chars then EmptyString else String c EmptyString
    | r' => String c r'
    end.
Proof. reflexivity. Qed.

Lemma rstrip_split chars s :
  exists tail, s = rstrip chars s +:+ tail /\ all_in_chars chars tail = true.
Proof.
  induction s as [|c r (tail & Hr & Ht)].
  - by exists "".
  - rewrite rstrip_cons. destruct (rstrip chars r) as [|x r'] eqn:E.
    + destruct (in_chars c chars) eqn:Hc.
      * exists (String c tail). split.
        -- by rewrite Hr at 1.
        -- unfold all_in_chars in *. cbn. by rewrite Hc.
      * exists tail. split; last done. by rewrite Hr at 1.
    + exists tail. split; last done. by rewrite Hr at 1.
Qed.

Lemma rstrip_last chars s c :
  str_last (rstrip chars s) = Some c -> in_chars c chars = false.
Proof.
  induction s as [|x r IH]; first done.
  rewrite rstrip_cons. destruct (rstrip chars r) as [|y r'] eqn:E.
  - destruct (in_chars x chars) eqn:Hx; first done.
    cbn. by intros [= <-].
  - intros H. apply IH. exact H.
Qed.

Lemma rstrip_fixed chars s :
  (forall c, str_last s = Some c -> in_chars c chars = false) ->
  rstrip chars s = s.
Proof.
  induction s as [|x r IH]; first done.
  intros H. rewrite rstrip_cons. destruct r as [|y r'].
  - cbn. by rewrite (H x eq_refl).
  - rewrite IH; first done. intros c Hc. by apply H.
Qed.

Lemma rstrip_idempotent chars s : rstrip chars (rstrip chars s) = rstrip chars s.
Proof. apply rstrip_fixed. intros c. apply rstrip_last. Qed.

Lemma rstrip_subsumed chars chars' s :
  (forall c, in_chars c chars = true -> in_chars c chars' = true) ->
  rstrip chars' (rstrip chars s) = rstrip chars' s.
Proof.
  intros Hsub. induction s as [|c r IH]; first done.
  rewrite (rstrip_cons chars), (rstrip_cons chars').
  destruct (rstrip chars r) as [|x a] eqn:E.
  - cbn in IH. rewrite <- IH.
    destruct (in_chars c chars) eqn:Hc.
    + by rewrite (Hsub c Hc).
    + reflexivity.
  - rewrite rstrip_cons, IH. reflexivity.
Qed.

Lemma lstrip_first chars s c r :
  lstrip chars s = String c r -> in_chars c chars = false.
Proof.
  induction s as [|x s IH]; first done.
  cbn. destruct (in_chars x chars) eqn:Hx; first done.
  by intros [= <- <-].
Qed.

Lemma lstrip_prepend chars c s :
  in_chars c chars = true -> lstrip chars (String c s) = lstrip chars s.
Proof. intros H. cbn. by rewrite H. Qed.

End StripFacts.

(** The trimmed endpoint ends in none of the characters that are stripped. *)
Lemma trim_endpoint_strips_trailing_run_last (url : string) (c : ascii) :
  str_last (_trim_endpoint_api_version url) = Some c -> in_chars c "/v1" = false.
Proof. unfold _trim_endpoint_api_version, API_VERSION. apply rstrip_last. Qed.

(** X1.  [_trim_endpoint_api_version] takes off the longest run of trailing
    characters among '/', 'v' and '1', and nothing else: the result is the
    URL without a tail made of those three characters only, it does not end
    in one of them, and trimming it again changes nothing. *)
Theorem trim_endpoint_strips_trailing_run (url : string) :
  let trimmed := _trim_endpoint_api_version url in
  trimmed = rstrip "/v1" url
  /\ (exists tail, url = trimmed +:+ tail /\ all_in_chars "/v1" tail = true)
  /\ (forall c, str_last trimmed = Some c -> in_chars c "/v1" = false)
  /\ _trim_endpoint_api_version trimmed = trimmed.
Proof.
  assert (Hsub : forall c, in_chars c "/" = true -> in_chars c "/v1" = true).
  { intros c. unfold in_chars. cbn. destruct (Ascii.eqb c "/"); by cbn. }
  assert (Heq : _trim_endpoint_api_version url = rstrip "/v1" url).
  { unfold _trim_endpoint_api_version, API_VERSION. by apply rstrip_subsumed. }
  cbn zeta. rewrite Heq. split; first done. split; [|split].
  - apply rstrip_split.
  - apply rstrip_last.
  - unfold _trim_endpoint_api_version, API_VERSION.
    rewrite rstrip_subsumed by done. apply rstrip_idempotent.
Qed.


(** * Connection parameters *)

Section Endpoints.
Context {ext : Externals}.
Local Open Scope Z_scope.

Lemma init_connection_params endpoint kwargs attrs client :
  HTTPClient.__init__ (Some endpoint) kwargs = Ok (attrs, client) ->
  HTTPClient.get_connection_params endpoint kwargs
  = Ok (HTTPClient.connection_params client)
  /\ HTTPClient.endpoint_trimmed client = _trim_endpoint_api_version endpoint.
Proof.
  unfold HTTPClient.__init__.
  destruct (HTTPClient.get_connection_params endpoint kwargs) as [params| |]; try done.
  cbn. by intros [= <- <-].
Qed.

Lemma connection_params_path endpoint kwargs _class h p base kw :
  HTTPClient.get_connection_params endpoint kwargs = Ok (_class, (h, p, base), kw) ->
  base = _trim_endpoint_api_version (path (urlparse endpoint)).
Proof.
  unfold HTTPClient.get_connection_params.
  destruct (port (urlparse endpoint)) as [p0| |]; try done. cbn.
  destruct (String.eqb (scheme (urlparse endpoint)) "https").
  - by intros [= _ _ _ <- _].
  - destruct (String.eqb (scheme (urlparse endpoint)) "http"); last done.
    by intros [= _ _ _ <- _].
Qed.

(** X2.  On a client that [__init__] built, [_make_connection_url] gives the
    trimmed path of the endpoint, one '/', and the URL without its leading
    slashes.  The trimmed path does not end in '/' and the rest does not
    start with one, so exactly one slash joins them, and a leading slash on
    the URL makes no difference. *)
Theorem connection_url_joins_with_one_slash endpoint kwargs attrs client url :
  HTTPClient.__init__ (Some endpoint) kwargs = Ok (attrs, client) ->
  let base := _trim_endpoint_api_version (path (urlparse endpoint)) in
  HTTPClient._make_connection_url client url = base +:+ "/" +:+ lstrip "/" url
  /\ str_last base <> Some "/"%char
  /\ str_first (lstrip "/" url) <> Some "/"%char
  /\ HTTPClient._make_connection_url client ("/" +:+ url)
     = HTTPClient._make_connection_url client url.
Proof.
  intros Hinit base.
  destruct (init_connection_params _ _ _ _ Hinit) as [Hparams _].
  unfold HTTPClient._make_connection_url.
  destruct (HTTPClient.connection_params client) as [[_class [[h p] b]] kw].
  apply connection_params_path in Hparams. fold base in Hparams. subst b.
  split_and!; try reflexivity.
  - intros Hlast.
    by pose proof (trim_endpoint_strips_trailing_run_last _ _ Hlast).
  - destruct (lstrip "/" url) as [|c r] eqn:E; first done.
    apply lstrip_first in E. cbn. intros [= ->]. done.
Qed.

(** X3.  [get_connection_params], called with a timeout that is absent or
    an integer, follows the scheme of the endpoint.  A port that does not
    parse raises what [urlparse] raises; [https] gives
    [VerifiedHTTPSConnection] with the CA file, the certificate, the key and
    the [insecure] flag (false when absent) next to the timeout; [http] gives
    [HTTPConnection] with a timeout alone, the TLS options dropped; any other
    scheme raises [EndpointException], out of the constructor too. *)
Theorem connection_class_follows_the_scheme endpoint kwargs :
  let parts := urlparse endpoint in
  let r := HTTPClient.get_connection_params endpoint kwargs in
  let args p := (hostname parts, p, _trim_endpoint_api_version (path parts)) in
  (forall e, port parts = Raise e -> r = Raise e)
  /\ (forall p, port parts = Ok p -> scheme parts = "https" ->
        exists timeout,
          r = Ok (VerifiedHTTPSConnection, args p,
                  mkConnKwargs timeout (HTTPClient.kw_ca_file kwargs)
                    (HTTPClient.kw_cert_file kwargs) (HTTPClient.kw_key_file kwargs)
                    (default false (HTTPClient.kw_insecure kwargs))))
  /\ (forall p, port parts = Ok p -> scheme parts = "http" ->
        exists timeout,
          r = Ok (HTTPConnection, args p, mkConnKwargs timeout None None None false))
  /\ (forall p, port parts = Ok p -> scheme parts <> "https" -> scheme parts <> "http" ->
        r = Raise EndpointException
        /\ HTTPClient.__init__ (Some endpoint) kwargs = Raise EndpointException).
Proof.
  cbn zeta. unfold HTTPClient.__init__, HTTPClient.get_connection_params.
  set (parts := urlparse endpoint).
  set (t := match HTTPClient.kw_timeout kwargs with
            | Some t => if t =? 0 then 600 else t
            | None => 600
            end).
  destruct (port parts) as [p|e|]; cbn [mbind result_mbind result_bind].
  - destruct (String.eqb_spec (scheme parts) "https") as [Hs|Hs].
    + split_and!; try done.
      * intros p' [= <-] _. by exists t.
      * intros p' _ Hhttp. congruence.
    + destruct (String.eqb_spec (scheme parts) "http") as [Hh|Hh].
      * split_and!; try done.
        intros p' [= <-] _. by exists t.
      * split_and!; done.
  - split_and!; try done. by intros e' [= <-].
  - split_and!; done.
Qed.

End Endpoints.


(** * The retry decorator: a call that gets through *)

Section RetryMore.
Context {U K R : Type} (func : U -> string -> K -> M (option R)).
Context (url : U) (method : string) (kwargs : K).
Local Open Scope Z_scope.

Local Abbreviation attempt := (func url method kwargs).

Lemma retry_loop_settled num a rest st :
  settled (outcome attempt st) ->
  retry_loop func url method kwargs num (a :: rest) st = attempt st.
Proof.
  intros Hs. cbn [retry_loop]. unfold try_except.
  rewrite (run_eta attempt st) in *.
  destruct (outcome attempt st) as [v|e|]; try done.
  cbn in Hs. by rewrite Hs.
Qed.

Lemma retry_loop_retries num a rest st e T :
  outcome attempt st = Raise e -> is_retry_exception e = true ->
  a <> num -> 0 <= T ->
  conflict_retry_interval (self (exec attempt st)) = Some T ->
  retry_loop func url method kwargs num (a :: rest) st
  = retry_loop func url method kwargs num rest (failed_round attempt T st).
Proof.
  intros He Hr Ha HT Hi. cbn [retry_loop]. unfold try_except.
  rewrite (run_eta attempt st), He, Hr.
  rewrite (proj2 (Z.eqb_neq _ _)) by done.
  unfold failed_round. revert Hi. mrun. intros ->.
  by rewrite (proj2 (Z.ltb_ge _ _)) by lia.
Qed.

(** [k] failed rounds, then the loop goes on from the state they leave. *)
Lemma retry_loop_rounds (k : nat) : forall a st T num,
  keeps_interval attempt -> 0 <= T ->
  conflict_retry_interval (self st) = Some T ->
  a + Z.of_nat k <= num ->
  (forall i, (i < k)%nat -> fails_at attempt (Nat.iter i (failed_round attempt T) st)) ->
  retry_loop func url method kwargs num (py_range a (num + 1)) st
  = retry_loop func url method kwargs num (py_range (a + Z.of_nat k) (num + 1))
      (Nat.iter k (failed_round attempt T) st).
Proof.
  induction k as [|k IH]; intros a st T num Hk HT Hi Hle Hf.
  - cbn [Nat.iter nat_rect]. by rewrite Z.add_0_r.
  - destruct (Hf 0%nat ltac:(lia)) as (e & He & Hr). cbn [Nat.iter nat_rect] in He.
    rewrite py_range_cons by lia.
    rewrite (retry_loop_retries _ _ _ _ e T) by (try done; try lia; by rewrite Hk).
    rewrite (IH (a + 1) (failed_round attempt T st) T num); try done; try lia.
    + rewrite Nat.iter_succ_r. f_equal. f_equal. lia.
    + by rewrite failed_round_interval.
    + intros i Hlt. rewrite <- Nat.iter_succ_r. apply Hf. lia.
Qed.

Lemma with_retries_rounds (N T : Z) (k : nat) st :
  0 <= T -> Z.of_nat k <= N ->
  default DEFAULT_MAX_RETRIES (conflict_max_retries (self st)) = N ->
  default DEFAULT_RETRY_INTERVAL (conflict_retry_interval (self st)) = T ->
  let start := mkState (retry_defaults (self st)) (world st) in
  let round i := Nat.iter i (failed_round attempt T) start in
  keeps_interval attempt ->
  (forall i, (i < k)%nat -> fails_at attempt (round i)) ->
  settled (outcome attempt (round k)) ->
  with_retries func url method kwargs st = attempt (round k).
Proof.
  intros HT HkN HmaxN HintT start round Hk Hf Hs.
  rewrite with_retries_unfold. cbn zeta. rewrite HmaxN. fold start.
  rewrite (retry_loop_rounds k 1 start T (N + 1)); try done; try lia.
  - rewrite py_range_cons by lia. by apply retry_loop_settled.
  - subst start. cbn. by rewrite HintT.
Qed.

Lemma with_retries_settled st :
  0 <= default DEFAULT_MAX_RETRIES (conflict_max_retries (self st)) ->
  let start := mkState (retry_defaults (self st)) (world st) in
  settled (outcome attempt start) ->
  with_retries func url method kwargs st = attempt start.
Proof.
  intros HN start Hs. rewrite with_retries_unfold. cbn zeta. fold start.
  rewrite py_range_cons by lia. by apply retry_loop_settled.
Qed.

End RetryMore.

Section RetryExtra.
Context {U K R : Type}.
Local Open Scope Z_scope.

(** X4.  The retry wrapper stops at the first attempt that returns or that
    raises an exception which is not retried: after [k] attempts that raised
    a retried exception, [k] within [max_retries], the call is the attempt
    [k + 1] itself, in the state the [k] failed rounds left; when attempts do
    not sleep themselves, the call has slept [k] times the interval. *)
Theorem with_retries_stops_at_first_settled_attempt
    (func : U -> string -> K -> M (option R)) (url : U) (method : string) (kwargs : K)
    (N T : Z) (k : nat) (st : State) :
  0 <= T -> Z.of_nat k <= N ->
  default DEFAULT_MAX_RETRIES (conflict_max_retries (self st)) = N ->
  default DEFAULT_RETRY_INTERVAL (conflict_retry_interval (self st)) = T ->
  let attempt := func url method kwargs in
  let start := mkState (retry_defaults (self st)) (world st) in
  let round i := Nat.iter i (failed_round attempt T) start in
  keeps_interval attempt ->
  (forall i, (i < k)%nat -> fails_at attempt (round i)) ->
  settled (outcome attempt (round k)) ->
  with_retries func url method kwargs st = attempt (round k)
  /\ ((forall s, slept (world (exec attempt s)) = slept (world s)) ->
      slept (world (exec (with_retries func url method kwargs) st))
      = slept (world st) ++ replicate k T).
Proof.
  intros HT HkN HmaxN HintT attempt start round Hk Hf Hs.
  assert (Hrun := with_retries_rounds func url method kwargs N T k st
                    HT HkN HmaxN HintT Hk Hf Hs).
  split; first exact Hrun.
  intros Hsl.
  replace (exec (with_retries func url method kwargs) st) with (exec attempt (round k))
    by (unfold exec; by rewrite Hrun).
  rewrite Hsl. subst round. cbn beta.
  by rewrite (failed_rounds_slept func url method kwargs) by done.
Qed.

End RetryExtra.


(** * HTTPClient: one attempt *)

Ltac http_attempt client st kwargs :=
  unfold HTTPClient._http_request_func, HTTPClient.log_curl_request,
    HTTPClient.log_http_response;
  rewrite bind_gets, bind_LOG;
  change (if truthy (HTTPClient.auth_token client) then _ else _)
    with (HTTPClient_attempt_headers client (os_ironic_api_version (self st))
            (HTTPClient.headers kwargs));
  cbn [HTTPClient.body].

Section HTTPAttemptMore.
Context {ext : Externals}.
Local Open Scope Z_scope.
Implicit Types (client : HTTPClient.t) (kwargs : HTTPClient.Kwargs).

Lemma try_except_socket_handlers {A} (block : M A) st :
  try_except block HTTPClient.socket_handlers st = under_socket_handlers (block st).
Proof.
  unfold try_except, under_socket_handlers.
  destruct (block st) as [[a|e|] st']; try done. by destruct e.
Qed.

Lemma passes_status s :
  passes s ->
  (s =? 406) = false /\ (400 <=? s) && (s <? 600) = false
  /\ bool_decide (s ∈ [301; 302; 305]) = false /\ (s =? 300) = false.
Proof.
  intros (H406 & Hr & Hred & H300). repeat split.
  - by apply Z.eqb_neq.
  - destruct (400 <=? s) eqn:E1; last done. destruct (s <? 600) eqn:E2; last done.
    exfalso. apply Hr; [by apply Z.leb_le | by apply Z.ltb_lt].
  - by apply bool_decide_false.
  - by apply Z.eqb_neq.
Qed.

Lemma HTTPClient_transport_failure client rec url method kwargs st e :
  server (sent (world st)
          ++ [HTTPClient_attempt_request client (os_ironic_api_version (self st))
                url method kwargs]) = inl e ->
  HTTPClient._http_request_func client rec url method kwargs st
  = (Raise (reclassified e), HTTPClient_sent client url method kwargs st).
Proof.
  intros Hsrv. unfold HTTPClient_sent, HTTPClient_attempt_request in *.
  http_attempt client st kwargs.
  set (rq := ConnRequest _ _ _ _ _) in *.
  set (st1 := exec (LOG DEBUG "curl") st).
  rewrite bind_run, try_except_socket_handlers, bind_run, send_eq.
  change (sent (world st1)) with (sent (world st)). by rewrite Hsrv.
Qed.

Lemma HTTPClient_answered client rec url method kwargs st resp :
  server (sent (world st)
          ++ [HTTPClient_attempt_request client (os_ironic_api_version (self st))
                url method kwargs]) = inr resp ->
  passes (status resp) ->
  HTTPClient._http_request_func client rec url method kwargs st
  = (Ok (Some (HTTPClient_read resp, HTTPClient_body resp)),
     HTTPClient_responded client url method kwargs st).
Proof.
  intros Hsrv Hpass.
  destruct (passes_status _ Hpass) as (H406 & Hrange & Hred & H300).
  unfold HTTPClient_responded, HTTPClient_attempt_request, HTTPClient_read,
    HTTPClient_body in *.
  http_attempt client st kwargs.
  set (rq := ConnRequest _ _ _ _ _) in *.
  set (st1 := exec (LOG DEBUG "curl") st).
  assert (Hsend : send rq st1 = (Ok resp, exec (send rq) st1)) by by apply send_Ok.
  erewrite bind_Ok; last first.
  { apply try_except_Ok. erewrite bind_Ok by exact Hsend.
    rewrite H406. reflexivity. }
  cbn beta iota.
  destruct (bool_decide (getheader resp "content-type" = Some "application/octet-stream")).
  - cbn [negb]. erewrite bind_Ok; last by rewrite bind_LOG.
    cbn beta iota. rewrite Hrange, Hred, H300. reflexivity.
  - cbn [negb].
    destruct (chunks_run resp (exec (send rq) st1)) as (chunks & Hchunks & Hjoin).
    erewrite bind_Ok; last first.
    { erewrite bind_Ok by exact Hchunks. cbn beta iota. rewrite bind_LOG. reflexivity. }
    cbn beta iota. cbn [status]. rewrite Hrange, Hred, H300, Hjoin. reflexivity.
Qed.

Lemma HTTPClient_multiple_choices client rec url method kwargs st resp :
  server (sent (world st)
          ++ [HTTPClient_attempt_request client (os_ironic_api_version (self st))
                url method kwargs]) = inr resp ->
  status resp = 300 ->
  HTTPClient._http_request_func client rec url method kwargs st
  = (Raise (from_response resp None None (Some method) (Some url)),
     HTTPClient_responded client url method kwargs st).
Proof.
  intros Hsrv H300.
  unfold HTTPClient_responded, HTTPClient_attempt_request in *.
  http_attempt client st kwargs.
  set (rq := ConnRequest _ _ _ _ _) in *.
  set (st1 := exec (LOG DEBUG "curl") st).
  assert (Hsend : send rq st1 = (Ok resp, exec (send rq) st1)) by by apply send_Ok.
  erewrite bind_Ok; last first.
  { apply try_except_Ok. erewrite bind_Ok by exact Hsend.
    rewrite H300. reflexivity. }
  cbn beta iota.
  destruct (bool_decide (getheader resp "content-type" = Some "application/octet-stream")).
  - cbn [negb]. erewrite bind_Ok; last by rewrite bind_LOG.
    cbn beta iota. rewrite H300. reflexivity.
  - cbn [negb].
    destruct (chunks_run resp (exec (send rq) st1)) as (chunks & Hchunks & Hjoin).
    erewrite bind_Ok; last first.
    { erewrite bind_Ok by exact Hchunks. cbn beta iota. rewrite bind_LOG. reflexivity. }
    cbn beta iota. unfold from_response. cbn [status]. rewrite H300. reflexivity.
Qed.

Lemma HTTPClient_not_acceptable client rec url method kwargs st resp :
  server (sent (world st)
          ++ [HTTPClient_attempt_request client (os_ironic_api_version (self st))
                url method kwargs]) = inr resp ->
  status resp = 406 ->
  HTTPClient._http_request_func client rec url method kwargs st
  = under_socket_handlers
      ((negotiated_ver ← negotiate_version (HTTPClient.mixin client)
                            (HTTPClient.get_connection client) resp;
        rec url method
          (HTTPClient_replay_kwargs client (os_ironic_api_version (self st))
             negotiated_ver kwargs))
         (HTTPClient_sent client url method kwargs st)).
Proof.
  intros Hsrv H406.
  unfold HTTPClient_sent, HTTPClient_attempt_request, HTTPClient_replay_kwargs in *.
  http_attempt client st kwargs.
  set (h := HTTPClient_attempt_headers _ _ _) in *.
  set (rq := ConnRequest _ _ _ _ _) in *.
  set (st1 := exec (LOG DEBUG "curl") st).
  assert (Hsend : send rq st1 = (Ok resp, exec (send rq) st1)) by by apply send_Ok.
  rewrite bind_run, try_except_socket_handlers.
  erewrite bind_Ok by exact Hsend. rewrite H406. cbn [Z.eqb Pos.eqb].
  rewrite !bind_run.
  destruct (negotiate_version _ _ resp _) as [[v|e|] st2]; try done.
  rewrite !bind_run.
  destruct (rec url method _ st2) as [[r|e|] st3]; try done.
Qed.

End HTTPAttemptMore.


(** * HTTPClient: the call *)

Section RetryExhausted.
Context {U K R : Type} (func : U -> string -> K -> M (option R)).
Context (url : U) (method : string) (kwargs : K).
Local Open Scope Z_scope.

Lemma with_retries_exhausted (N T : Z) st :
  0 <= N -> 0 <= T ->
  default DEFAULT_MAX_RETRIES (conflict_max_retries (self st)) = N ->
  default DEFAULT_RETRY_INTERVAL (conflict_retry_interval (self st)) = T ->
  let attempt := func url method kwargs in
  always_fails attempt -> keeps_interval attempt ->
  let last := Nat.iter (Z.to_nat N) (failed_round attempt T)
                (mkState (retry_defaults (self st)) (world st)) in
  with_retries func url method kwargs st
  = (outcome attempt last,
     exec (LOG ERROR "Error contacting Ironic server") (exec attempt last)).
Proof.
  intros HN HT HmaxN HintT attempt Hf Hk last.
  rewrite with_retries_unfold. cbn zeta. rewrite HmaxN.
  replace (N + 1) with (1 + Z.of_nat (Z.to_nat N)) by lia.
  apply retry_loop_exhausts; try done.
  cbn. by rewrite HintT.
Qed.

End RetryExhausted.

Section HTTPExecutor.
Context {ext : Externals}.
Local Open Scope Z_scope.
Implicit Types (client : HTTPClient.t) (kwargs : HTTPClient.Kwargs).

Lemma HTTPClient_http_request_S fuel client url method kwargs :
  HTTPClient._http_request (S fuel) client url method kwargs
  = with_retries (HTTPClient._http_request_func client
                    (HTTPClient._http_request fuel client)) url method kwargs.
Proof. reflexivity. Qed.

(** A reply that is handed back ends the call at its first attempt. *)
Lemma HTTPClient_http_request_answered client fuel url method kwargs st resp :
  0 <= default DEFAULT_MAX_RETRIES (conflict_max_retries (self st)) ->
  server (sent (world st)
          ++ [HTTPClient_attempt_request client (os_ironic_api_version (self st))
                url method kwargs]) = inr resp ->
  passes (status resp) ->
  HTTPClient._http_request (S fuel) client url method kwargs st
  = (Ok (Some (HTTPClient_read resp, HTTPClient_body resp)),
     HTTPClient_responded client url method kwargs
       (mkState (retry_defaults (self st)) (world st))).
Proof.
  intros HN Hsrv Hpass.
  rewrite HTTPClient_http_request_S, with_retries_settled; try done.
  - by apply HTTPClient_answered.
  - cbn zeta. unfold outcome. by erewrite HTTPClient_answered.
Qed.

(** X5.  [HTTPClient._http_request] on an answer that is neither an error, a
    redirect nor a 406 sends one request, sleeps never, and returns the
    answer with its body: for [application/octet-stream] the response itself,
    unread, behind a [ResponseBodyIterator]; for anything else the response
    read to its end and the text in a [StringIO]. *)
Theorem HTTPClient_hands_binary_body_over_unread client fuel url method kwargs st resp :
  0 <= default DEFAULT_MAX_RETRIES (conflict_max_retries (self st)) ->
  let rq := HTTPClient_attempt_request client (os_ironic_api_version (self st))
              url method kwargs in
  server (sent (world st) ++ [rq]) = inr resp ->
  passes (status resp) ->
  let call := HTTPClient._http_request (S fuel) client url method kwargs in
  sent (world (exec call st)) = sent (world st) ++ [rq]
  /\ slept (world (exec call st)) = slept (world st)
  /\ outcome call st
     = Ok (Some (if bool_decide (getheader resp "content-type"
                                 = Some "application/octet-stream")
                 then (resp, BodyIterator resp)
                 else (mkResponse (status resp) (resp_headers resp) EmptyString,
                       StringIO (payload resp)))).
Proof.
  intros HN rq Hsrv Hpass call.
  assert (Hrun := HTTPClient_http_request_answered client fuel url method kwargs st resp
                    HN Hsrv Hpass).
  unfold exec, outcome, call. rewrite Hrun. cbn [fst snd].
  split; [|split].
  - unfold HTTPClient_responded. rewrite sent_LOG, exec_send. reflexivity.
  - unfold HTTPClient_responded. by rewrite exec_send.
  - unfold HTTPClient_read, HTTPClient_body. by destruct (bool_decide _).
Qed.

(** X6.  A host name that does not resolve ([socket.gaierror]) comes out of
    [HTTPClient._http_request] as [EndpointNotFound] after one request and no
    sleep: the retry wrapper does not retry it. *)
Theorem HTTPClient_does_not_retry_name_resolution client fuel url method kwargs st :
  0 <= default DEFAULT_MAX_RETRIES (conflict_max_retries (self st)) ->
  let rq := HTTPClient_attempt_request client (os_ironic_api_version (self st))
              url method kwargs in
  server (sent (world st) ++ [rq]) = inl socket_gaierror ->
  let call := HTTPClient._http_request (S fuel) client url method kwargs in
  outcome call st = Raise EndpointNotFound
  /\ sent (world (exec call st)) = sent (world st) ++ [rq]
  /\ slept (world (exec call st)) = slept (world st).
Proof.
  intros HN rq Hsrv call.
  assert (Hrun : call st
                 = (Raise EndpointNotFound,
                    HTTPClient_sent client url method kwargs
                      (mkState (retry_defaults (self st)) (world st)))).
  { subst call. rewrite HTTPClient_http_request_S, with_retries_settled; try done.
    - exact (HTTPClient_transport_failure _ _ _ _ _
               (mkState (retry_defaults (self st)) (world st)) _ Hsrv).
    - cbn zeta. unfold outcome.
      by rewrite (HTTPClient_transport_failure _ _ _ _ _
                    (mkState (retry_defaults (self st)) (world st)) _ Hsrv). }
  unfold exec, outcome. rewrite Hrun. cbn [fst snd].
  split; [done | split].
  - unfold HTTPClient_sent. by rewrite exec_send.
  - unfold HTTPClient_sent. by rewrite exec_send.
Qed.

(** Against a peer that cannot be reached an attempt is its request and
    the refusal. *)
Lemma HTTPClient_refused client rec url method kwargs st :
  (forall history, server history = inl socket_error
                   \/ server history = inl socket_timeout) ->
  HTTPClient._http_request_func client rec url method kwargs st
  = (Raise ConnectionRefused, HTTPClient_sent client url method kwargs st).
Proof.
  intros Hdown.
  destruct (Hdown (sent (world st)
                   ++ [HTTPClient_attempt_request client (os_ironic_api_version (self st))
                         url method kwargs])) as [He | He];
    by rewrite (HTTPClient_transport_failure _ _ _ _ _ _ _ He).
Qed.

Lemma failed_rounds_sent client rec url method kwargs T (k : nat) : forall st,
  0 <= T ->
  (forall history, server history = inl socket_error
                   \/ server history = inl socket_timeout) ->
  let attempt := HTTPClient._http_request_func client rec url method kwargs in
  let last := Nat.iter k (failed_round attempt T) st in
  self last = self st
  /\ sent (world last)
     = sent (world st)
       ++ replicate k (HTTPClient_attempt_request client
                         (os_ironic_api_version (self st)) url method kwargs).
Proof.
  intros st HT Hdown attempt. revert st.
  induction k as [|k IH]; intros st last; subst last.
  - cbn [Nat.iter nat_rect replicate]. by rewrite app_nil_r.
  - rewrite Nat.iter_succ_r.
    assert (Hround : self (failed_round attempt T st) = self st
                     /\ sent (world (failed_round attempt T st))
                        = sent (world st)
                          ++ [HTTPClient_attempt_request client
                                (os_ironic_api_version (self st)) url method kwargs]).
    { assert (Hex : exec attempt st = HTTPClient_sent client url method kwargs st).
      { unfold exec, attempt. by rewrite HTTPClient_refused. }
      unfold failed_round. rewrite Hex.
      unfold HTTPClient_sent. rewrite exec_send. mrun.
      rewrite (proj2 (Z.ltb_ge _ _)) by lia. split; reflexivity. }
    destruct Hround as [Hself Hsent].
    destruct (IH (failed_round attempt T st)) as [IHself IHsent].
    split; first by rewrite IHself.
    rewrite IHsent, Hsent, Hself, <- app_assoc. reflexivity.
Qed.

(** X7.  A peer that cannot be reached ([socket.error] or [socket.timeout] on
    every request) comes out of [HTTPClient._http_request] as
    [ConnectionRefused], which the retry wrapper retries: with
    [max_retries = N] and [retry_interval = T] the same request is sent
    [N + 1] times, with [N] sleeps of [T] between them. *)
Theorem HTTPClient_retries_refused_connections client fuel url method kwargs
    (N T : Z) st :
  0 <= N -> 0 <= T ->
  default DEFAULT_MAX_RETRIES (conflict_max_retries (self st)) = N ->
  default DEFAULT_RETRY_INTERVAL (conflict_retry_interval (self st)) = T ->
  (forall history, server history = inl socket_error
                   \/ server history = inl socket_timeout) ->
  let rq := HTTPClient_attempt_request client (os_ironic_api_version (self st))
              url method kwargs in
  let call := HTTPClient._http_request (S fuel) client url method kwargs in
  outcome call st = Raise ConnectionRefused
  /\ sent (world (exec call st)) = sent (world st) ++ replicate (S (Z.to_nat N)) rq
  /\ slept (world (exec call st)) = slept (world st) ++ replicate (Z.to_nat N) T.
Proof.
  intros HN HT HmaxN HintT Hdown rq call.
  set (rec := HTTPClient._http_request fuel client).
  set (attempt := HTTPClient._http_request_func client rec url method kwargs).
  set (start := mkState (retry_defaults (self st)) (world st)).
  set (last := Nat.iter (Z.to_nat N) (failed_round attempt T) start).
  assert (Hfails : always_fails attempt).
  { intros s. exists ConnectionRefused. unfold outcome, attempt.
    by rewrite HTTPClient_refused. }
  assert (Hkeeps : keeps_interval attempt).
  { intros s. unfold exec, attempt. rewrite HTTPClient_refused by done.
    cbn [snd]. unfold HTTPClient_sent. by rewrite exec_send. }
  assert (Hslept : forall s, slept (world (exec attempt s)) = slept (world s)).
  { intros s. unfold exec, attempt. rewrite HTTPClient_refused by done.
    cbn [snd]. unfold HTTPClient_sent. by rewrite exec_send. }
  assert (Hrun : call st
                 = (outcome attempt last,
                    exec (LOG ERROR "Error contacting Ironic server")
                      (exec attempt last))).
  { subst call. rewrite HTTPClient_http_request_S.
    by apply (with_retries_exhausted _ _ _ _ N T). }
  destruct (failed_rounds_sent client rec url method kwargs T (Z.to_nat N) start HT Hdown)
    as [Hself Hsent]. fold attempt in Hself, Hsent. fold last in Hself, Hsent.
  unfold exec at 1 2, outcome at 1. rewrite Hrun. cbn [fst snd].
  split; [|split].
  - unfold outcome, attempt. by rewrite HTTPClient_refused.
  - rewrite sent_LOG. unfold exec, attempt. rewrite HTTPClient_refused by done.
    cbn [snd]. unfold HTTPClient_sent. rewrite exec_send. cbn [world sent].
    change (sent (world (exec (LOG DEBUG "curl") last))) with (sent (world last)).
    rewrite Hsent, Hself. subst start. cbn [self world retry_defaults os_ironic_api_version].
    fold rq. rewrite <- app_assoc. f_equal.
    change (rq :: replicate (Z.to_nat N) rq) with (replicate (S (Z.to_nat N)) rq).
    by rewrite replicate_S_end.
  - change (slept (world (exec (LOG ERROR "Error contacting Ironic server")
                            (exec attempt last))))
      with (slept (world (exec attempt last))).
    rewrite Hslept. subst last.
    by rewrite (failed_rounds_slept _ url method kwargs) by done.
Qed.

End HTTPExecutor.


(** * Negotiation inside a call *)

Section NegotiationMore.
Context {ext : Externals}.
Local Open Scope Z_scope.

Lemma conclude_negotiation_Ok mn mx st v host port :
  may_negotiate st ->
  negotiated (os_ironic_api_version (self st)) mn mx = Ok v ->
  get_server (endpoint (self st)) = Ok (host, port) ->
  conclude_negotiation mn mx st = (Ok v, negotiated_state v host port st).
Proof.
  intros Hs Hv Hsrv. unfold conclude_negotiation, negotiated_state. mrun.
  replace (String.eqb (api_version_select_state (self st)) "user"
           || String.eqb (api_version_select_state (self st)) "negotiated")
    with false by (by destruct Hs as [-> | ->]).
  rewrite Hv. cbn [set_os_ironic_api_version set_api_version_select_state endpoint].
  by rewrite Hsrv.
Qed.

Lemma negotiate_version_settles {Conn} (cls : VersionNegotiationMixin Conn) probe
    conn resp st v host port :
  sends_probe cls probe ->
  may_negotiate st ->
  truthy (_parse_version_headers cls resp).2 = true ->
  negotiated (os_ironic_api_version (self st))
    (_parse_version_headers cls resp).1 (_parse_version_headers cls resp).2 = Ok v ->
  get_server (endpoint (self st)) = Ok (host, port) ->
  negotiate_version cls conn resp st = (Ok v, negotiated_state v host port st).
Proof.
  intros Hprobe Hs Hmax Hv Hsrv.
  rewrite (negotiate_version_run cls probe Hprobe).
  2:{ unfold API_VERSION_SELECTED_STATES. destruct Hs as [-> | ->]; set_solver. }
  cbn zeta. rewrite Hmax. by apply conclude_negotiation_Ok.
Qed.

Lemma negotiate_version_refuses {Conn} (cls : VersionNegotiationMixin Conn) probe
    conn resp st :
  sends_probe cls probe ->
  api_version_select_state (self st) = "negotiated" ->
  truthy (_parse_version_headers cls resp).2 = true ->
  negotiate_version cls conn resp st
  = (Raise (UnsupportedVersion (os_ironic_api_version (self st))
              (_parse_version_headers cls resp).1 (_parse_version_headers cls resp).2),
     st).
Proof.
  intros Hprobe Hs Hmax.
  rewrite (negotiate_version_run cls probe Hprobe).
  2:{ unfold API_VERSION_SELECTED_STATES. rewrite Hs. set_solver. }
  cbn zeta. rewrite Hmax. apply conclude_refused. by right.
Qed.

End NegotiationMore.

Section RetrySends.
Context {ext : Externals} {U K R : Type} (func : U -> string -> K -> M (option R)).
Context (url : U) (method : string) (kwargs : K).
Local Open Scope Z_scope.

Lemma appends_retry_loop num attempts :
  appends (func url method kwargs) ->
  appends (retry_loop func url method kwargs num attempts).
Proof.
  intros Hf. induction attempts as [|a rest IH]; cbn [retry_loop]; first solve_appends.
  apply appends_try_except; first exact Hf.
  intros e h He. destruct (is_retry_exception e); last discriminate.
  injection He as <-. solve_appends.
Qed.

(** With a retry count that is not negative the call starts with its first
    attempt: the record of requests goes on from where that attempt leaves
    it. *)
Lemma with_retries_extends st :
  0 <= default DEFAULT_MAX_RETRIES (conflict_max_retries (self st)) ->
  appends (func url method kwargs) ->
  sent (world (exec (func url method kwargs)
                 (mkState (retry_defaults (self st)) (world st))))
  `prefix_of` sent (world (exec (with_retries func url method kwargs) st)).
Proof.
  intros HN Hf. unfold exec at 2. rewrite with_retries_unfold. cbn zeta.
  set (start := mkState _ _). set (N := default _ _) in *.
  rewrite py_range_cons by lia. cbn [retry_loop].
  unfold try_except, exec.
  destruct (func url method kwargs start) as [[v|e|] s1]; cbn [snd]; try done.
  destruct (is_retry_exception e); last done.
  destruct (1 =? N + 1).
  - done.
  - assert (Hrest : appends
              (LOG WARNING "Error contacting Ironic server";;
               interval ← gets conflict_retry_interval;
               time_sleep interval;;
               retry_loop func url method kwargs (N + 1) (py_range (1 + 1) (N + 1 + 1)))).
    { pose proof (appends_retry_loop (N + 1) (py_range (1 + 1) (N + 1 + 1)) Hf).
      solve_appends. }
    apply (Hrest s1).
Qed.

End RetrySends.


(** * HTTPClient: the replay after a negotiation *)

Section SetdefaultFacts.

Lemma setdefault_present {V} (k : string) (v : V) (d : gmap string V) :
  is_Some (d !! k) -> setdefault k v d = d.
Proof. intros [x Hx]. unfold setdefault. by rewrite Hx. Qed.

Lemma setdefault_is_Some {V} (k : string) (v : V) (d : gmap string V) :
  is_Some (setdefault k v d !! k).
Proof. rewrite lookup_setdefault, decide_True by done. eauto. Qed.

Lemma setdefault_keeps {V} (k k' : string) (v : V) (d : gmap string V) :
  is_Some (d !! k') -> is_Some (setdefault k v d !! k').
Proof.
  intros Hk. rewrite lookup_setdefault. case_decide; [eauto | done].
Qed.

Lemma insert_keeps {V} (k k' : string) (v : V) (d : gmap string V) :
  is_Some (d !! k') -> is_Some (<[k := v]> d !! k').
Proof.
  intros Hk. destruct (decide (k = k')) as [->|Hne].
  - rewrite lookup_insert_eq. eauto.
  - by rewrite lookup_insert_ne.
Qed.

(** Headers an attempt has completed come out of a second attempt as they
    are, once the version header is in. *)
Lemma attempt_headers_replayed client ver ver' v h0 :
  HTTPClient_attempt_headers client ver'
    (Some (<[VERSION_HEADER := v]> (HTTPClient_attempt_headers client ver h0)))
  = <[VERSION_HEADER := v]> (HTTPClient_attempt_headers client ver h0).
Proof.
  set (h1 := HTTPClient_attempt_headers client ver h0).
  assert (Hua : is_Some (h1 !! "User-Agent")).
  { unfold h1, HTTPClient_attempt_headers.
    destruct (truthy (HTTPClient.auth_token client)), (truthy ver);
      repeat first [apply setdefault_is_Some | apply setdefault_keeps]. }
  assert (Htok : truthy (HTTPClient.auth_token client) = true ->
                 is_Some (h1 !! "X-Auth-Token")).
  { intros Ht. unfold h1, HTTPClient_attempt_headers. rewrite Ht.
    apply setdefault_is_Some. }
  unfold HTTPClient_attempt_headers at 1. cbn [default from_option id].
  rewrite (setdefault_present "User-Agent") by by apply insert_keeps.
  assert (Hver : (if truthy ver'
                  then setdefault VERSION_HEADER (default "" ver')
                         (<[VERSION_HEADER := v]> h1)
                  else <[VERSION_HEADER := v]> h1) = <[VERSION_HEADER := v]> h1).
  { destruct (truthy ver'); last done.
    apply setdefault_present. rewrite lookup_insert_eq. eauto. }
  rewrite Hver.
  destruct (truthy (HTTPClient.auth_token client)) eqn:Ht; last done.
  apply setdefault_present. apply insert_keeps. by apply Htok.
Qed.

End SetdefaultFacts.

Section HTTPNegotiation.
Context {ext : Externals}.
Local Open Scope Z_scope.
Implicit Types (client : HTTPClient.t) (kwargs : HTTPClient.Kwargs).

(** The attempt that meets a 406 it can negotiate on: the negotiation, then
    the replay. *)
Lemma HTTPClient_negotiates client rec url method kwargs st resp v host port :
  server (sent (world st)
          ++ [HTTPClient_attempt_request client (os_ironic_api_version (self st))
                url method kwargs]) = inr resp ->
  status resp = 406 ->
  may_negotiate st ->
  truthy (HTTPClient._parse_version_headers resp).2 = true ->
  negotiated (os_ironic_api_version (self st))
    (HTTPClient._parse_version_headers resp).1
    (HTTPClient._parse_version_headers resp).2 = Ok v ->
  get_server (endpoint (self st)) = Ok (host, port) ->
  HTTPClient._http_request_func client rec url method kwargs st
  = under_socket_handlers
      (rec url method
         (HTTPClient_replay_kwargs client (os_ironic_api_version (self st)) v kwargs)
         (negotiated_state v host port (HTTPClient_sent client url method kwargs st))).
Proof.
  intros Hsrv H406 Hs Hmax Hv Hget.
  rewrite (HTTPClient_not_acceptable _ _ _ _ _ _ _ Hsrv H406).
  assert (Hself : self (HTTPClient_sent client url method kwargs st) = self st).
  { unfold HTTPClient_sent. by rewrite exec_send. }
  erewrite bind_Ok; first reflexivity.
  apply (negotiate_version_settles (HTTPClient.mixin client) (HTTPClient_probe client)).
  - apply HTTPClient_sends_probe.
  - unfold may_negotiate. by rewrite Hself.
  - exact Hmax.
  - by rewrite Hself.
  - by rewrite Hself.
Qed.

Lemma sent_negotiated_state v host port st :
  sent (world (negotiated_state v host port st)) = sent (world st).
Proof. reflexivity. Qed.

Lemma sent_under_socket_handlers {A} (r : result A * State) :
  (under_socket_handlers r).2 = r.2.
Proof. by destruct r as [[a|e|] s]. Qed.

Lemma replay_version_header client ver v kwargs :
  HTTPClient_attempt_headers client (Some v)
    (HTTPClient.headers (HTTPClient_replay_kwargs client ver v kwargs)) !! VERSION_HEADER
  = Some v.
Proof.
  rewrite attempt_headers_version. unfold version_header_sent, HTTPClient_replay_kwargs.
  cbn [HTTPClient.headers default from_option id]. by rewrite lookup_insert_eq.
Qed.

(** X8.  When the first answer to [HTTPClient._http_request] is a 406 with a
    maximum version, in select state [default] or [cached], and the
    negotiation settles on [v], the next request sent is the first one again
    with the header [X-OpenStack-Ironic-API-Version] set to [v], every other
    header, the method, the URL and the body as before. *)
Theorem HTTPClient_replays_with_negotiated_version client fuel url method kwargs st
    resp v host port :
  0 <= default DEFAULT_MAX_RETRIES (conflict_max_retries (self st)) ->
  let ver := os_ironic_api_version (self st) in
  let rq := HTTPClient_attempt_request client ver url method kwargs in
  server (sent (world st) ++ [rq]) = inr resp ->
  status resp = 406 ->
  may_negotiate st ->
  truthy (getheader resp "X-OpenStack-Ironic-API-Maximum-Version") = true ->
  negotiated ver (getheader resp "X-OpenStack-Ironic-API-Minimum-Version")
    (getheader resp "X-OpenStack-Ironic-API-Maximum-Version") = Ok v ->
  get_server (endpoint (self st)) = Ok (host, port) ->
  let call := HTTPClient._http_request (S (S fuel)) client url method kwargs in
  exists more,
    sent (world (exec call st))
    = sent (world st) ++ rq :: with_header VERSION_HEADER v rq :: more.
Proof.
  intros HN ver rq Hsrv H406 Hs Hmax Hv Hget call.
  set (start := mkState (retry_defaults (self st)) (world st)).
  set (kw' := HTTPClient_replay_kwargs client ver v kwargs).
  set (st2 := negotiated_state v host port (HTTPClient_sent client url method kwargs start)).
  set (inner := HTTPClient._http_request (S fuel) client).
  (* the first attempt of the call *)
  assert (Hattempt :
            HTTPClient._http_request_func client inner url method kwargs start
            = under_socket_handlers (inner url method kw' st2)).
  { by apply (HTTPClient_negotiates client inner url method kwargs start resp v host port). }
  (* what the replay sends first *)
  assert (Hinner : exists more,
            sent (world (exec (inner url method kw') st2))
            = (sent (world st) ++ [rq])
              ++ HTTPClient_attempt_request client (Some v) url method kw' :: more).
  { assert (Hsent2 : sent (world st2) = sent (world st) ++ [rq]).
    { unfold st2, negotiated_state, HTTPClient_sent. by rewrite exec_send. }
    assert (Hself2 : self st2
                     = set_os_ironic_api_version (Some v)
                         (set_api_version_select_state "negotiated"
                            (retry_defaults (self st)))).
    { unfold st2, negotiated_state, HTTPClient_sent. by rewrite exec_send. }
    assert (Hfunc := HTTPClient_attempt_sends client (HTTPClient._http_request fuel client)
                       url method kw'
                       (mkState (retry_defaults (self st2)) (world st2))
                       (appends_HTTPClient_http_request fuel client)).
    destruct Hfunc as [more Hmore].
    cbn [self world] in Hmore. rewrite Hsent2, Hself2 in Hmore.
    cbn [retry_defaults set_os_ironic_api_version set_api_version_select_state
         os_ironic_api_version] in Hmore.
    assert (Hext := with_retries_extends
                      (HTTPClient._http_request_func client
                         (HTTPClient._http_request fuel client)) url method kw' st2).
    destruct Hext as [more' Hmore'].
    - rewrite Hself2. exact HN.
    - apply appends_HTTPClient_func. apply appends_HTTPClient_http_request.
    - exists (more ++ more').
      unfold inner. rewrite HTTPClient_http_request_S, Hmore'.
      rewrite Hself2.
      cbn [retry_defaults set_os_ironic_api_version set_api_version_select_state
           os_ironic_api_version endpoint api_version_select_state
           conflict_max_retries conflict_retry_interval].
      cbn [retry_defaults set_os_ironic_api_version set_api_version_select_state
           os_ironic_api_version endpoint api_version_select_state
           conflict_max_retries conflict_retry_interval] in Hmore.
      rewrite Hmore. by rewrite <- !app_assoc. }
  destruct Hinner as [more Hmore].
  (* the call goes on from its first attempt *)
  assert (Hcall := with_retries_extends
                     (HTTPClient._http_request_func client inner) url method kwargs st HN
                     (appends_HTTPClient_func client inner url method kwargs
                        (appends_HTTPClient_http_request (S fuel) client))).
  destruct Hcall as [more' Hmore'].
  fold start in Hmore'. unfold exec at 2 in Hmore'.
  rewrite Hattempt, sent_under_socket_handlers in Hmore'.
  change (inner url method kw' st2).2 with (exec (inner url method kw') st2) in Hmore'.
  rewrite Hmore in Hmore'.
  exists (more ++ more').
  unfold call. rewrite HTTPClient_http_request_S. fold inner. rewrite Hmore'.
  rewrite <- !app_assoc. cbn [app]. do 2 f_equal.
  unfold rq, kw', HTTPClient_replay_kwargs, HTTPClient_attempt_request, with_header.
  cbn [HTTPClient.headers HTTPClient.body].
  by rewrite attempt_headers_replayed.
Qed.

End HTTPNegotiation.


(** * HTTPClient: a 406 in answer to the replay *)

Section HTTPNegotiation2.
Context {ext : Externals}.
Local Open Scope Z_scope.
Implicit Types (client : HTTPClient.t) (kwargs : HTTPClient.Kwargs).

Lemma HTTPClient_replay_request client ver v url method kwargs :
  HTTPClient_attempt_request client (Some v) url method
    (HTTPClient_replay_kwargs client ver v kwargs)
  = with_header VERSION_HEADER v (HTTPClient_attempt_request client ver url method kwargs).
Proof.
  unfold HTTPClient_replay_kwargs, HTTPClient_attempt_request, with_header.
  cbn [HTTPClient.headers HTTPClient.body].
  by rewrite attempt_headers_replayed.
Qed.

(** The attempt that meets a 406 once the instance has negotiated. *)
Lemma HTTPClient_refuses client rec url method kwargs st resp :
  server (sent (world st)
          ++ [HTTPClient_attempt_request client (os_ironic_api_version (self st))
                url method kwargs]) = inr resp ->
  status resp = 406 ->
  api_version_select_state (self st) = "negotiated" ->
  truthy (HTTPClient._parse_version_headers resp).2 = true ->
  HTTPClient._http_request_func client rec url method kwargs st
  = (Raise (UnsupportedVersion (os_ironic_api_version (self st))
              (HTTPClient._parse_version_headers resp).1
              (HTTPClient._parse_version_headers resp).2),
     HTTPClient_sent client url method kwargs st).
Proof.
  intros Hsrv H406 Hs Hmax.
  rewrite (HTTPClient_not_acceptable _ _ _ _ _ _ _ Hsrv H406).
  assert (Hself : self (HTTPClient_sent client url method kwargs st) = self st).
  { unfold HTTPClient_sent. by rewrite exec_send. }
  rewrite bind_run.
  rewrite (negotiate_version_refuses (HTTPClient.mixin client) (HTTPClient_probe client));
    [| apply HTTPClient_sends_probe | by rewrite Hself | exact Hmax].
  by rewrite Hself.
Qed.


End HTTPNegotiation2.


(** * SessionClient: one attempt and the call *)

Section SessionAttemptMore.
Context {ext : Externals}.
Local Open Scope Z_scope.
Implicit Types (client : SessionClient.t) (kwargs : SessionClient.Kwargs).

Lemma SessionClient_http_request_S fuel client url method kwargs :
  SessionClient._http_request (S fuel) client url method kwargs
  = with_retries (SessionClient._http_request_func client
                    (SessionClient._http_request fuel client)) url method kwargs.
Proof. reflexivity. Qed.

Lemma SessionClient_transport_failure client rec url method kwargs st e :
  headers_passed kwargs st ->
  server (sent (world st) ++ [SessionClient_attempt_request client url method kwargs st])
    = inl e ->
  SessionClient._http_request_func client rec url method kwargs st
  = (Raise e, SessionClient_sent client url method kwargs st).
Proof.
  intros Hpassed Hsrv. rewrite SessionClient_attempt_start by done.
  rewrite bind_run, send_eq, sent_prepared, Hsrv. reflexivity.
Qed.

Lemma SessionClient_answered client rec url method kwargs st resp :
  headers_passed kwargs st ->
  server (sent (world st) ++ [SessionClient_attempt_request client url method kwargs st])
    = inr resp ->
  passes (status resp) ->
  SessionClient._http_request_func client rec url method kwargs st
  = (Ok (Some resp), SessionClient_sent client url method kwargs st).
Proof.
  intros Hpassed Hsrv Hpass.
  destruct (passes_status _ Hpass) as (H406 & Hrange & Hred & H300).
  rewrite SessionClient_attempt_start by done.
  erewrite bind_Ok; last by (apply send_Ok; rewrite sent_prepared).
  cbn zeta. by rewrite H406, Hrange, Hred, H300.
Qed.

Lemma SessionClient_multiple_choices client rec url method kwargs st resp :
  headers_passed kwargs st ->
  server (sent (world st) ++ [SessionClient_attempt_request client url method kwargs st])
    = inr resp ->
  status resp = 300 ->
  SessionClient._http_request_func client rec url method kwargs st
  = (Raise (from_response resp None None (Some method) url),
     SessionClient_sent client url method kwargs st).
Proof.
  intros Hpassed Hsrv H300.
  rewrite SessionClient_attempt_start by done.
  erewrite bind_Ok; last by (apply send_Ok; rewrite sent_prepared).
  cbn zeta. by rewrite H300.
Qed.

Lemma SessionClient_not_acceptable client rec url method kwargs st resp :
  headers_passed kwargs st ->
  server (sent (world st) ++ [SessionClient_attempt_request client url method kwargs st])
    = inr resp ->
  status resp = 406 ->
  SessionClient._http_request_func client rec url method kwargs st
  = (negotiated_ver ← negotiate_version SessionClient.mixin
                        (SessionClient.session client) resp;
     l ← SessionClient.kwargs_headers (SessionClient_attempt_kwargs client kwargs);
     h ← heap_get l;
     heap_put l (<["X-OpenStack-Ironic-API-Version" := negotiated_ver]> h);;
     rec url method (SessionClient_attempt_kwargs client kwargs))
      (SessionClient_sent client url method kwargs st).
Proof.
  intros Hpassed Hsrv H406.
  rewrite SessionClient_attempt_start by done.
  erewrite bind_Ok; last by (apply send_Ok; rewrite sent_prepared).
  cbn zeta. by rewrite H406.
Qed.

Lemma self_prepared kwargs st : self (SessionClient_prepared kwargs st) = self st.
Proof.
  unfold SessionClient_prepared.
  destruct (SessionClient.headers kwargs), (SessionClient_attempt_headers kwargs st);
    try done.
  by destruct (truthy _).
Qed.

Lemma slept_prepared kwargs st :
  slept (world (SessionClient_prepared kwargs st)) = slept (world st).
Proof.
  unfold SessionClient_prepared.
  destruct (SessionClient.headers kwargs), (SessionClient_attempt_headers kwargs st);
    try done.
  by destruct (truthy _).
Qed.

Lemma SessionClient_sent_frame client url method kwargs st :
  self (SessionClient_sent client url method kwargs st) = self st
  /\ sent (world (SessionClient_sent client url method kwargs st))
     = sent (world st) ++ [SessionClient_attempt_request client url method kwargs st]
  /\ slept (world (SessionClient_sent client url method kwargs st)) = slept (world st).
Proof.
  unfold SessionClient_sent. rewrite exec_send. cbn [self world sent slept].
  by rewrite self_prepared, sent_prepared, slept_prepared.
Qed.

(** X10.  [SessionClient._http_request] has no handler around the request: an
    exception of the session that is not a retried kind, a socket error
    included, reaches the caller as it is, after one request and no sleep. *)
Theorem SessionClient_lets_transport_failures_through client fuel url method kwargs
    st e :
  0 <= default DEFAULT_MAX_RETRIES (conflict_max_retries (self st)) ->
  headers_passed kwargs st ->
  let rq := SessionClient_attempt_request client url method kwargs st in
  server (sent (world st) ++ [rq]) = inl e ->
  is_retry_exception e = false ->
  let call := SessionClient._http_request (S fuel) client url method kwargs in
  outcome call st = Raise e
  /\ sent (world (exec call st)) = sent (world st) ++ [rq]
  /\ slept (world (exec call st)) = slept (world st).
Proof.
  intros HN Hpassed rq Hsrv He call.
  set (start := mkState (retry_defaults (self st)) (world st)).
  assert (Hfunc : SessionClient._http_request_func client
                    (SessionClient._http_request fuel client) url method kwargs start
                  = (Raise e, SessionClient_sent client url method kwargs start)).
  { by apply SessionClient_transport_failure. }
  assert (Hrun : call st = (Raise e, SessionClient_sent client url method kwargs start)).
  { unfold call. rewrite SessionClient_http_request_S, with_retries_settled; try done.
    cbn zeta. fold start. unfold outcome. by rewrite Hfunc. }
  unfold outcome, exec. rewrite Hrun. cbn [fst snd].
  destruct (SessionClient_sent_frame client url method kwargs start) as (_ & Hsent & Hslept).
  by rewrite Hsent, Hslept.
Qed.

(** X11.  A response with status 300 is an error for both executors: one request
    is sent and the call raises the exception [from_response] builds for the
    response, the method and the URL, with no error message. *)
Theorem multiple_choices_is_an_error :
  (forall (client : HTTPClient.t) fuel url method (kwargs : HTTPClient.Kwargs) st resp,
     0 <= default DEFAULT_MAX_RETRIES (conflict_max_retries (self st)) ->
     let rq := HTTPClient_attempt_request client (os_ironic_api_version (self st))
                 url method kwargs in
     server (sent (world st) ++ [rq]) = inr resp ->
     status resp = 300 ->
     let call := HTTPClient._http_request (S fuel) client url method kwargs in
     outcome call st = Raise (from_response resp None None (Some method) (Some url))
     /\ sent (world (exec call st)) = sent (world st) ++ [rq])
  /\ (forall client fuel url method kwargs st resp,
        0 <= default DEFAULT_MAX_RETRIES (conflict_max_retries (self st)) ->
        headers_passed kwargs st ->
        let rq := SessionClient_attempt_request client url method kwargs st in
        server (sent (world st) ++ [rq]) = inr resp ->
        status resp = 300 ->
        let call := SessionClient._http_request (S fuel) client url method kwargs in
        outcome call st = Raise (from_response resp None None (Some method) url)
        /\ sent (world (exec call st)) = sent (world st) ++ [rq]).
Proof.
  assert (Hsettled : forall resp m u,
            status resp = 300 ->
            is_retry_exception (from_response resp None None m u) = false).
  { intros resp m u H300. unfold from_response. by rewrite H300. }
  split.
  - intros client' fuel url method kwargs' st resp HN rq Hsrv H300 call.
    set (start := mkState (retry_defaults (self st)) (world st)).
    assert (Hfunc := HTTPClient_multiple_choices client' (HTTPClient._http_request fuel client')
                       url method kwargs' start resp Hsrv H300).
    assert (Hrun : call st
                   = (Raise (from_response resp None None (Some method) (Some url)),
                      HTTPClient_responded client' url method kwargs' start)).
    { unfold call. rewrite HTTPClient_http_request_S, with_retries_settled; try done.
      cbn zeta. fold start. unfold outcome. rewrite Hfunc. by apply Hsettled. }
    unfold outcome, exec. rewrite Hrun. cbn [fst snd]. split; first done.
    unfold HTTPClient_responded. by rewrite sent_LOG, exec_send.
  - intros client fuel url method kwargs st resp HN Hpassed rq Hsrv H300 call.
    set (start := mkState (retry_defaults (self st)) (world st)).
    assert (Hfunc := SessionClient_multiple_choices client
                       (SessionClient._http_request fuel client)
                       url method kwargs start resp Hpassed Hsrv H300).
    assert (Hrun : call st
                   = (Raise (from_response resp None None (Some method) url),
                      SessionClient_sent client url method kwargs start)).
    { unfold call. rewrite SessionClient_http_request_S, with_retries_settled; try done.
      cbn zeta. fold start. unfold outcome. rewrite Hfunc. by apply Hsettled. }
    unfold outcome, exec. rewrite Hrun. cbn [fst snd]. split; first done.
    by destruct (SessionClient_sent_frame client url method kwargs start) as (_ & -> & _).
Qed.

End SessionAttemptMore.


(** * SessionClient: the header dict *)

Section SessionHeaders.
Context {ext : Externals}.
Local Open Scope Z_scope.


End SessionHeaders.


(** * SessionClient: the replay after a negotiation *)

Section SessionNegotiation.
Context {ext : Externals}.
Local Open Scope Z_scope.
Implicit Types (client : SessionClient.t) (kwargs : SessionClient.Kwargs).

Lemma attempt_kwargs_idempotent client kwargs :
  SessionClient_attempt_kwargs client (SessionClient_attempt_kwargs client kwargs)
  = SessionClient_attempt_kwargs client kwargs.
Proof.
  unfold SessionClient_attempt_kwargs.
  cbn [SessionClient.headers SessionClient.data SessionClient.user_agent
       SessionClient.kw_auth SessionClient.endpoint_filter default from_option id].
  f_equal.
  - by destruct (SessionClient.kw_auth kwargs), (SessionClient.auth client).
  - f_equal.
    rewrite (setdefault_present "interface")
      by (repeat first [apply setdefault_is_Some | apply setdefault_keeps]).
    rewrite (setdefault_present "service_type")
      by (repeat first [apply setdefault_is_Some | apply setdefault_keeps]).
    rewrite (setdefault_present "region_name")
      by (repeat first [apply setdefault_is_Some | apply setdefault_keeps]).
    reflexivity.
Qed.

Lemma headers_attempt_kwargs client kwargs :
  SessionClient.headers (SessionClient_attempt_kwargs client kwargs)
  = SessionClient.headers kwargs.
Proof. reflexivity. Qed.

(** What the heap holds at [l] once the request of an attempt is out: the
    headers that went with it. *)
Lemma heap_SessionClient_sent client url method kwargs st l :
  SessionClient.headers kwargs = Some l ->
  default ∅ (heap (world (SessionClient_sent client url method kwargs st)) !! l)
  = default ∅ (SessionClient_attempt_headers kwargs st).
Proof.
  intros Hl. unfold SessionClient_sent. rewrite exec_send. cbn [world heap].
  unfold SessionClient_prepared, SessionClient_attempt_headers. rewrite Hl.
  destruct (truthy (os_ironic_api_version (self st))) eqn:Hver; last done.
  unfold exec, heap_put, effect. cbn [snd world heap].
  by rewrite lookup_insert_eq.
Qed.

Lemma SessionClient_negotiates client rec url method kwargs st resp v host port l :
  SessionClient.headers kwargs = Some l ->
  server (sent (world st) ++ [SessionClient_attempt_request client url method kwargs st])
    = inr resp ->
  status resp = 406 ->
  may_negotiate st ->
  truthy (SessionClient._parse_version_headers resp).2 = true ->
  negotiated (os_ironic_api_version (self st))
    (SessionClient._parse_version_headers resp).1
    (SessionClient._parse_version_headers resp).2 = Ok v ->
  get_server (endpoint (self st)) = Ok (host, port) ->
  SessionClient._http_request_func client rec url method kwargs st
  = rec url method (SessionClient_attempt_kwargs client kwargs)
      (SessionClient_renegotiated client url method kwargs v host port l st).
Proof.
  intros Hl Hsrv H406 Hs Hmax Hv Hget.
  assert (Hpassed : headers_passed kwargs st) by (intros _; rewrite Hl; eauto).
  rewrite (SessionClient_not_acceptable _ _ _ _ _ _ _ Hpassed Hsrv H406).
  destruct (SessionClient_sent_frame client url method kwargs st) as (Hself & _ & _).
  erewrite bind_Ok; last first.
  { apply (negotiate_version_settles SessionClient.mixin SessionClient_probe).
    - apply SessionClient_sends_probe.
    - unfold may_negotiate. by rewrite Hself.
    - exact Hmax.
    - rewrite Hself. exact Hv.
    - rewrite Hself. exact Hget. }
  unfold SessionClient.kwargs_headers. rewrite headers_attempt_kwargs, Hl.
  reflexivity.
Qed.

Lemma SessionClient_renegotiated_frame client url method kwargs v host port l st :
  SessionClient.headers kwargs = Some l ->
  let st3 := SessionClient_renegotiated client url method kwargs v host port l st in
  let rq := SessionClient_attempt_request client url method kwargs st in
  self st3 = set_os_ironic_api_version (Some v)
               (set_api_version_select_state "negotiated" (self st))
  /\ sent (world st3) = sent (world st) ++ [rq]
  /\ heap (world st3) !! l = Some (<[VERSION_HEADER := v]> (request_headers rq))
  /\ SessionClient_attempt_request client url method
       (SessionClient_attempt_kwargs client kwargs) st3
     = with_header VERSION_HEADER v rq.
Proof.
  intros Hl st3 rq.
  destruct (SessionClient_sent_frame client url method kwargs st) as (Hself & Hsent & _).
  assert (Hheap : heap (world st3) !! l = Some (<[VERSION_HEADER := v]> (request_headers rq))).
  { unfold st3, SessionClient_renegotiated. cbn zeta.
    unfold exec at 1, heap_put, effect. cbn [snd world heap].
    rewrite lookup_insert_eq. f_equal. f_equal.
    change (heap (world (negotiated_state v host port
                           (SessionClient_sent client url method kwargs st))))
      with (heap (world (SessionClient_sent client url method kwargs st))).
    by rewrite (heap_SessionClient_sent _ _ _ _ _ l Hl). }
  assert (Hself3 : self st3 = set_os_ironic_api_version (Some v)
                                (set_api_version_select_state "negotiated" (self st))).
  { unfold st3, SessionClient_renegotiated, negotiated_state. cbn. by rewrite Hself. }
  split; [exact Hself3 | split; [| split; [exact Hheap |]]].
  - unfold st3, SessionClient_renegotiated, negotiated_state. cbn. exact Hsent.
  - unfold SessionClient_attempt_request at 1. cbn zeta.
    rewrite attempt_kwargs_idempotent.
    unfold SessionClient_attempt_headers. rewrite headers_attempt_kwargs, Hl, Hheap, Hself3.
    cbn [default from_option id set_os_ironic_api_version os_ironic_api_version].
    assert (Hv : (if truthy (Some v)
                  then setdefault VERSION_HEADER v
                         (<[VERSION_HEADER := v]> (request_headers rq))
                  else <[VERSION_HEADER := v]> (request_headers rq))
                 = <[VERSION_HEADER := v]> (request_headers rq)).
    { destruct (truthy (Some v)); last done.
      apply setdefault_present. rewrite lookup_insert_eq. eauto. }
    rewrite Hv. reflexivity.
Qed.

(** X13.  When the first answer to [SessionClient._http_request] is a 406 with a
    maximum version, in select state [default] or [cached], and the
    negotiation settles on [v], the executor writes [v] into the header dict
    the caller passed (the same object, now holding the headers of the first
    request with the version changed) and calls itself with it: the second
    request sent is the first with that one header set to [v]. *)
Theorem SessionClient_replays_with_negotiated_version client fuel url method kwargs st
    resp v host port l :
  0 <= default DEFAULT_MAX_RETRIES (conflict_max_retries (self st)) ->
  SessionClient.headers kwargs = Some l ->
  let ver := os_ironic_api_version (self st) in
  let rq := SessionClient_attempt_request client url method kwargs st in
  server (sent (world st) ++ [rq]) = inr resp ->
  status resp = 406 ->
  may_negotiate st ->
  truthy (getheader resp "X-OpenStack-Ironic-API-Maximum-Version") = true ->
  negotiated ver (getheader resp "X-OpenStack-Ironic-API-Minimum-Version")
    (getheader resp "X-OpenStack-Ironic-API-Maximum-Version") = Ok v ->
  get_server (endpoint (self st)) = Ok (host, port) ->
  (forall rec, exists st3,
     SessionClient._http_request_func client rec url method kwargs st
     = rec url method (SessionClient_attempt_kwargs client kwargs) st3
     /\ heap (world st3) !! l = Some (<[VERSION_HEADER := v]> (request_headers rq))
     /\ api_version_select_state (self st3) = "negotiated"
     /\ os_ironic_api_version (self st3) = Some v)
  /\ exists more,
       sent (world (exec (SessionClient._http_request (S (S fuel)) client url method kwargs)
                      st))
       = sent (world st) ++ rq :: with_header VERSION_HEADER v rq :: more.
Proof.
  intros HN Hl ver rq Hsrv H406 Hs Hmax Hv Hget.
  set (start := mkState (retry_defaults (self st)) (world st)).
  set (kw' := SessionClient_attempt_kwargs client kwargs).
  split.
  - intros rec.
    exists (SessionClient_renegotiated client url method kwargs v host port l st).
    destruct (SessionClient_renegotiated_frame client url method kwargs v host port l st Hl)
      as (Hself3 & _ & Hheap & _).
    split; [by apply (SessionClient_negotiates _ _ _ _ _ _ resp) | split; [exact Hheap |]].
    by rewrite Hself3.
  - set (inner := SessionClient._http_request (S fuel) client).
    set (st3 := SessionClient_renegotiated client url method kwargs v host port l start).
    destruct (SessionClient_renegotiated_frame client url method kwargs v host port l start Hl)
      as (Hself3 & Hsent3 & Hheap3 & Hrq3).
    fold st3 in Hself3, Hsent3, Hheap3, Hrq3.
    change (SessionClient_attempt_request client url method kwargs start) with rq
      in Hsent3, Hheap3, Hrq3.
    assert (Hattempt :
              SessionClient._http_request_func client inner url method kwargs start
              = inner url method kw' st3).
    { by apply (SessionClient_negotiates _ _ _ _ _ _ resp). }
    assert (Hinner : exists more,
              sent (world (exec (inner url method kw') st3))
              = (sent (world st) ++ [rq]) ++ with_header VERSION_HEADER v rq :: more).
    { assert (Hpassed3 : headers_passed kw' (mkState (retry_defaults (self st3)) (world st3))).
      { intros _. unfold kw'. rewrite headers_attempt_kwargs, Hl. eauto. }
      destruct (SessionClient_attempt_sends client (SessionClient._http_request fuel client)
                  url method kw' (mkState (retry_defaults (self st3)) (world st3))
                  (appends_SessionClient_http_request fuel client) Hpassed3)
        as [more Hmore].
      destruct (with_retries_extends
                  (SessionClient._http_request_func client
                     (SessionClient._http_request fuel client)) url method kw' st3)
        as [more' Hmore'].
      + rewrite Hself3. exact HN.
      + apply appends_SessionClient_func. apply appends_SessionClient_http_request.
      + exists (more ++ more'). unfold inner.
        rewrite SessionClient_http_request_S, Hmore', Hmore.
        cbn [world]. rewrite Hsent3, <- !app_assoc. do 3 f_equal.
        rewrite <- Hrq3. reflexivity. }
    destruct Hinner as [more Hmore].
    destruct (with_retries_extends
                (SessionClient._http_request_func client inner) url method kwargs st HN
                (appends_SessionClient_func client inner url method kwargs
                   (appends_SessionClient_http_request (S fuel) client)))
      as [more' Hmore'].
    fold start in Hmore'. unfold exec at 2 in Hmore'. rewrite Hattempt in Hmore'.
    change (inner url method kw' st3).2 with (exec (inner url method kw') st3) in Hmore'.
    rewrite Hmore in Hmore'.
    exists (more ++ more'). rewrite SessionClient_http_request_S. fold inner.
    rewrite Hmore'. by rewrite <- !app_assoc.
Qed.

End SessionNegotiation.


(** * json_request of HTTPClient *)

Section ReadLines.

Lemma join_cons c l : join (c :: l) = c +:+ join l.
Proof. reflexivity. Qed.

Lemma join_readlines s : join (readlines s) = s.
Proof.
  induction s as [|c r IH]; first done.
  cbn [readlines]. destruct (Ascii.eqb c _).
  - rewrite join_cons, IH. reflexivity.
  - destruct (readlines r) as [|line lines] eqn:E.
    + cbn in IH. subst r. reflexivity.
    + rewrite join_cons in *. rewrite <- IH. reflexivity.
Qed.

End ReadLines.

Section HeaderDefaults.

Lemma lookup_setdefault_ne {V} (k k' : string) (v : V) (d : gmap string V) :
  k <> k' -> setdefault k v d !! k' = d !! k'.
Proof. intros Hne. rewrite lookup_setdefault. by rewrite decide_False. Qed.

Lemma lookup_setdefault_eq {V} (k : string) (v : V) (d : gmap string V) :
  setdefault k v d !! k = Some (default v (d !! k)).
Proof. rewrite lookup_setdefault. by rewrite decide_True. Qed.

(** The attempt leaves every header alone but the three it sets by
    default. *)
Lemma attempt_headers_other client ver h0 name :
  name <> "User-Agent" -> name <> VERSION_HEADER -> name <> "X-Auth-Token" ->
  HTTPClient_attempt_headers client ver h0 !! name = default ∅ h0 !! name.
Proof.
  intros Hua Hver Htok. unfold HTTPClient_attempt_headers.
  destruct (truthy (HTTPClient.auth_token client)), (truthy ver);
    rewrite ?lookup_setdefault_ne by done; reflexivity.
Qed.

Lemma json_headers_passed_lookup h0 :
  json_headers_passed h0 !! "Content-Type"
  = Some (default "application/json" (default ∅ h0 !! "Content-Type"))
  /\ json_headers_passed h0 !! "Accept"
     = Some (default "application/json" (default ∅ h0 !! "Accept")).
Proof.
  unfold json_headers_passed. split.
  - rewrite lookup_setdefault_ne by done. apply lookup_setdefault_eq.
  - rewrite lookup_setdefault_eq. by rewrite lookup_setdefault_ne by done.
Qed.

End HeaderDefaults.

Section JsonRequest.
Context {ext : Externals} {enc : Encoder}.
Local Open Scope Z_scope.

Lemma octet_stream_is_not_json resp :
  getheader resp "content-type" = Some "application/octet-stream" ->
  declared_json resp = false.
Proof. unfold declared_json. by intros ->. Qed.


End JsonRequest.


(** * json_request of SessionClient *)

Section SessionJson.
Context {ext : Externals} {enc : Encoder}.
Local Open Scope Z_scope.
Implicit Types (client : SessionClient.t).

Lemma header_dict_fresh kw st :
  SessionClient.headers kw = None -> heap (world st) !! header_dict kw st = None.
Proof.
  intros Hn. unfold header_dict. rewrite Hn.
  apply (not_elem_of_dom (D := gset nat)). apply is_fresh.
Qed.

(** The two [setdefault] on the header dict, whichever dict it is. *)
Lemma headers_defaults {A} kw (k1 v1 k2 v2 : string) (rest : loc -> M A) st :
  (l ← SessionClient.setdefault_headers kw;
   SessionClient.headers_setdefault l k1 v1;;
   SessionClient.headers_setdefault l k2 v2;;
   rest l) st
  = rest (header_dict kw st)
      (with_headers (header_dict kw st)
         (setdefault k2 v2 (setdefault k1 v1 (header_dict_before kw st))) st).
Proof.
  unfold SessionClient.setdefault_headers, SessionClient.headers_setdefault,
    header_dict, header_dict_before, with_headers.
  destruct (SessionClient.headers kw) as [l|].
  - unfold heap_alloc. mrun. rewrite !lookup_insert_eq, !insert_insert_eq. reflexivity.
  - unfold heap_alloc. mrun. rewrite !lookup_insert_eq, !insert_insert_eq. reflexivity.
Qed.

Lemma SessionClient_http_request_answered client fuel url method kwargs st resp :
  0 <= default DEFAULT_MAX_RETRIES (conflict_max_retries (self st)) ->
  headers_passed kwargs st ->
  server (sent (world st) ++ [SessionClient_attempt_request client url method kwargs st])
    = inr resp ->
  passes (status resp) ->
  SessionClient._http_request (S fuel) client url method kwargs st
  = (Ok (Some resp),
     SessionClient_sent client url method kwargs
       (mkState (retry_defaults (self st)) (world st))).
Proof.
  intros HN Hpassed Hsrv Hpass.
  rewrite SessionClient_http_request_S, with_retries_settled; try done.
  - by apply SessionClient_answered.
  - cbn zeta. unfold outcome. by erewrite SessionClient_answered.
Qed.

(** The header dict once the request of an attempt is out: what went with
    it. *)
Lemma heap_sent client url method kwargs st l :
  SessionClient.headers kwargs = Some l ->
  is_Some (heap (world st) !! l) ->
  heap (world (SessionClient_sent client url method kwargs st)) !! l
  = Some (request_headers (SessionClient_attempt_request client url method kwargs st)).
Proof.
  intros Hl [d Hd]. unfold SessionClient_sent. rewrite exec_send. cbn [world heap].
  unfold SessionClient_attempt_request, request_headers. cbn zeta.
  unfold SessionClient_prepared, SessionClient_attempt_headers. rewrite Hl, Hd.
  cbn [default from_option id].
  destruct (truthy (os_ironic_api_version (self st))); last done.
  unfold exec, heap_put, effect. cbn [snd world heap]. by rewrite lookup_insert_eq.
Qed.

Lemma session_headers_other kwargs st l name :
  SessionClient.headers kwargs = Some l ->
  name <> VERSION_HEADER ->
  default ∅ (SessionClient_attempt_headers kwargs st) !! name
  = default ∅ (heap (world st) !! l) !! name.
Proof.
  intros Hl Hname. unfold SessionClient_attempt_headers. rewrite Hl.
  cbn [default from_option id].
  destruct (truthy _); last done. by rewrite lookup_setdefault_ne.
Qed.


End SessionJson.


(** * raw_request *)

Section RawRequest.
Context {ext : Externals}.
Local Open Scope Z_scope.

Lemma header_default {A} kw (k v : string) (rest : loc -> M A) st :
  (l ← SessionClient.setdefault_headers kw;
   SessionClient.headers_setdefault l k v;;
   rest l) st
  = rest (header_dict kw st)
      (with_headers (header_dict kw st) (setdefault k v (header_dict_before kw st)) st).
Proof.
  unfold SessionClient.setdefault_headers, SessionClient.headers_setdefault,
    header_dict, header_dict_before, with_headers.
  destruct (SessionClient.headers kw) as [l|].
  - unfold heap_alloc. mrun. reflexivity.
  - unfold heap_alloc. mrun. rewrite !lookup_insert_eq, !insert_insert_eq. reflexivity.
Qed.


End RawRequest.


(** * VerifiedHTTPSConnection *)

Section TLS.
Context {fs : FileSystem} {net : VerifiedHTTPSConnection.Sockets}.

Lemma first_existing_spec paths :
  match VerifiedHTTPSConnection.first_existing paths with
  | Some ca =>
      exists before after,
        paths = before ++ ca :: after
        /\ os_path_exists ca = true
        /\ Forall (fun p => os_path_exists p = false) before
  | None => Forall (fun p => os_path_exists p = false) paths
  end.
Proof.
  induction paths as [|p rest IH]; first by constructor.
  cbn [VerifiedHTTPSConnection.first_existing].
  destruct (os_path_exists p) eqn:Hp.
  - by exists [], rest.
  - destruct (VerifiedHTTPSConnection.first_existing rest) as [ca|].
    + destruct IH as (before & after & -> & Hca & Hbefore).
      exists (p :: before), after. repeat split; try done. by constructor.
    + by constructor.
Qed.

(** X17.  [VerifiedHTTPSConnection.__init__] keeps the CA file it is given; with
    none it takes the first of the four system bundles that exists, in the
    order of the list, and [None] when none of them exists. *)
Theorem ca_file_falls_back_to_first_system_bundle
    (host : option string) (port : option Z) (key_file cert_file ca_file : option string)
    (timeout : option Z) (insecure : bool) :
  let conn := VerifiedHTTPSConnection.__init__ host port key_file cert_file ca_file
                timeout insecure in
  match ca_file with
  | Some f => VerifiedHTTPSConnection.ca_file conn = Some f
  | None =>
      match VerifiedHTTPSConnection.ca_file conn with
      | Some ca =>
          exists before after,
            VerifiedHTTPSConnection.ca_path = before ++ ca :: after
            /\ os_path_exists ca = true
            /\ Forall (fun p => os_path_exists p = false) before
      | None => Forall (fun p => os_path_exists p = false) VerifiedHTTPSConnection.ca_path
      end
  end.
Proof.
  destruct ca_file as [f|]; first done.
  exact (first_existing_spec VerifiedHTTPSConnection.ca_path).
Qed.

(** X18.  [VerifiedHTTPSConnection.connect] first opens the connection to host
    and port with the timeout, tunnels only when a tunnel host is set, and
    wraps the socket last.  The wrap asks for [CERT_NONE] exactly when
    [insecure] is true, and otherwise for [CERT_REQUIRED] with the CA file of
    the connection; the certificate is passed when there is one and the key
    only together with a certificate.  When the call returns, the socket of
    the connection is the wrapped one. *)
Theorem connect_verifies_the_peer_unless_insecure
    (self : VerifiedHTTPSConnection.t) (done : list VerifiedHTTPSConnection.Call) :
  let r := VerifiedHTTPSConnection.connect self done in
  exists calls,
    r.2.2 = done ++ calls
    /\ head calls = Some (VerifiedHTTPSConnection.create_connection
                            (VerifiedHTTPSConnection.host self)
                            (VerifiedHTTPSConnection.port self)
                            (VerifiedHTTPSConnection.timeout self))
    /\ (forall kwargs, VerifiedHTTPSConnection.wrap_socket kwargs ∈ calls ->
          last calls = Some (VerifiedHTTPSConnection.wrap_socket kwargs)
          /\ (VerifiedHTTPSConnection.cert_reqs kwargs = VerifiedHTTPSConnection.CERT_NONE
              <-> VerifiedHTTPSConnection.insecure self = true)
          /\ (VerifiedHTTPSConnection.insecure self = false ->
              VerifiedHTTPSConnection.ca_certs kwargs
              = Some (VerifiedHTTPSConnection.ca_file self))
          /\ VerifiedHTTPSConnection.certfile kwargs
             = (if truthy (VerifiedHTTPSConnection.cert_file self)
                then VerifiedHTTPSConnection.cert_file self else None)
          /\ VerifiedHTTPSConnection.keyfile kwargs
             = (if truthy (VerifiedHTTPSConnection.cert_file self)
                   && truthy (VerifiedHTTPSConnection.key_file self)
                then VerifiedHTTPSConnection.key_file self else None))
    /\ (VerifiedHTTPSConnection._tunnel ∈ calls ->
        truthy (VerifiedHTTPSConnection._tunnel_host self) = true)
    /\ (r.1 = Ok () ->
        exists kwargs,
          last calls = Some (VerifiedHTTPSConnection.wrap_socket kwargs)
          /\ VerifiedHTTPSConnection.sock r.2.1
             = Some (VerifiedHTTPSConnection.ssl_socket kwargs)).
Proof.
  cbn zeta. unfold VerifiedHTTPSConnection.connect.
  set (c1 := VerifiedHTTPSConnection.create_connection _ _ _).
  assert (Hsame : forall s, VerifiedHTTPSConnection.wrap_kwargs
                              (VerifiedHTTPSConnection.set_sock s self)
                            = VerifiedHTTPSConnection.wrap_kwargs self) by done.
  pose (kw := VerifiedHTTPSConnection.wrap_kwargs self).
  assert (Hkw : (VerifiedHTTPSConnection.cert_reqs kw = VerifiedHTTPSConnection.CERT_NONE
                 <-> VerifiedHTTPSConnection.insecure self = true)
                /\ (VerifiedHTTPSConnection.insecure self = false ->
                    VerifiedHTTPSConnection.ca_certs kw
                    = Some (VerifiedHTTPSConnection.ca_file self))
                /\ VerifiedHTTPSConnection.certfile kw
                   = (if truthy (VerifiedHTTPSConnection.cert_file self)
                      then VerifiedHTTPSConnection.cert_file self else None)
                /\ VerifiedHTTPSConnection.keyfile kw
                   = (if truthy (VerifiedHTTPSConnection.cert_file self)
                         && truthy (VerifiedHTTPSConnection.key_file self)
                      then VerifiedHTTPSConnection.key_file self else None)).
  { unfold kw, VerifiedHTTPSConnection.wrap_kwargs.
    destruct (VerifiedHTTPSConnection.insecure self),
      (truthy (VerifiedHTTPSConnection.cert_file self)),
      (truthy (VerifiedHTTPSConnection.key_file self)); cbn; by repeat split. }

  assert (Hwrap : forall calls kwargs,
            VerifiedHTTPSConnection.wrap_socket kwargs
            ∈ calls ++ [VerifiedHTTPSConnection.wrap_socket kw] ->
            (forall k, VerifiedHTTPSConnection.wrap_socket k ∉ calls) ->
            kwargs = kw).
  { intros calls kwargs Hin Hnot. apply elem_of_app in Hin as [Hin|Hin].
    - by apply Hnot in Hin.
    - apply list_elem_of_singleton in Hin. by injection Hin. }
  destruct (VerifiedHTTPSConnection.socket_fails (done ++ [c1])) as [e1|].
  { exists [c1]. cbn [fst snd]. split_and!; try done.
    - intros k Hin. apply list_elem_of_singleton in Hin. discriminate Hin.
    - intros Hin. apply list_elem_of_singleton in Hin. discriminate Hin. }
  destruct (truthy (VerifiedHTTPSConnection._tunnel_host self)) eqn:Htun.
  - destruct (VerifiedHTTPSConnection.socket_fails
                ((done ++ [c1]) ++ [VerifiedHTTPSConnection._tunnel])) as [e2|].
    { exists [c1; VerifiedHTTPSConnection._tunnel]. cbn [fst snd].
      rewrite <- app_assoc. split_and!; try done.
      intros k Hin. apply elem_of_cons in Hin as [Hin|Hin]; first discriminate Hin.
      apply list_elem_of_singleton in Hin. discriminate Hin. }
    rewrite !Hsame. fold kw.
    exists [c1; VerifiedHTTPSConnection._tunnel; VerifiedHTTPSConnection.wrap_socket kw].
    assert (Hlist : forall k, VerifiedHTTPSConnection.wrap_socket k
                              ∈ [c1; VerifiedHTTPSConnection._tunnel;
                                 VerifiedHTTPSConnection.wrap_socket kw] -> k = kw).
    { intros k Hin. apply (Hwrap [c1; VerifiedHTTPSConnection._tunnel] k Hin).
      intros k' Hin'. apply elem_of_cons in Hin' as [Hin'|Hin']; first discriminate Hin'.
      apply list_elem_of_singleton in Hin'. discriminate Hin'. }
    destruct (VerifiedHTTPSConnection.socket_fails _) as [e3|]; cbn [fst snd].
    + split_and!; try done.
      * by rewrite <- !app_assoc.
      * intros k Hin. apply Hlist in Hin as ->. by split.
    + split_and!; try done.
      * by rewrite <- !app_assoc.
      * intros k Hin. apply Hlist in Hin as ->. by split.
      * intros _. by exists kw.
  - fold kw.
    exists [c1; VerifiedHTTPSConnection.wrap_socket kw].
    assert (Hlist : forall k, VerifiedHTTPSConnection.wrap_socket k
                              ∈ [c1; VerifiedHTTPSConnection.wrap_socket kw] -> k = kw).
    { intros k Hin. apply (Hwrap [c1] k Hin).
      intros k' Hin'. apply list_elem_of_singleton in Hin'. discriminate Hin'. }
    destruct (VerifiedHTTPSConnection.socket_fails _) as [e3|]; cbn [fst snd].
    + split_and!; try done.
      * by rewrite <- !app_assoc.
      * intros k Hin. apply Hlist in Hin as ->. by split.
      * intros Hin. apply elem_of_cons in Hin as [Hin|Hin]; first discriminate Hin.
        apply list_elem_of_singleton in Hin. discriminate Hin.
    + split_and!; try done.
      * by rewrite <- !app_assoc.
      * intros k Hin. apply Hlist in Hin as ->. by split.
      * intros Hin. apply elem_of_cons in Hin as [Hin|Hin]; first discriminate Hin.
        apply list_elem_of_singleton in Hin. discriminate Hin.
      * intros _. by exists kw.
Qed.

End TLS.


(** * _construct_http_client with a session *)

Section ConstructFacts.
Context {ext : Externals} {ks : Keystone}.

Lemma dvars_nil a :
  map fst (List.filter snd (ignored a)) = [] <-> raw_options_given a = false.
Proof.
  unfold ignored, raw_options_given. cbn [List.filter snd map fst].
  destruct (truthy (arg_token a)), (truthy (arg_auth_ref a)),
    (negb (bool_decide (arg_timeout a = Some 600%Z))), (truthy (arg_ca_file a)),
    (truthy (arg_cert_file a)), (truthy (arg_key_file a)),
    (default false (arg_insecure a)); cbn; split; congruence.
Qed.

(** X19.  With a session, [_construct_http_client] builds a [SessionClient]: the
    adapter gets the keyword arguments with [service_type], [user_agent],
    [interface] (from [endpoint_type], which is removed) and
    [endpoint_override] (the endpoint) filled in where absent, every other
    one as given.  Token, auth_ref, timeout, CA file, certificate, key and
    [insecure] have no effect on the result; one warning is logged exactly
    when one of them is set. *)
Theorem construct_with_session_ignores_raw_options (a : ConstructArgs)
    (session : Session) (st : State) :
  arg_session a = Some session ->
  let kw := arg_kwargs a in
  exists kwargs : gmap string (option string),
    outcome (_construct_http_client a) st
    = (adapter ← Adapter_init session kwargs;
       Ok (inl (mkAttrs (arg_endpoint a) (arg_api_version_select_state a)
                  (arg_os_ironic_api_version a) (arg_max_retries a)
                  (arg_retry_interval a),
                adapter)))
    /\ kwargs !! "service_type" = Some (default (Some "baremetal") (kw !! "service_type"))
    /\ kwargs !! "user_agent"
       = Some (default (Some "python-ironicclient") (kw !! "user_agent"))
    /\ kwargs !! "interface"
       = Some (default (default None (kw !! "endpoint_type")) (kw !! "interface"))
    /\ kwargs !! "endpoint_override"
       = Some (default (arg_endpoint a) (kw !! "endpoint_override"))
    /\ kwargs !! "endpoint_type" = None
    /\ (forall key, key ∉ ["service_type"; "user_agent"; "interface";
                           "endpoint_override"; "endpoint_type"] ->
          kwargs !! key = kw !! key)
    /\ logged (world (exec (_construct_http_client a) st))
       = logged (world st)
         ++ (if raw_options_given a
             then [(WARNING,
                    "The following arguments are ignored when using the session to construct a client: %s")]
             else [])
    /\ (forall b, same_but_raw_options a b ->
          outcome (_construct_http_client b) st = outcome (_construct_http_client a) st).
Proof.
  intros Hs kw.
  assert (Hrun : forall b, arg_session b = Some session ->
            exists K,
              _construct_http_client b
              = ((if raw_options_given b
                  then LOG WARNING
                         "The following arguments are ignored when using the session to construct a client: %s"
                  else mret ());;
                 adapter ← lift (Adapter_init session K);
                 mret (inl (SessionClient.__init__ (arg_os_ironic_api_version b)
                              (arg_api_version_select_state b) (arg_max_retries b)
                              (arg_retry_interval b) (arg_endpoint b) adapter)))
              /\ K = setdefault "endpoint_override" (arg_endpoint b)
                       (setdefault "interface"
                          (default None
                             (setdefault "user_agent" (Some "python-ironicclient")
                                (setdefault "service_type" (Some "baremetal")
                                   (arg_kwargs b)) !! "endpoint_type"))
                          (delete "endpoint_type"
                             (setdefault "user_agent" (Some "python-ironicclient")
                                (setdefault "service_type" (Some "baremetal")
                                   (arg_kwargs b)))))).
  { intros b Hb. eexists. split; last reflexivity.
    unfold _construct_http_client. rewrite Hb.
    destruct (raw_options_given b) eqn:Hg.
    - destruct (map fst (List.filter snd (ignored b))) eqn:Hd; last done.
      apply dvars_nil in Hd. congruence.
    - apply dvars_nil in Hg. by rewrite Hg. }
  destruct (Hrun a Hs) as (K & Ha & HK).
  exists K.
  assert (Hout : forall b Kb,
            _construct_http_client b
            = ((if raw_options_given b
                then LOG WARNING
                       "The following arguments are ignored when using the session to construct a client: %s"
                else mret ());;
               adapter ← lift (Adapter_init session Kb);
               mret (inl (SessionClient.__init__ (arg_os_ironic_api_version b)
                            (arg_api_version_select_state b) (arg_max_retries b)
                            (arg_retry_interval b) (arg_endpoint b) adapter))) ->
            outcome (_construct_http_client b) st
            = (adapter ← Adapter_init session Kb;
               Ok (inl (mkAttrs (arg_endpoint b) (arg_api_version_select_state b)
                          (arg_os_ironic_api_version b) (arg_max_retries b)
                          (arg_retry_interval b),
                        adapter)))).
  { intros b Kb ->. unfold outcome.
    destruct (raw_options_given b); mrun;
      by destruct (Adapter_init session Kb). }
  assert (Hlog : forall b Kb,
            _construct_http_client b
            = ((if raw_options_given b
                then LOG WARNING
                       "The following arguments are ignored when using the session to construct a client: %s"
                else mret ());;
               adapter ← lift (Adapter_init session Kb);
               mret (inl (SessionClient.__init__ (arg_os_ironic_api_version b)
                            (arg_api_version_select_state b) (arg_max_retries b)
                            (arg_retry_interval b) (arg_endpoint b) adapter))) ->
            logged (world (exec (_construct_http_client b) st))
            = logged (world st)
              ++ (if raw_options_given b
                  then [(WARNING,
                         "The following arguments are ignored when using the session to construct a client: %s")]
                  else [])).
  { intros b Kb ->. unfold exec.
    destruct (raw_options_given b); mrun;
      destruct (Adapter_init session Kb); cbn; by rewrite ?app_nil_r. }
  assert (Het : setdefault "user_agent" (Some "python-ironicclient")
                  (setdefault "service_type" (Some "baremetal") (arg_kwargs a))
                !! "endpoint_type" = kw !! "endpoint_type").
  { by rewrite !lookup_setdefault_ne by done. }
  split_and!.
  - by apply Hout.
  - subst K. rewrite !lookup_setdefault_ne by done.
    rewrite lookup_delete_ne by done.
    rewrite lookup_setdefault_ne by done. apply lookup_setdefault_eq.
  - subst K. rewrite !lookup_setdefault_ne by done.
    rewrite lookup_delete_ne by done.
    by rewrite lookup_setdefault_eq, lookup_setdefault_ne by done.
  - subst K. rewrite lookup_setdefault_ne by done.
    rewrite lookup_setdefault_eq, Het, lookup_delete_ne by done.
    by rewrite !lookup_setdefault_ne by done.
  - subst K. rewrite lookup_setdefault_eq, lookup_setdefault_ne by done.
    rewrite lookup_delete_ne by done.
    by rewrite !lookup_setdefault_ne by done.
  - subst K. rewrite !lookup_setdefault_ne by done. apply lookup_delete_eq.
  - intros key Hkey. subst K.
    rewrite !elem_of_cons, elem_of_nil in Hkey.
    rewrite !lookup_setdefault_ne by naive_solver.
    rewrite lookup_delete_ne by naive_solver.
    by rewrite !lookup_setdefault_ne by naive_solver.
  - by apply (Hlog a K).
  - intros b (Hep & Hsess & Hver & Hstate & Hmax & Hint & Hkw).
    destruct (Hrun b) as (Kb & Hb & HKb); first by rewrite <- Hsess.
    rewrite (Hout a K Ha), (Hout b Kb Hb).
    rewrite <- Hep, <- Hver, <- Hstate, <- Hmax, <- Hint.
    replace Kb with K; first done.
    subst K Kb. by rewrite <- Hep, <- Hkw.
Qed.

End ConstructFacts.


(** * _construct_http_client without a session *)

Section ConstructRaw.
Context {ext : Externals} {ks : Keystone}.

(** X20.  Without a session, [_construct_http_client] is [HTTPClient.__init__]
    on the named arguments: the client carries the token and the auth_ref,
    the instance the endpoint, version, select state and retry settings; with
    no endpoint it raises [AttributeError].  Keyword arguments the signature
    does not name have no effect on the result; one warning is logged
    exactly when there are some. *)
Theorem construct_without_session_builds_the_raw_client (a : ConstructArgs) (st : State) :
  arg_session a = None ->
  let kwargs :=
    HTTPClient.mkInitKwargs (arg_token a) (arg_auth_ref a)
      (Some (arg_os_ironic_api_version a)) (Some (arg_api_version_select_state a))
      (Some (arg_max_retries a)) (Some (arg_retry_interval a))
      (arg_timeout a) (arg_ca_file a) (arg_cert_file a) (arg_key_file a)
      (arg_insecure a) in
  let run := _construct_http_client a in
  outcome run st = (client ← HTTPClient.__init__ (arg_endpoint a) kwargs; Ok (inr client))
  /\ (forall attrs client, outcome run st = Ok (inr (attrs, client)) ->
        attrs = mkAttrs (arg_endpoint a) (arg_api_version_select_state a)
                  (arg_os_ironic_api_version a) (arg_max_retries a)
                  (arg_retry_interval a)
        /\ HTTPClient.auth_token client = arg_token a
        /\ HTTPClient.auth_ref client = arg_auth_ref a)
  /\ (arg_endpoint a = None -> outcome run st = Raise AttributeError)
  /\ logged (world (exec run st))
     = logged (world st)
       ++ (if bool_decide (arg_kwargs a = ∅) then []
           else [(WARNING,
                  "The following arguments are being ignored when constructing the client: %s")])
  /\ (forall b, same_but_kwargs a b ->
        outcome (_construct_http_client b) st = outcome run st).
Proof.
  intros Hs kwargs run.
  assert (Hout : forall b, arg_session b = None ->
            outcome (_construct_http_client b) st
            = (client ← HTTPClient.__init__ (arg_endpoint b)
                          (HTTPClient.mkInitKwargs (arg_token b) (arg_auth_ref b)
                             (Some (arg_os_ironic_api_version b))
                             (Some (arg_api_version_select_state b))
                             (Some (arg_max_retries b)) (Some (arg_retry_interval b))
                             (arg_timeout b) (arg_ca_file b) (arg_cert_file b)
                             (arg_key_file b) (arg_insecure b));
               Ok (inr client))).
  { intros b Hb. unfold outcome, _construct_http_client. rewrite Hb.
    destruct (bool_decide (arg_kwargs b = ∅)); mrun;
      by destruct (HTTPClient.__init__ _ _). }
  assert (Hrun := Hout a Hs). fold run kwargs in Hrun.
  split_and!.
  - exact Hrun.
  - intros attrs client. rewrite Hrun.
    unfold HTTPClient.__init__. destruct (arg_endpoint a) as [url|]; last done.
    cbn [kwargs HTTPClient.kw_token HTTPClient.kw_auth_ref
         HTTPClient.kw_os_ironic_api_version HTTPClient.kw_api_version_select_state
         HTTPClient.kw_max_retries HTTPClient.kw_retry_interval default from_option id].
    destruct (HTTPClient.get_connection_params url _) as [params| |]; try done.
    cbn. by intros [= <- <-].
  - intros Hn. rewrite Hrun, Hn. reflexivity.
  - unfold run, exec, _construct_http_client. rewrite Hs.
    destruct (bool_decide (arg_kwargs a = ∅)); mrun;
      destruct (HTTPClient.__init__ _ _); cbn; by rewrite ?app_nil_r.
  - intros b Hb. unfold same_but_kwargs in Hb.
    injection Hb as Hep Hsess Htok Href Hver Hstate Hmax Hint Htime Hca Hcert Hkey Hins.
    rewrite Hrun, Hout by by rewrite <- Hsess.
    unfold kwargs.
    by rewrite Hep, Htok, Href, Hver, Hstate, Hmax, Hint, Htime, Hca, Hcert, Hkey, Hins.
Qed.

End ConstructRaw.


(** * PortgroupManager: create *)

Section Portgroup.
Context {S Resource : Type} {base : PortgroupManager.Manager S Resource}.

Lemma create_loop_valid items : forall new,
  Forall (fun kv => kv.1 ∈ PortgroupManager.CREATION_ATTRIBUTES) items ->
  PortgroupManager.create_loop items new = inr (assigned items new).
Proof.
  induction items as [|[key value] rest IH]; intros new Hall; first done.
  apply Forall_cons in Hall as [Hkey Hrest].
  cbn [PortgroupManager.create_loop]. rewrite bool_decide_true by done.
  by apply IH.
Qed.

Lemma create_loop_invalid items : forall new,
  Exists (fun kv => kv.1 ∉ PortgroupManager.CREATION_ATTRIBUTES) items ->
  PortgroupManager.create_loop items new = inl PortgroupManager.InvalidAttribute.
Proof.
  induction items as [|[key value] rest IH]; intros new Hex.
  - by apply Exists_nil in Hex.
  - cbn [PortgroupManager.create_loop].
    destruct (decide (key ∈ PortgroupManager.CREATION_ATTRIBUTES)) as [Hin|Hnot].
    + rewrite bool_decide_true by done. apply IH.
      apply Exists_cons in Hex as [Hbad|Hrest]; [done | exact Hrest].
    + by rewrite bool_decide_false.
Qed.

Lemma assigned_list_to_map items : forall new,
  assigned items new = list_to_map (reverse items) ∪ new.
Proof.
  induction items as [|[key value] rest IH]; intros new.
  - cbn. by rewrite (left_id_L ∅ (∪)).
  - change (assigned ((key, value) :: rest) new)
      with (assigned rest (<[key := value]> new)).
    rewrite IH, reverse_cons, list_to_map_app. cbn [list_to_map foldr fst snd].
    rewrite <- (assoc_L (∪)). f_equal.
    by rewrite insert_empty, <- insert_union_singleton_l.
Qed.

Lemma assigned_NoDup items :
  NoDup items.*1 -> assigned items ∅ = list_to_map items.
Proof.
  intros Hnd. rewrite assigned_list_to_map, (right_id_L ∅ (∪)).
  apply list_to_map_proper; first by rewrite fmap_reverse, reverse_Permutation.
  apply reverse_Permutation.
Qed.

(** X21.  [PortgroupManager.create], for keyword arguments with distinct names:
    when every name is one of [CREATION_ATTRIBUTES] (node_uuid, name,
    address, extra) it posts exactly those items to [/v1/portgroups];
    when one is not, it raises [InvalidAttribute] and posts nothing; the
    order of the arguments makes no difference. *)
Theorem create_accepts_only_creation_attributes (kwargs : list (string * json)) (s : S) :
  NoDup kwargs.*1 ->
  (Forall (fun kv => kv.1 ∈ PortgroupManager.CREATION_ATTRIBUTES) kwargs ->
   PortgroupManager.create kwargs s
   = PortgroupManager._create "/v1/portgroups" (list_to_map kwargs) s)
  /\ (Exists (fun kv => kv.1 ∉ PortgroupManager.CREATION_ATTRIBUTES) kwargs ->
      PortgroupManager.create kwargs s = (inl PortgroupManager.InvalidAttribute, s))
  /\ (forall kwargs', kwargs' ≡ₚ kwargs ->
        PortgroupManager.create kwargs' s = PortgroupManager.create kwargs s).
Proof.
  intros Hnd.
  assert (Hvalid : forall items, NoDup items.*1 ->
            Forall (fun kv => kv.1 ∈ PortgroupManager.CREATION_ATTRIBUTES) items ->
            PortgroupManager.create items s
            = PortgroupManager._create "/v1/portgroups" (list_to_map items) s).
  { intros items Hn Hall. unfold PortgroupManager.create.
    by rewrite create_loop_valid, assigned_NoDup. }
  assert (Hinvalid : forall items,
            Exists (fun kv => kv.1 ∉ PortgroupManager.CREATION_ATTRIBUTES) items ->
            PortgroupManager.create items s = (inl PortgroupManager.InvalidAttribute, s)).
  { intros items Hex. unfold PortgroupManager.create.
    by rewrite create_loop_invalid. }
  split; [by apply Hvalid | split; [by apply Hinvalid |]].
  intros kwargs' Hperm.
  assert (Hnd' : NoDup kwargs'.*1) by by rewrite Hperm.
  destruct (decide (Forall (fun kv => kv.1 ∈ PortgroupManager.CREATION_ATTRIBUTES) kwargs))
    as [Hall|Hnot].
  - rewrite (Hvalid kwargs Hnd Hall), (Hvalid kwargs' Hnd') by by rewrite Hperm.
    f_equal. apply list_to_map_proper; done.
  - apply not_Forall_Exists in Hnot; last (intros kv; apply _).
    rewrite (Hinvalid kwargs Hnot). apply Hinvalid. by rewrite Hperm.
Qed.

End Portgroup.


(** * PortgroupManager: lookups and listing *)

Section StringAppend.

Lemma append_nil_r (s : string) : s +:+ "" = s.
Proof. induction s as [|c r IH]; first done. exact (f_equal (String c) IH). Qed.

Lemma append_assoc (a b c : string) : (a +:+ b) +:+ c = a +:+ (b +:+ c).
Proof. induction a as [|x r IH]; first done. exact (f_equal (String x) IH). Qed.

Lemma path_of_nonempty (c : ascii) (r : string) :
  PortgroupManager._path (Some (String c r)) = "/v1/portgroups/" +:+ String c r.
Proof. reflexivity. Qed.

End StringAppend.

Section PortgroupLookups.
Context {S Resource : Type} {base : PortgroupManager.Manager S Resource}.

(** X22.  [PortgroupManager.get] lists [/v1/portgroups/<id>], with [?fields=]
    and the comma-separated fields when fields are given, and returns the
    first item: [None] when the listing is empty or raised [IndexError],
    which it never raises itself; any other exception goes through.  An
    empty id addresses the whole collection. *)
Theorem get_returns_the_first_or_None (portgroup_id : string)
    (fields : option (list string)) (s : S) :
  let path := PortgroupManager._path (Some (portgroup_id +:+ fields_query fields)) in
  let listing := PortgroupManager._list path None s in
  let r := PortgroupManager.get portgroup_id fields s in
  r.2 = listing.2
  /\ r.1 <> inl PortgroupManager.IndexError
  /\ (forall portgroups, listing.1 = inr portgroups -> r.1 = inr (head portgroups))
  /\ (listing.1 = inl PortgroupManager.IndexError -> r.1 = inr None)
  /\ (forall e, listing.1 = inl e -> e <> PortgroupManager.IndexError -> r.1 = inl e)
  /\ (portgroup_id <> "" ->
      path = "/v1/portgroups/" +:+ portgroup_id +:+ fields_query fields)
  /\ (portgroup_id = "" -> fields = None -> path = "/v1/portgroups").
Proof.
  cbn zeta.
  assert (Hid : match fields with
                | Some fields => (portgroup_id +:+ "?fields=") +:+ String.concat "," fields
                | None => portgroup_id
                end = portgroup_id +:+ fields_query fields).
  { unfold fields_query. destruct fields as [f|].
    - apply append_assoc.
    - by rewrite append_nil_r. }
  unfold PortgroupManager.get. rewrite Hid.
  set (path := PortgroupManager._path _).
  assert (Hpath : portgroup_id <> "" ->
            path = "/v1/portgroups/" +:+ portgroup_id +:+ fields_query fields).
  { intros Hne. subst path. by destruct portgroup_id as [|c r]. }
  assert (Hempty : portgroup_id = "" -> fields = None -> path = "/v1/portgroups").
  { intros -> ->. reflexivity. }
  unfold PortgroupManager.except_IndexError, mbind, PortgroupManager.Mgr_mbind.
  destruct (PortgroupManager._list path None s) as [[e|[|first rest]] s'] eqn:El;
    cbn [fst snd].
  - destruct e; split_and!; try done; by intros e' [= <-].
  - split_and!; try done. by intros l [= <-].
  - split_and!; try done. by intros l [= <-].
Qed.

(** X23.  [PortgroupManager.get_by_address] lists the port groups with the
    address ([detail?address=] without fields, [?address=...&fields=...]
    with) and returns the port group when the listing has exactly one; with
    none or with several it raises [NotFound]; an exception of the listing
    goes through. *)
Theorem get_by_address_wants_exactly_one (address : string)
    (fields : option (list string)) (s : S) :
  let path :=
    "/v1/portgroups/"
    +:+ match fields with
        | Some fields => "?address=" +:+ address +:+ "&fields=" +:+ String.concat "," fields
        | None => "detail?address=" +:+ address
        end in
  let listing := PortgroupManager._list path (Some "portgroups") s in
  let r := PortgroupManager.get_by_address address fields s in
  r.2 = listing.2
  /\ (forall portgroup, listing.1 = inr [portgroup] -> r.1 = inr portgroup)
  /\ (forall portgroups, listing.1 = inr portgroups -> length portgroups <> 1%nat ->
        r.1 = inl PortgroupManager.NotFound)
  /\ (forall e, listing.1 = inl e -> r.1 = inl e).
Proof.
  cbn zeta. unfold PortgroupManager.get_by_address.
  assert (Hpath : PortgroupManager._path
                    (Some match fields with
                          | Some fields =>
                              ("?address=" +:+ address)
                              +:+ ("&fields=" +:+ String.concat "," fields)
                          | None => "detail" +:+ ("?address=" +:+ address)
                          end)
                  = "/v1/portgroups/"
                    +:+ match fields with
                        | Some fields =>
                            "?address=" +:+ address +:+ "&fields="
                            +:+ String.concat "," fields
                        | None => "detail?address=" +:+ address
                        end).
  { destruct fields as [f|]; last reflexivity.
    rewrite append_assoc. reflexivity. }
  rewrite Hpath. set (path := "/v1/portgroups/" +:+ _).
  unfold mbind, PortgroupManager.Mgr_mbind.
  destruct (PortgroupManager._list path (Some "portgroups") s)
    as [[e|[|first [|second rest]]] s']; cbn [fst snd].
  - split_and!; try done. by intros e' [= <-].
  - split_and!; try done.
  - split_and!; try done.
    + by intros p [= <-].
    + intros l [= <-]. done.
  - split_and!; try done.
Qed.

(** X24.  [PortgroupManager.list] raises [InvalidAttribute], sending nothing,
    when it is asked for [detail] together with a non-empty list of fields.
    Otherwise it lists [/v1/portgroups] (or [/v1/portgroups/detail]) with the
    common filters and the address as query, paginated when a limit is
    given; the [node] argument is never used. *)
Theorem list_refuses_fields_with_detail (node address : option string) (limit : option Z)
    (marker sort_key sort_dir : option string) (detail : bool)
    (fields : option (list string)) (s : S) :
  let filters := list_filters address limit marker sort_key sort_dir fields in
  let path :=
    if detail then
      if filters is [] then "/v1/portgroups/detail"
      else "/v1/portgroups/detail?" +:+ String.concat "&" filters
    else
      if filters is [] then "/v1/portgroups"
      else "/v1/portgroups/?" +:+ String.concat "&" filters in
  let r := PortgroupManager.list node address limit marker sort_key sort_dir detail fields s in
  (detail = true -> (exists f rest, fields = Some (f :: rest)) ->
   r = (inl PortgroupManager.InvalidAttribute, s))
  /\ (detail = false \/ fields = None \/ fields = Some [] ->
      r = match limit with
          | None => PortgroupManager._list path (Some "portgroups") s
          | Some limit => PortgroupManager._list_pagination path "portgroups" limit s
          end)
  /\ (forall node',
        PortgroupManager.list node' address limit marker sort_key sort_dir detail fields s
        = r).
Proof.
  cbn zeta. split_and!.
  - intros -> (f & rest & ->). reflexivity.
  - intros Hok. unfold PortgroupManager.list.
    assert (Hguard : detail && (if fields is Some (_ :: _) then true else false) = false).
    { destruct Hok as [-> | [-> | ->]]; try done; by destruct detail. }
    rewrite Hguard.
    assert (Hfilters : match address with
                       | Some address =>
                           PortgroupManager.common_filters marker limit sort_key sort_dir
                             fields ++ ["address=" +:+ address]
                       | None =>
                           PortgroupManager.common_filters marker limit sort_key sort_dir
                             fields
                       end
                       = list_filters address limit marker sort_key sort_dir fields).
    { unfold list_filters. destruct address; by rewrite ?app_nil_r. }
    rewrite Hfilters.
    set (filters := list_filters _ _ _ _ _ _).
    assert (Hpath : PortgroupManager._path
                      (Some match filters with
                            | [] => if detail then "" +:+ "detail" else ""
                            | _ :: _ =>
                                (if detail then "" +:+ "detail" else "")
                                +:+ ("?" +:+ String.concat "&" filters)
                            end)
                    = if detail then
                        if filters is [] then "/v1/portgroups/detail"
                        else "/v1/portgroups/detail?" +:+ String.concat "&" filters
                      else
                        if filters is [] then "/v1/portgroups"
                        else "/v1/portgroups/?" +:+ String.concat "&" filters).
    { destruct detail, filters; reflexivity. }
    rewrite Hpath. by destruct limit.
  - reflexivity.
Qed.

End PortgroupLookups.


(** * Runs of the further statements *)

Ltac solve_passes :=
  unfold passes; cbn [status Scenarios.binary Scenarios.not_json Fixtures.ok_response];
  split_and!; [lia | lia | rewrite !elem_of_cons, elem_of_nil; lia | lia].

(** The default client: leading slashes of the URL do not matter. *)
Lemma connection_url_joins_with_one_slash_witness :
  let ext := Fixtures.externals [] in
  HTTPClient._make_connection_url Fixtures.http_client "v1/nodes" = "/v1/nodes"
  /\ HTTPClient._make_connection_url Fixtures.http_client "/v1/nodes"
     = HTTPClient._make_connection_url Fixtures.http_client "v1/nodes".
Proof.
  intros ext.
  destruct (connection_url_joins_with_one_slash (ext := ext)
              Fixtures.endpoint_url HTTPClient.no_kwargs
              Fixtures.attrs Fixtures.http_client "v1/nodes"
              ltac:(vm_compute; reflexivity))
    as (Hurl & _ & _ & Hslash).
  split; [exact Hurl | exact Hslash].
Defined.

(** An endpoint on a scheme that is neither http nor https. *)
Lemma connection_class_follows_the_scheme_witness :
  let ext := Fixtures.externals [] in
  HTTPClient.__init__ (Some "ftp://ironic.example.com/v1") HTTPClient.no_kwargs
  = Raise EndpointException.
Proof.
  intros ext.
  destruct (connection_class_follows_the_scheme (ext := ext) "ftp://ironic.example.com/v1"
              HTTPClient.no_kwargs) as (_ & _ & _ & Hother).
  apply (Hother None); [reflexivity | discriminate | discriminate].
Defined.

Lemma refused_attempt_frame {ext : Externals} url method st :
  self (exec (Fixtures.refused_attempt url method ()) st) = self st
  /\ slept (world (exec (Fixtures.refused_attempt url method ()) st)) = slept (world st).
Proof.
  unfold Fixtures.refused_attempt, try_except, exec.
  rewrite bind_run, send_eq, exec_send.
  destruct (server _) as [e|resp]; last done. by destruct e.
Qed.

(** Two timeouts, then an answer: the third attempt is the one that comes
    back, after two sleeps of two seconds. *)
Lemma with_retries_stops_at_first_settled_attempt_witness :
  let ext := Fixtures.externals
               [inl socket_timeout; inl socket_error; inr Fixtures.ok_response] in
  let call := with_retries Fixtures.refused_attempt "/v1/nodes" "GET" () in
  outcome call Fixtures.start = Ok None
  /\ slept (world (exec call Fixtures.start)) = [2; 2]%Z
  /\ length (sent (world (exec call Fixtures.start))) = 3%nat.
Proof.
  intros ext call.
  destruct (with_retries_stops_at_first_settled_attempt
              (Fixtures.refused_attempt (ext := ext))
              "/v1/nodes" "GET" () 5 2 2 Fixtures.start
              ltac:(lia) ltac:(lia) eq_refl eq_refl) as [Hrun Hslept].
  - intros st. by rewrite (proj1 (refused_attempt_frame _ _ st)).
  - intros [|[|i]] Hi; [| | lia]; exists ConnectionRefused; vm_compute; by split.
  - vm_compute. exact I.
  - split; [| split].
    + unfold outcome, call. rewrite Hrun. vm_compute. reflexivity.
    + apply Hslept. intros st. apply refused_attempt_frame.
    + unfold exec, call. rewrite Hrun. vm_compute. reflexivity.
Defined.

(** A 200 declared as binary data: the payload is still in the response
    that comes back. *)
Lemma HTTPClient_hands_binary_body_over_unread_witness :
  let ext := Fixtures.externals [inr Scenarios.binary] in
  let call := HTTPClient._http_request 1 Fixtures.http_client "/v1/nodes" "GET"
                Fixtures.get_nodes in
  outcome call Fixtures.start
  = Ok (Some (Scenarios.binary, BodyIterator Scenarios.binary))
  /\ length (sent (world (exec call Fixtures.start))) = 1%nat.
Proof.
  intros ext call.
  destruct (HTTPClient_hands_binary_body_over_unread (ext := ext) Fixtures.http_client 0
              "/v1/nodes" "GET" Fixtures.get_nodes Fixtures.start Scenarios.binary
              ltac:(vm_compute; discriminate) ltac:(vm_compute; reflexivity)
              ltac:(solve_passes)) as (Hsent & _ & Hout).
  split.
  - exact Hout.
  - fold call in Hsent. rewrite Hsent. reflexivity.
Defined.

(** A host name that does not resolve: one request, no sleep. *)
Lemma HTTPClient_does_not_retry_name_resolution_witness :
  let ext := Fixtures.externals [inl socket_gaierror] in
  let call := HTTPClient._http_request 1 Fixtures.http_client "/v1/nodes" "GET"
                Fixtures.get_nodes in
  outcome call Fixtures.start = Raise EndpointNotFound
  /\ length (sent (world (exec call Fixtures.start))) = 1%nat
  /\ slept (world (exec call Fixtures.start)) = [].
Proof.
  intros ext call.
  destruct (HTTPClient_does_not_retry_name_resolution (ext := ext) Fixtures.http_client 0
              "/v1/nodes" "GET" Fixtures.get_nodes Fixtures.start
              ltac:(vm_compute; discriminate) ltac:(vm_compute; reflexivity))
    as (Hout & Hsent & Hslept).
  split; [exact Hout | split; [| exact Hslept]].
  fold call in Hsent. rewrite Hsent. reflexivity.
Defined.

(** A peer that never answers, with the default five retries two seconds
    apart: six requests, ten seconds of sleep, and the refusal. *)
Lemma HTTPClient_retries_refused_connections_witness :
  let ext := Fixtures.externals [] in
  let call := HTTPClient._http_request 1 Fixtures.http_client "/v1/nodes" "GET"
                Fixtures.get_nodes in
  outcome call Fixtures.start = Raise ConnectionRefused
  /\ length (sent (world (exec call Fixtures.start))) = 6%nat
  /\ slept (world (exec call Fixtures.start)) = [2; 2; 2; 2; 2]%Z.
Proof.
  intros ext call.
  destruct (HTTPClient_retries_refused_connections (ext := ext) Fixtures.http_client 0
              "/v1/nodes" "GET" Fixtures.get_nodes 5 2 Fixtures.start
              ltac:(lia) ltac:(lia) eq_refl eq_refl
              (fun history => or_intror (scripted_over history)))
    as (Hout & Hsent & Hslept).
  split; [exact Hout | split; [| exact Hslept]].
  fold call in Hsent. rewrite Hsent. reflexivity.
Defined.

(** The session client lets a socket error through as it is. *)
Lemma SessionClient_lets_transport_failures_through_witness :
  let ext := Fixtures.externals [inl socket_error] in
  let call := SessionClient._http_request 1 Fixtures.session_client (Some "/v1/nodes")
                "POST" Fixtures.session_post in
  outcome call Fixtures.start_with_headers = Raise socket_error
  /\ length (sent (world (exec call Fixtures.start_with_headers))) = 1%nat.
Proof.
  intros ext call.
  destruct (SessionClient_lets_transport_failures_through (ext := ext)
              Fixtures.session_client 0 (Some "/v1/nodes") "POST" Fixtures.session_post
              Fixtures.start_with_headers socket_error
              ltac:(vm_compute; discriminate)
              ltac:(intros _; vm_compute; eauto)
              ltac:(vm_compute; reflexivity) eq_refl)
    as (Hout & Hsent & _).
  split; [exact Hout |].
  fold call in Hsent. rewrite Hsent. reflexivity.
Defined.

(** A 300 through the raw client. *)
Lemma multiple_choices_is_an_error_witness :
  let ext := Fixtures.externals [inr Scenarios.multiple_choices] in
  outcome (HTTPClient._http_request 1 Fixtures.http_client "/v1/nodes" "GET"
             Fixtures.get_nodes) Fixtures.start
  = Raise (HTTPError (mkErrorInfo 300 None None (Some "GET") (Some "/v1/nodes"))).
Proof.
  intros ext.
  destruct (multiple_choices_is_an_error (ext := ext)) as [Hraw _].
  destruct (Hraw Fixtures.http_client 0%nat "/v1/nodes" "GET" Fixtures.get_nodes
              Fixtures.start Scenarios.multiple_choices
              ltac:(vm_compute; discriminate) ltac:(vm_compute; reflexivity) eq_refl)
    as [Hout _].
  exact Hout.
Defined.

(** The default client against a server that supports 1.1 to 1.6: the
    request goes out with 1.9, then again with 1.6. *)
Lemma HTTPClient_replays_with_negotiated_version_witness :
  let ext := Fixtures.externals [inr Scenarios.too_new; inr Fixtures.ok_response] in
  let call := HTTPClient._http_request 2 Fixtures.http_client "/v1/nodes" "GET"
                Fixtures.get_nodes in
  map (fun rq => request_headers rq !! VERSION_HEADER)
    (sent (world (exec call Fixtures.start)))
  = [Some "1.9"; Some "1.6"].
Proof.
  intros ext call.
  destruct (HTTPClient_replays_with_negotiated_version (ext := ext) Fixtures.http_client 0
              "/v1/nodes" "GET" Fixtures.get_nodes Fixtures.start Scenarios.too_new
              "1.6" (Some "ironic.example.com") (Some "6385")
              ltac:(vm_compute; discriminate) ltac:(vm_compute; reflexivity) eq_refl
              ltac:(left; reflexivity) eq_refl ltac:(vm_compute; reflexivity)
              ltac:(vm_compute; reflexivity)) as [more Hsent].
  fold call in Hsent. revert Hsent. vm_compute. intros Hsent.
  apply (f_equal (@length _)) in Hsent as Hlen. 
  destruct more; [| discriminate Hlen]. reflexivity.
Defined.


(** The same exchange through the session client: the dict the caller
    passed holds the negotiated version when the replay starts. *)
Lemma SessionClient_replays_with_negotiated_version_witness :
  let ext := Fixtures.externals [inr Scenarios.too_new; inr Fixtures.ok_response] in
  let call := SessionClient._http_request 2 Fixtures.session_client (Some "/v1/nodes")
                "POST" Fixtures.session_post in
  map (fun rq => request_headers rq !! VERSION_HEADER)
    (sent (world (exec call Fixtures.start_with_headers)))
  = [Some "1.9"; Some "1.6"].
Proof.
  intros ext call.
  destruct (SessionClient_replays_with_negotiated_version (ext := ext)
              Fixtures.session_client 0 (Some "/v1/nodes") "POST" Fixtures.session_post
              Fixtures.start_with_headers Scenarios.too_new
              "1.6" (Some "ironic.example.com") (Some "6385") 0%nat
              ltac:(vm_compute; discriminate) eq_refl ltac:(vm_compute; reflexivity) eq_refl
              ltac:(left; reflexivity) eq_refl ltac:(vm_compute; reflexivity)
              ltac:(vm_compute; reflexivity)) as [_ [more Hsent]].
  fold call in Hsent. revert Hsent. vm_compute. intros Hsent.
  apply (f_equal (@length _)) in Hsent as Hlen.
  destruct more; [| discriminate Hlen]. reflexivity.
Defined.





(** A verified connection with a client certificate and no key. *)
Lemma connect_verifies_the_peer_unless_insecure_witness :
  let fs := Scenarios.redhat in
  let net := Scenarios.reachable in
  let conn := VerifiedHTTPSConnection.__init__ (Some "ironic.example.com") (Some 6385%Z)
                None (Some "/etc/client.pem") None (Some 600%Z) false in
  (VerifiedHTTPSConnection.connect conn []).2.2
  = [VerifiedHTTPSConnection.create_connection (Some "ironic.example.com") (Some 6385%Z)
       (Some 600%Z);
     VerifiedHTTPSConnection.wrap_socket
       (VerifiedHTTPSConnection.mkWrapKwargs VerifiedHTTPSConnection.CERT_REQUIRED
          (Some (Some "/etc/pki/tls/certs/ca-bundle.crt")) (Some "/etc/client.pem") None)].
Proof.
  intros fs net conn.
  destruct (connect_verifies_the_peer_unless_insecure (net := net) conn [])
    as (calls & Hcalls & _).
  rewrite Hcalls. revert Hcalls. vm_compute. by intros <-.
Defined.

(** With a session, a token and a certificate change nothing but the
    warning. *)
Lemma construct_with_session_ignores_raw_options_witness :
  let ext := Fixtures.externals [] in
  let ks := Scenarios.keystone in
  let a := mkConstructArgs (Some Fixtures.endpoint_url) (Some TheSession) (Some "token")
             None (Some DEFAULT_VER) "default" (Some DEFAULT_MAX_RETRIES)
             (Some DEFAULT_RETRY_INTERVAL) (Some 600%Z) None (Some "/etc/client.pem") None
             None {[ "endpoint_type" := Some "internal" ]} in
  let b := mkConstructArgs (Some Fixtures.endpoint_url) (Some TheSession) None
             None (Some DEFAULT_VER) "default" (Some DEFAULT_MAX_RETRIES)
             (Some DEFAULT_RETRY_INTERVAL) (Some 600%Z) None None None
             None {[ "endpoint_type" := Some "internal" ]} in
  outcome (_construct_http_client b) Fixtures.start
  = outcome (_construct_http_client a) Fixtures.start
  /\ length (logged (world (exec (_construct_http_client a) Fixtures.start))) = 1%nat.
Proof.
  intros ext ks a b.
  destruct (construct_with_session_ignores_raw_options (ext := ext) (ks := ks) a
              TheSession Fixtures.start eq_refl)
    as (kwargs & _ & _ & _ & _ & _ & _ & _ & Hlog & Hsame).
  split.
  - apply Hsame. by repeat split.
  - rewrite Hlog. reflexivity.
Defined.

(** Without a session, a keyword argument the signature does not name is
    dropped with a warning. *)
Lemma construct_without_session_builds_the_raw_client_witness :
  let ext := Fixtures.externals [] in
  let ks := Scenarios.keystone in
  let a := mkConstructArgs (Some Fixtures.endpoint_url) None (Some "token")
             None (Some DEFAULT_VER) "default" (Some DEFAULT_MAX_RETRIES)
             (Some DEFAULT_RETRY_INTERVAL) (Some 600%Z) None None None
             None {[ "region_name" := Some "one" ]} in
  outcome (_construct_http_client a) Fixtures.start
  = Ok (inr (Fixtures.attrs,
             HTTPClient.mk "http://ironic.example.com:6385" (Some "token") None
               (HTTPConnection, (Some "ironic.example.com", Some 6385%Z, ""),
                mkConnKwargs 600%Z None None None false)))
  /\ length (logged (world (exec (_construct_http_client a) Fixtures.start))) = 1%nat.
Proof.
  intros ext ks a.
  destruct (construct_without_session_builds_the_raw_client (ext := ext) (ks := ks) a
              Fixtures.start eq_refl) as (Hout & _ & _ & Hlog & _).
  split.
  - rewrite Hout. vm_compute. reflexivity.
  - rewrite Hlog. vm_compute. reflexivity.
Defined.

(** A port group with an address and a node; one with an attribute the
    call does not take. *)
Lemma create_accepts_only_creation_attributes_witness :
  let base := Scenarios.recording [] in
  PortgroupManager.create [("address", JStr "aa:bb"); ("node_uuid", JStr "n1")] []
  = (inr (Some "created"), ["POST /v1/portgroups"])
  /\ PortgroupManager.create [("address", JStr "aa:bb"); ("uuid", JStr "u1")] []
     = (inl PortgroupManager.InvalidAttribute, []).
Proof.
  intros base.
  split.
  - destruct (create_accepts_only_creation_attributes (base := base)
                [("address", JStr "aa:bb"); ("node_uuid", JStr "n1")] []
                ltac:(compute_done)) as (Hok & _ & _).
    rewrite Hok by compute_done. reflexivity.
  - destruct (create_accepts_only_creation_attributes (base := base)
                [("address", JStr "aa:bb"); ("uuid", JStr "u1")] []
                ltac:(compute_done)) as (_ & Hbad & _).
    apply Hbad. compute_done.
Defined.

(** Two port groups behind one id: the first is returned. *)
Lemma get_returns_the_first_or_None_witness :
  let base := Scenarios.recording ["pg1"; "pg2"] in
  PortgroupManager.get "pg1" (Some ["uuid"; "address"]) []
  = (inr (Some "pg1"), ["GET /v1/portgroups/pg1?fields=uuid,address"]).
Proof.
  intros base.
  destruct (get_returns_the_first_or_None (base := base) "pg1" (Some ["uuid"; "address"]) [])
    as (Hstate & _ & Hfirst & _).
  apply injective_projections.
  - exact (Hfirst _ eq_refl).
  - exact Hstate.
Defined.

(** Two port groups with one address are as good as none. *)
Lemma get_by_address_wants_exactly_one_witness :
  let base := Scenarios.recording ["pg1"; "pg2"] in
  PortgroupManager.get_by_address "aa:bb" None []
  = (inl PortgroupManager.NotFound, ["GET /v1/portgroups/detail?address=aa:bb"]).
Proof.
  intros base.
  destruct (get_by_address_wants_exactly_one (base := base) "aa:bb" None [])
    as (Hstate & _ & Hmany & _).
  apply injective_projections.
  - exact (Hmany _ eq_refl ltac:(discriminate)).
  - exact Hstate.
Defined.

(** A detailed listing with fields sends nothing. *)
Lemma list_refuses_fields_with_detail_witness :
  let base := Scenarios.recording ["pg1"] in
  PortgroupManager.list None None None None None None true (Some ["uuid"]) []
  = (inl PortgroupManager.InvalidAttribute, [])
  /\ PortgroupManager.list (Some "n1") (Some "aa:bb") (Some 5%Z) None None None false None []
     = (inr ["pg1"], ["GET /v1/portgroups/?limit=5&address=aa:bb"]).
Proof.
  intros base.
  split.
  - destruct (list_refuses_fields_with_detail (base := base) None None None None None None
                true (Some ["uuid"]) []) as (Hrefused & _).
    apply Hrefused; [reflexivity | by exists "uuid", []].
  - destruct (list_refuses_fields_with_detail (base := base) (Some "n1") (Some "aa:bb")
                (Some 5%Z) None None None false None []) as (_ & Hsent & _).
    rewrite Hsent by (by left). reflexivity.
Defined.
